(** * httpdump: bounded-prefix capture and the dump decision pipeline

    A shallow embedding of
      - [io/prefix_reader.go]  (package [io] of the repository),
      - [io/prefix_writer.go]  (same package),
      - [middleware.go]        (package [httpdump]),
    together with the small part of Go's standard [io] package the code
    calls ([io.ReadAtLeast], [io.Copy], the [io.Reader] and [io.Writer]
    interfaces).

    Conventions.
      - A Go [[]byte] is a [list byte]; [len] is [length]; the slice
        expression [s[lo:hi]] is [slice s lo hi].
      - Lengths, counts and cursors ([read], [cached], the [n] results) are
        Go [int]s that the code only ever uses as non-negative indices into
        an allocated buffer; they are [nat] here.  The body-size limit and
        the HTTP status are compared with [0] in the code and are [Z].
      - A Go [error] result is [option error], [None] being [nil].
      - A nil pointer dereference panics in Go; operations that can reach
        one return [option], [None] being the panic. *)

From Stdlib Require Import ZArith Lia Bool.
From Stdlib Require Import Strings.String Strings.Byte.
From stdpp Require Import base option list gmap strings.

Abbreviation byte := Byte.byte.

(** [s[lo:hi]] *)
Definition slice {A} (s : list A) (lo hi : nat) : list A :=
  take (hi - lo) (drop lo s).

(** [copy(dst[off:], src)]: overwrites [dst] from index [off] on with as
    many elements of [src] as fit; the result is the new [dst]. *)
Definition copy_at {A} (dst : list A) (off : nat) (src : list A) : list A :=
  take off dst ++ take (length dst - off) src ++ drop (off + length src) dst.

#[global] Arguments slice : simpl never.
#[global] Arguments copy_at : simpl never.

(** ** Go's standard [io] package (imported as [stdio] in middleware.go) *)
Module stdio.

Inductive error : Type :=
| EOF
| ErrUnexpectedEOF
| ErrShortBuffer
| ErrShortWrite
| ErrOther (msg : string).

#[global] Instance error_eq_dec : EqDecision error.
Proof. solve_decision. Defined.

(** *** [io.Reader]

    [io.Reader] is an interface.  The sources handed to the repository's
    code are modelled by a scripted reader: it holds the bytes it has not
    delivered yet, and a schedule bounding the sizes of its next reads (a
    bound [0] is a read that returns [0, nil]).  Once the schedule is used
    up a read returns as many bytes as the caller's buffer takes.  When the
    data is exhausted every read returns [0, rd_fin]; a reader with
    [rd_eager] reports [rd_fin] already together with its last bytes, as
    the [io.Reader] contract allows. *)
Record Reader : Type := mkReader {
  rd_data : list byte;
  rd_sched : list nat;
  rd_eager : bool;
  rd_fin : error
}.

(** [r.Read(p)] with [len(p) = k]: the bytes stored in [p[0:n]], the error,
    the reader afterwards. *)
Definition Reader_Read (r : Reader) (k : nat) : list byte * option error * Reader :=
  match rd_data r with
  | [] => ([], Some (rd_fin r), r)
  | _ :: _ =>
      let cap := match rd_sched r with [] => k | c :: _ => c `min` k end in
      let rest := drop cap (rd_data r) in
      (take cap (rd_data r),
       match rest with
       | [] => if rd_eager r then Some (rd_fin r) else None
       | _ :: _ => None
       end,
       {| rd_data := rest; rd_sched := tail (rd_sched r);
          rd_eager := rd_eager r; rd_fin := rd_fin r |})
  end.

(** *** [io.Writer]

    A sink accumulates what it accepted.  With [sk_room = Some m] it
    accepts [m] more bytes and fails with [sk_err] on the write that
    exceeds them, reporting the bytes it did accept. *)
Record Sink : Type := mkSink {
  sk_out : list byte;
  sk_room : option nat;
  sk_err : error
}.

Definition Sink_Write (w : Sink) (data : list byte) : nat * option error * Sink :=
  match sk_room w with
  | None =>
      (length data, None,
       {| sk_out := sk_out w ++ data; sk_room := None; sk_err := sk_err w |})
  | Some m =>
      if length data <=? m
      then (length data, None,
            {| sk_out := sk_out w ++ data; sk_room := Some (m - length data);
               sk_err := sk_err w |})
      else (m, Some (sk_err w),
            {| sk_out := sk_out w ++ take m data; sk_room := Some 0;
               sk_err := sk_err w |})
  end.

(** *** [io.ReadAtLeast]
<<
  func ReadAtLeast(r Reader, buf []byte, min int) (n int, err error) {
      if len(buf) < min { return 0, ErrShortBuffer }
      for n < min && err == nil {
          var nn int
          nn, err = r.Read(buf[n:])
          n += nn
      }
      if n >= min { err = nil
      } else if n > 0 && err == EOF { err = ErrUnexpectedEOF }
      return
  }
>>
    The loop is cut off after [fuel] iterations; [ReadAtLeast_fuel] is
    enough for every scripted reader (lemma [ReadAtLeast_loop_spec]). *)
Fixpoint ReadAtLeast_loop (fuel : nat) (r : Reader) (buf : list byte)
    (min n : nat) (err : option error)
  : nat * option error * list byte * Reader :=
  if (n <? min) && bool_decide (err = None) then
    match fuel with
    | 0 => (n, err, buf, r)
    | S fuel' =>
        let '(bs, err', r') := Reader_Read r (length buf - n) in
        ReadAtLeast_loop fuel' r' (copy_at buf n bs) min (n + length bs) err'
    end
  else (n, err, buf, r).

Definition ReadAtLeast_fuel (r : Reader) : nat := S (S (length (rd_sched r))).

(** The number of iterations the loop needs at most on the reader [r]. *)
Definition need (r : Reader) : nat :=
  length (rd_sched r) + match rd_data r with [] => 1 | _ :: _ => 2 end.

Definition ReadAtLeast (r : Reader) (buf : list byte) (min : nat)
  : nat * option error * list byte * Reader :=
  if length buf <? min then (0, Some ErrShortBuffer, buf, r)
  else
    let '(n, err, buf', r') :=
      ReadAtLeast_loop (ReadAtLeast_fuel r) r buf min 0 None in
    let err' :=
      if min <=? n then None
      else if (0 <? n) && bool_decide (err = Some EOF) then Some ErrUnexpectedEOF
      else err in
    (n, err', buf', r').

(** *** [io.Copy], generic loop of [copyBuffer]
<<
  for {
      nr, er := src.Read(buf)
      if nr > 0 {
          nw, ew := dst.Write(buf[0:nr])
          ...
          written += int64(nw)
          if ew != nil { err = ew; break }
          if nr != nw { err = ErrShortWrite; break }
      }
      if er != nil { if er != EOF { err = er }; break }
  }
  return written, err
>>
    [io.Copy] runs it with a buffer of [32 * 1024] bytes. *)
Fixpoint copyBuffer_loop (fuel : nat) (size : nat) (dst : Sink) (src : Reader)
    (written : nat) : nat * option error * Sink * Reader :=
  match fuel with
  | 0 => (written, None, dst, src)
  | S fuel' =>
      let '(bs, er, src') := Reader_Read src size in
      let after_read (dst' : Sink) (written' : nat) :=
        match er with
        | Some e => (written', (if bool_decide (e = EOF) then None else Some e), dst', src')
        | None => copyBuffer_loop fuel' size dst' src' written'
        end in
      if 0 <? length bs then
        let '(nw, ew, dst') := Sink_Write dst bs in
        match ew with
        | Some e => (written + nw, Some e, dst', src')
        | None =>
            if bool_decide (length bs = nw) then after_read dst' (written + nw)
            else (written + nw, Some ErrShortWrite, dst', src')
        end
      else after_read dst written
  end.

Definition copyBufSize : nat := 32 * 1024.
#[global] Arguments copyBufSize : simpl never.

Definition Copy_fuel (src : Reader) : nat :=
  S (S (length (rd_sched src) + length (rd_data src))).

Definition Copy (dst : Sink) (src : Reader) : nat * option error * Sink * Reader :=
  copyBuffer_loop (Copy_fuel src) copyBufSize dst src 0.

#[global] Arguments Reader_Read : simpl never.
#[global] Arguments Sink_Write : simpl never.
#[global] Arguments ReadAtLeast : simpl never.
#[global] Arguments Copy : simpl never.

End stdio.

(** ** Package [io] of the repository: [PrefixReader] and [PrefixWriter] *)
Module io.
Import stdio.

(** *** io/prefix_reader.go

    A [PrefixReader] is the only user of its source once [Reset] has bound
    it, so the field [r] holds the source itself ([None] is a nil
    interface).  The fields are those of the Go struct, prefixed with
    [pr_]. *)
Record PrefixReader : Type := mkPrefixReader {
  pr_r : option Reader;
  pr_read : nat;
  pr_cached : nat;
  pr_err : option error;
  pr_cache : list byte
}.

(** [func (cr *PrefixReader) Reset(r io.Reader) error], for a non-nil [r]. *)
Definition Reset (cr : PrefixReader) (r : Reader) : option error * PrefixReader :=
  let '(n, err, cache', r') := ReadAtLeast r (pr_cache cr) (length (pr_cache cr)) in
  let err := if bool_decide (err = Some ErrUnexpectedEOF) then Some EOF else err in
  (err, {| pr_r := Some r'; pr_read := 0; pr_cached := n; pr_err := err;
           pr_cache := cache' |}).

(** [func NewPrefixReader(r io.Reader, prefixLen int)], which returns the new reader and the error of [Reset] *)
Definition NewPrefixReader (r : option Reader) (prefixLen : nat)
  : PrefixReader * option error :=
  let pr := {| pr_r := None; pr_read := 0; pr_cached := 0; pr_err := None;
               pr_cache := replicate prefixLen Byte.x00 |} in
  match r with
  | Some r => let '(err, pr') := Reset pr r in (pr', err)
  | None => (pr, None)
  end.

(** [func (cr *PrefixReader) Prefix() []byte] *)
Definition Prefix (cr : PrefixReader) : list byte :=
  take (pr_cached cr) (pr_cache cr).

(** [func (cr *PrefixReader) Read(p []byte) (int, error)] with
    [len(p) = k].  The result holds the bytes stored in [p[0:n]]. *)
Definition Read (cr : PrefixReader) (k : nat)
  : option (list byte * option error * PrefixReader) :=
  let l := pr_cached cr - pr_read cr in
  let from_cache :=
    if 0 <? l then take k (slice (pr_cache cr) (pr_read cr) (pr_cached cr)) else [] in
  let c := length from_cache in
  let cr1 := {| pr_r := pr_r cr; pr_read := pr_read cr + c;
                pr_cached := pr_cached cr; pr_err := pr_err cr;
                pr_cache := pr_cache cr |} in
  if (0 <? l) && bool_decide (c = k) then Some (from_cache, None, cr1)
  else
    match pr_err cr with
    | Some e => Some (from_cache, Some e, cr1)
    | None =>
        src ← pr_r cr;
        let '(bs, err, src') := Reader_Read src (k - c) in
        Some (from_cache ++ bs, err,
              {| pr_r := Some src'; pr_read := pr_read cr1;
                 pr_cached := pr_cached cr1; pr_err := pr_err cr1;
                 pr_cache := pr_cache cr1 |})
    end.

(** [func (cr *PrefixReader) WriteTo(w io.Writer) (n int64, err error)].
    Both the source's own [WriteTo] and [io.Copy] transfer what the source
    still holds to [w] until end of data or an error; both are [Copy]. *)
Definition WriteTo (cr : PrefixReader) (w : Sink)
  : option (nat * option error * PrefixReader * Sink) :=
  let pending := pr_cached cr - pr_read cr in
  let '(n, werr, w1) :=
    if 0 <? pending
    then Sink_Write w (slice (pr_cache cr) (pr_read cr) (pr_cached cr))
    else (0, None, w) in
  match werr with
  | Some e => Some (n, Some e, cr, w1)
  | None =>
      src ← pr_r cr;
      let '(a, err, w2, src') := Copy w1 src in
      Some (a + n, err,
            {| pr_r := Some src'; pr_read := pr_read cr;
               pr_cached := pr_cached cr; pr_err := pr_err cr;
               pr_cache := pr_cache cr |}, w2)
  end.

(** A consumer of a [PrefixReader] (the wrapped handler, [io.ReadAll],
    [io.Copy]) is a sequence of calls of [Read] and [WriteTo]. *)
Inductive Call : Type :=
| CRead (k : nat)
| CWriteTo (w : Sink).

(** One call: the bytes it delivers to the consumer (stored in the
    caller's buffer, or accepted by the sink), the error it returns, and
    the reader afterwards. *)
Definition call (cr : PrefixReader) (c : Call)
  : option (list byte * option error * PrefixReader) :=
  match c with
  | CRead k => Read cr k
  | CWriteTo w =>
      '(_, err, cr', w') ← WriteTo cr w;
      Some (drop (length (sk_out w)) (sk_out w'), err, cr')
  end.

(** All the bytes a sequence of calls delivers, in order. *)
Fixpoint consume (cr : PrefixReader) (cs : list Call)
  : option (list byte * PrefixReader) :=
  match cs with
  | [] => Some ([], cr)
  | c :: rest =>
      '(bs, _, cr') ← call cr c;
      '(bs', cr'') ← consume cr' rest;
      Some (bs ++ bs', cr'')
  end.

(** What an initialised reader has still to deliver: the part of the cache
    not replayed yet, then what the source holds. *)
Definition pending (cr : PrefixReader) : list byte :=
  slice (pr_cache cr) (pr_read cr) (pr_cached cr)
  ++ match pr_r cr with Some src => rd_data src | None => [] end.

(** The state of a reader that [Reset] has bound to a source: the cursor
    is inside the cached part, the cached part inside the buffer, and an
    error is stored only if the source has nothing left. *)
Definition initialised (cr : PrefixReader) : Prop :=
  pr_read cr ≤ pr_cached cr ∧ pr_cached cr ≤ length (pr_cache cr) ∧
  match pr_r cr with
  | Some src => pr_err cr = None ∨ rd_data src = []
  | None => False
  end.

(** *** io/prefix_writer.go

    The sink of a [PrefixWriter] is shared: in middleware.go the same
    [http.ResponseWriter] is held by [cachedWriter.w] and by the embedded
    [PrefixWriter.w].  Sinks therefore live in a store and the field [w]
    holds an address ([None] is nil).  The store is a parameter of the
    operations: [W] is the type of the stored objects, [sinkOf] and
    [setSink] select the [io.Writer] part of one. *)
Definition loc := nat.

Record PrefixWriter : Type := mkPrefixWriter {
  pw_w : option loc;
  pw_cached : nat;
  pw_cache : list byte
}.

(** [func NewPrefixWriter(w io.Writer, prefixLen int)] *)
Definition NewPrefixWriter (w : option loc) (prefixLen : nat) : PrefixWriter :=
  {| pw_w := w; pw_cached := 0; pw_cache := replicate prefixLen Byte.x00 |}.

(** [func (pw *PrefixWriter) Prefix() []byte] *)
Definition PrefixW (pw : PrefixWriter) : list byte :=
  take (pw_cached pw) (pw_cache pw).

(** [func (pw *PrefixWriter) Reset(w io.Writer)] *)
Definition ResetW (pw : PrefixWriter) (w : option loc) : PrefixWriter :=
  {| pw_w := w; pw_cached := 0; pw_cache := pw_cache pw |}.

Section Store.
Context {W : Type} (sinkOf : W → Sink) (setSink : W → Sink → W).

(** [pw.w.Write(data)] on the object at address [w] *)
Definition store_Write (w : option loc) (data : list byte) (h : gmap loc W)
  : option (nat * option error * gmap loc W) :=
  l ← w;
  o ← h !! l;
  let '(n, err, s') := Sink_Write (sinkOf o) data in
  Some (n, err, <[l := setSink o s']> h).

(** [func (pw *PrefixWriter) Write(data []byte) (int, error)] *)
Definition Write (pw : PrefixWriter) (data : list byte) (h : gmap loc W)
  : option (nat * option error * PrefixWriter * gmap loc W) :=
  let l := length (pw_cache pw) - pw_cached pw in
  let pw1 :=
    if 0 <? l then
      let l' := if length data <? l then length data else l in
      let n := (length (pw_cache pw) - pw_cached pw) `min` length (take l' data) in
      {| pw_w := pw_w pw; pw_cached := pw_cached pw + n;
         pw_cache := copy_at (pw_cache pw) (pw_cached pw) (take l' data) |}
    else pw in
  '(n, err, h') ← store_Write (pw_w pw) data h;
  Some (n, err, pw1, h').

(** [rf.ReadFrom(r)] of the sink, or else [io.Copy(pw.w, r)]: both move
    what [r] still holds into the object at address [w]. *)
Definition store_Copy (w : option loc) (r : Reader) (h : gmap loc W)
  : option (nat * option error * Reader * gmap loc W) :=
  l ← w;
  o ← h !! l;
  let '(a, err, s', r') := Copy (sinkOf o) r in
  Some (a, err, r', <[l := setSink o s']> h).

(** [func (pw *PrefixWriter) ReadFrom(r io.Reader) (n int64, err error)].
    In the Go text the [err] assigned by [pw.w.Write] is the one declared
    by [nn, err := io.ReadAtLeast(...)], so a successful write of the
    bytes just read replaces the error of [ReadAtLeast] by nil. *)
Definition ReadFrom (pw : PrefixWriter) (r : Reader) (h : gmap loc W)
  : option (nat * option error * PrefixWriter * Reader * gmap loc W) :=
  let rest (pw' : PrefixWriter) (r' : Reader) (h' : gmap loc W) (n : nat) :=
    '(a, err, r'', h'') ← store_Copy (pw_w pw') r' h';
    Some (a + n, err, pw', r'', h'') in
  let l := length (pw_cache pw) - pw_cached pw in
  if 0 <? l then
    let '(nn, err, buf', r1) :=
      ReadAtLeast r (drop (pw_cached pw) (pw_cache pw)) l in
    let pw0 := {| pw_w := pw_w pw; pw_cached := pw_cached pw;
                  pw_cache := take (pw_cached pw) (pw_cache pw) ++ buf' |} in
    '(err1, h1) ←
      (if 0 <? nn then
         '(_, werr, h') ←
           store_Write (pw_w pw)
             (slice (pw_cache pw0) (pw_cached pw) (pw_cached pw + nn)) h;
         Some (werr, h')
       else Some (err, h));
    match err1 with
    | Some e =>
        if 0 <? nn then Some (nn, Some e, pw0, r1, h1)
        else
          Some (nn, Some (if bool_decide (e = ErrUnexpectedEOF) then EOF else e),
                {| pw_w := pw_w pw0; pw_cached := pw_cached pw0 + nn;
                   pw_cache := pw_cache pw0 |}, r1, h1)
    | None =>
        rest {| pw_w := pw_w pw0; pw_cached := pw_cached pw0 + nn;
                pw_cache := pw_cache pw0 |} r1 h1 nn
    end
  else rest pw r h 0.

End Store.

(** A producer writing through a [PrefixWriter] (the wrapped handler,
    [io.Copy]) is a sequence of calls of [Write] and [ReadFrom]. *)
Inductive WCall : Type :=
| WWrite (data : list byte)
| WReadFrom (src : Reader).

(** The bytes a call sends: the data written, or all the source holds. *)
Definition sent (c : WCall) : list byte :=
  match c with WWrite data => data | WReadFrom src => rd_data src end.

(** The calls made one after the other: the writer and the store after
    them. *)
Fixpoint produce {W : Type} (sinkOf : W → Sink) (setSink : W → Sink → W)
    (pw : PrefixWriter) (cs : list WCall) (h : gmap loc W)
  : option (PrefixWriter * gmap loc W) :=
  match cs with
  | [] => Some (pw, h)
  | WWrite data :: rest =>
      '(_, _, pw', h') ← Write sinkOf setSink pw data h;
      produce sinkOf setSink pw' rest h'
  | WReadFrom src :: rest =>
      '(_, _, pw', _, h') ← ReadFrom sinkOf setSink pw src h;
      produce sinkOf setSink pw' rest h'
  end.

End io.

(** ** Package [httpdump]: middleware.go *)
Module httpdump.
Import stdio io.

Definition HeaderContentType : string := "Content-Type".

(** Default limit for dumped body size (both for request and response). *)
Definition DefaultBodySize : Z := 1024.

Definition MimeApplicationJSON : string := "application/json".
Definition MimeApplicationLDJSON : string := "application/ld+json".
Definition MimeApplicationXML : string := "application/xml".
Definition MimeApplicationXHTML : string := "application/xhtml+xml".
Definition MimeApplicationForm : string := "application/x-www-form-urlencoded".
Definition MimeTextXML : string := "text/xml".
Definition MimeTextHTML : string := "text/html".
Definition MimeTextPlain : string := "text/plain".

Definition DefaultDumpedContentTypes : list string :=
  [ MimeApplicationJSON; MimeApplicationLDJSON; MimeApplicationXML;
    MimeApplicationXHTML; MimeApplicationForm; MimeTextXML; MimeTextHTML;
    MimeTextPlain ].

Definition StatusOK : Z := 200.

(** [http.Header] is a [map[string][]string]; keys are taken in canonical
    form. *)
Definition Header_Get (h : gmap string (list string)) (key : string) : string :=
  match h !! key with
  | Some (v :: _) => v
  | _ => ""
  end.

Definition Header_Set (h : gmap string (list string)) (key value : string)
  : gmap string (list string) :=
  <[key := [value]]> h.

(** The part of [*http.Request] the filters and callbacks are given.  The
    [Body] field, which [Handle] reassigns and the handler consumes, is
    threaded separately (see [Body]). *)
Record Request : Type := mkRequest {
  URL_Path : string;
  Header : gmap string (list string)
}.

(** What [r.Body] is while the handler runs: the source the exchange came
    with, or the pooled [PrefixReader] put in its place. *)
Inductive Body : Type :=
| RawBody (src : Reader)
| PrefixBody (cr : PrefixReader).

(** The [http.ResponseWriter] of the exchange: its header map, the status
    codes passed to [WriteHeader], and the bytes written. *)
Record ResponseWriter : Type := mkResponseWriter {
  rw_header : gmap string (list string);
  rw_codes : list Z;
  rw_sink : Sink
}.

Definition rw_setSink (o : ResponseWriter) (s : Sink) : ResponseWriter :=
  {| rw_header := rw_header o; rw_codes := rw_codes o; rw_sink := s |}.

Definition RequestFilterFunc : Type := Request → bool * bool.
Definition ResponseFilterFunc : Type :=
  Request → gmap string (list string) → Z → bool * bool.

(** What an exchange does that is visible outside the middleware: which
    filters were consulted, and the calls of the two dump callbacks
    ([DumpRequestFunc], [DumpResponseFunc]) with their arguments (without
    the duration). *)
Inductive Event : Type :=
| EvRequestChain
| EvRequestFilter (i : nat)
| EvResponseChain (headers : gmap string (list string)) (status : Z)
| EvResponseFilter (i : nat)
| EvDumpRequest (rq : Request) (body : option (list byte))
| EvDumpResponse (rq : Request) (status : Z)
    (headers : gmap string (list string)) (body : list byte)
| EvServeHTTP (wrappedBody wrappedWriter : bool).

(** [strings.HasPrefix(ct, mt)] is [String.prefix mt ct]. *)
Fixpoint isDumpedContentType_loop (ct : string) (contentTypes : list string)
  : bool * bool :=
  match contentTypes with
  | [] => (true, false)
  | mt :: rest =>
      if String.prefix mt ct then (true, true)
      else isDumpedContentType_loop ct rest
  end.

Definition isDumpedContentType (headers : gmap string (list string))
    (contentTypes : list string) : bool * bool :=
  isDumpedContentType_loop (Header_Get headers HeaderContentType) contentTypes.

Definition FilterRequestBodyByContentType (contentTypes : list string)
  : RequestFilterFunc :=
  fun r => isDumpedContentType (Header r) contentTypes.

Definition FilterResponseBodyByContentType (contentTypes : list string)
  : ResponseFilterFunc :=
  fun _ headers _ => isDumpedContentType headers contentTypes.

(** A [*regexp.Regexp] is used through [MatchString] only. *)
Definition Regexp : Type := string → bool.

Definition pathExcluded (regexps : list Regexp) (path : string) : bool * bool :=
  if existsb (fun re => re path) regexps then (false, false) else (true, true).

(** [filterPassed]: the loop over [filters], carrying the index of the
    filter and the local [b]. *)
Fixpoint filterPassed_loop (r : Request) (filters : list RequestFilterFunc)
    (i : nat) (b : bool) : bool * bool * list Event :=
  match filters with
  | [] => (true, b, [])
  | f :: rest =>
      let '(dump, body) := f r in
      if negb dump then (false, false, [EvRequestFilter i])
      else
        let '(d, b', evs) :=
          filterPassed_loop r rest (S i) (if negb body then false else b) in
        (d, b', EvRequestFilter i :: evs)
  end.

Definition filterPassed (r : Request) (filters : list RequestFilterFunc)
  : bool * bool * list Event :=
  let '(d, b, evs) := filterPassed_loop r filters 0 true in
  (d, b, EvRequestChain :: evs).

(** *** [cachedWriter] *)
Record cachedWriter : Type := mkCachedWriter {
  cw_PrefixWriter : PrefixWriter;
  cw_w : option loc;
  cw_statusCode : Z;
  cw_request : option Request;
  cw_written : bool;
  cw_dumpBody : bool;
  cw_dumpResponse : bool;
  cw_filters : list ResponseFilterFunc
}.

Definition newCachedWriter (w : option loc) (s : nat) : cachedWriter :=
  {| cw_PrefixWriter := NewPrefixWriter w s; cw_w := w; cw_statusCode := 0;
     cw_request := None; cw_written := false; cw_dumpBody := false;
     cw_dumpResponse := false; cw_filters := [] |}.

Definition Status (cw : cachedWriter) : Z :=
  if (cw_statusCode cw =? 0)%Z then StatusOK else cw_statusCode cw.

Definition cachedWriter_Reset (cw : cachedWriter) (w : option loc)
    (r : option Request) (filters : list ResponseFilterFunc) : cachedWriter :=
  {| cw_PrefixWriter := ResetW (cw_PrefixWriter cw) w; cw_w := w;
     cw_statusCode := 0; cw_request := r; cw_written := false;
     cw_dumpBody := false; cw_dumpResponse := false; cw_filters := filters |}.

(** [cw.w.Header()] *)
Definition cachedWriter_Header (cw : cachedWriter) (h : gmap loc ResponseWriter)
  : option (gmap string (list string)) :=
  l ← cw_w cw; o ← h !! l; Some (rw_header o).

(** [cachedWriter.filtered]: the same loop as [filterPassed_loop], over the
    response filters. *)
Fixpoint filtered_loop (r : Request) (headers : gmap string (list string))
    (status : Z) (filters : list ResponseFilterFunc) (i : nat) (b : bool)
  : bool * bool * list Event :=
  match filters with
  | [] => (true, b, [])
  | f :: rest =>
      let '(dump, body) := f r headers status in
      if negb dump then (false, false, [EvResponseFilter i])
      else
        let '(d, b', evs) :=
          filtered_loop r headers status rest (S i)
            (if negb body then false else b) in
        (d, b', EvResponseFilter i :: evs)
  end.

Definition filtered (cw : cachedWriter) (r : Request)
    (headers : gmap string (list string)) (status : Z)
  : bool * bool * list Event :=
  let '(d, b, evs) := filtered_loop r headers status (cw_filters cw) 0 true in
  (d, b, EvResponseChain headers status :: evs).

(** [func (cw *cachedWriter) EnsureFilterPassed()].  The filters are handed
    [cw.request], so a nil request is a panic here. *)
Definition EnsureFilterPassed (cw : cachedWriter) (h : gmap loc ResponseWriter)
  : option (cachedWriter * list Event) :=
  if cw_written cw then Some (cw, [])
  else
    let sc := if (cw_statusCode cw =? 0)%Z then StatusOK else cw_statusCode cw in
    r ← cw_request cw;
    headers ← cachedWriter_Header cw h;
    let '(d, b, evs) := filtered cw r headers sc in
    Some ({| cw_PrefixWriter := cw_PrefixWriter cw; cw_w := cw_w cw;
             cw_statusCode := sc; cw_request := cw_request cw;
             cw_written := true; cw_dumpBody := b; cw_dumpResponse := d;
             cw_filters := cw_filters cw |}, evs).

Definition with_PrefixWriter (cw : cachedWriter) (pw : PrefixWriter) : cachedWriter :=
  {| cw_PrefixWriter := pw; cw_w := cw_w cw; cw_statusCode := cw_statusCode cw;
     cw_request := cw_request cw; cw_written := cw_written cw;
     cw_dumpBody := cw_dumpBody cw; cw_dumpResponse := cw_dumpResponse cw;
     cw_filters := cw_filters cw |}.

(** [func (cw *cachedWriter) Write(data []byte) (int, error)] *)
Definition cachedWriter_Write (cw : cachedWriter) (data : list byte)
    (h : gmap loc ResponseWriter)
  : option (nat * option error * cachedWriter * gmap loc ResponseWriter * list Event) :=
  '(cw1, evs) ← EnsureFilterPassed cw h;
  if negb (cw_dumpBody cw1) then
    '(n, err, h') ← store_Write rw_sink rw_setSink (cw_w cw1) data h;
    Some (n, err, cw1, h', evs)
  else
    '(n, err, pw', h') ← Write rw_sink rw_setSink (cw_PrefixWriter cw1) data h;
    match err with
    | Some e => Some (0, Some e, with_PrefixWriter cw1 pw', h', evs)
    | None => Some (n, None, with_PrefixWriter cw1 pw', h', evs)
    end.

(** [w.WriteHeader(statusCode)] of the underlying writer *)
Definition store_WriteHeader (w : option loc) (statusCode : Z)
    (h : gmap loc ResponseWriter) : option (gmap loc ResponseWriter) :=
  l ← w; o ← h !! l;
  Some (<[l := {| rw_header := rw_header o;
                  rw_codes := rw_codes o ++ [statusCode];
                  rw_sink := rw_sink o |}]> h).

(** [func (cw *cachedWriter) WriteHeader(statusCode int)] *)
Definition cachedWriter_WriteHeader (cw : cachedWriter) (statusCode : Z)
    (h : gmap loc ResponseWriter)
  : option (cachedWriter * gmap loc ResponseWriter) :=
  let cw1 :=
    if (cw_statusCode cw =? 0)%Z then
      {| cw_PrefixWriter := cw_PrefixWriter cw; cw_w := cw_w cw;
         cw_statusCode := statusCode; cw_request := cw_request cw;
         cw_written := cw_written cw; cw_dumpBody := cw_dumpBody cw;
         cw_dumpResponse := cw_dumpResponse cw; cw_filters := cw_filters cw |}
    else cw in
  h' ← store_WriteHeader (cw_w cw) statusCode h;
  Some (cw1, h').

(** [w.Header().Set(key, value)] on the underlying writer's header map *)
Definition store_HeaderSet (w : option loc) (key value : string)
    (h : gmap loc ResponseWriter) : option (gmap loc ResponseWriter) :=
  l ← w; o ← h !! l;
  Some (<[l := {| rw_header := Header_Set (rw_header o) key value;
                  rw_codes := rw_codes o; rw_sink := rw_sink o |}]> h).

(** [cachedWriter] embeds [io.PrefixWriter] (middleware.go, the first field
    of the struct), so [ReadFrom] of the embedded value is a method of
    [*cachedWriter]: [io.Copy(w, src)] in a handler finds it through
    [w.(io.ReaderFrom)].  [cachedWriter] declares no [ReadFrom] of its own. *)
Definition cachedWriter_ReadFrom (cw : cachedWriter) (src : Reader)
    (h : gmap loc ResponseWriter)
  : option (nat * option error * cachedWriter * Reader * gmap loc ResponseWriter) :=
  '(n, err, pw', src', h') ←
    ReadFrom rw_sink rw_setSink (cw_PrefixWriter cw) src h;
  Some (n, err, with_PrefixWriter cw pw', src', h').

(** *** [Middleware] and its options

    The two callbacks are opaque functions of the caller; the model keeps
    whether each is configured (non-nil) and records their calls as
    [EvDumpRequest] and [EvDumpResponse].  A [sync.Pool] is the list of the
    instances put back, [Get] taking the most recent one or calling [New]. *)
Record Middleware : Type := mkMiddleware {
  enabled : bool;
  requestFilters : list RequestFilterFunc;
  dumpRequest : bool;
  responseFilters : list ResponseFilterFunc;
  dumpResponse : bool;
  writerPool : list cachedWriter;
  readerPool : list PrefixReader;
  dumpedBodySize : Z
}.

Definition Option : Type := Middleware → Middleware.

Definition set_requestFilters (m : Middleware) (fs : list RequestFilterFunc) : Middleware :=
  {| enabled := enabled m; requestFilters := fs; dumpRequest := dumpRequest m;
     responseFilters := responseFilters m; dumpResponse := dumpResponse m;
     writerPool := writerPool m; readerPool := readerPool m;
     dumpedBodySize := dumpedBodySize m |}.

Definition set_responseFilters (m : Middleware) (fs : list ResponseFilterFunc) : Middleware :=
  {| enabled := enabled m; requestFilters := requestFilters m;
     dumpRequest := dumpRequest m; responseFilters := fs;
     dumpResponse := dumpResponse m; writerPool := writerPool m;
     readerPool := readerPool m; dumpedBodySize := dumpedBodySize m |}.

Definition set_dumpedBodySize (m : Middleware) (limit : Z) : Middleware :=
  {| enabled := enabled m; requestFilters := requestFilters m;
     dumpRequest := dumpRequest m; responseFilters := responseFilters m;
     dumpResponse := dumpResponse m; writerPool := writerPool m;
     readerPool := readerPool m; dumpedBodySize := limit |}.

Definition set_pools (m : Middleware) (ws : list cachedWriter)
    (rs : list PrefixReader) : Middleware :=
  {| enabled := enabled m; requestFilters := requestFilters m;
     dumpRequest := dumpRequest m; responseFilters := responseFilters m;
     dumpResponse := dumpResponse m; writerPool := ws; readerPool := rs;
     dumpedBodySize := dumpedBodySize m |}.

(** [func (m *Middleware) Enabled() bool] *)
Definition Enabled (m : Middleware) : bool := enabled m.

(** [func (m *Middleware) SetEnabled(v bool)] *)
Definition SetEnabled (m : Middleware) (v : bool) : Middleware :=
  {| enabled := v; requestFilters := requestFilters m;
     dumpRequest := dumpRequest m; responseFilters := responseFilters m;
     dumpResponse := dumpResponse m; writerPool := writerPool m;
     readerPool := readerPool m; dumpedBodySize := dumpedBodySize m |}.

Definition WithRequestFilters (filters : list RequestFilterFunc) : Option :=
  fun m => set_requestFilters m (requestFilters m ++ filters).

Definition WithRequestPathFilter (regexps : list Regexp) : Option :=
  let f : RequestFilterFunc := fun r => pathExcluded regexps (URL_Path r) in
  fun m => set_requestFilters m (requestFilters m ++ [f]).

Definition WithResponseFilters (filters : list ResponseFilterFunc) : Option :=
  fun m => set_responseFilters m (responseFilters m ++ filters).

Definition WithResponsePathFilter (regexps : list Regexp) : Option :=
  let f : ResponseFilterFunc := fun r _ _ => pathExcluded regexps (URL_Path r) in
  fun m => set_responseFilters m (responseFilters m ++ [f]).

Definition WithPathFilter (regexps : list Regexp) : Option :=
  let req := WithRequestPathFilter regexps in
  let res := WithResponsePathFilter regexps in
  fun m => res (req m).

(** [func WithLimitedBody(limit int) Option]; [None] is the panic
    ["httpdump: limit must be greater than 0"]. *)
Definition WithLimitedBody (limit : Z) : option Option :=
  if (limit <=? 0)%Z then None
  else Some (fun m => set_dumpedBodySize m limit).

(** [func NewMiddleware(dumpRequest, dumpResponse, opts ...Option)].  The
    pools start empty; their [New] functions are [writerPool_New] and
    [readerPool_New]. *)
Definition NewMiddleware (dumpRequest dumpResponse : bool) (opts : list Option)
  : Middleware :=
  let m :=
    {| enabled := true;
       requestFilters := [FilterRequestBodyByContentType DefaultDumpedContentTypes];
       responseFilters := [FilterResponseBodyByContentType DefaultDumpedContentTypes];
       dumpRequest := dumpRequest;
       dumpResponse := dumpResponse;
       writerPool := [];
       readerPool := [];
       dumpedBodySize := DefaultBodySize |} in
  foldl (fun m opt => opt m) m opts.

Definition writerPool_New (m : Middleware) : cachedWriter :=
  newCachedWriter None (Z.to_nat (dumpedBodySize m)).

Definition readerPool_New (m : Middleware) : PrefixReader :=
  fst (NewPrefixReader None (Z.to_nat (dumpedBodySize m))).

Definition writerPool_Get (m : Middleware) : cachedWriter * list cachedWriter :=
  match writerPool m with
  | cw :: rest => (cw, rest)
  | [] => (writerPool_New m, [])
  end.

Definition readerPool_Get (m : Middleware) : PrefixReader * list PrefixReader :=
  match readerPool m with
  | cr :: rest => (cr, rest)
  | [] => (readerPool_New m, [])
  end.

(** The call site of the constructor: the option expressions are evaluated
    first, in order, and a panic in one of them means [NewMiddleware] is
    never entered. *)
Inductive OptionExpr : Type :=
| EWithLimitedBody (limit : Z)
| EWithRequestFilters (filters : list RequestFilterFunc)
| EWithResponseFilters (filters : list ResponseFilterFunc)
| EWithPathFilter (regexps : list Regexp).

Definition evalOption (e : OptionExpr) : option Option :=
  match e with
  | EWithLimitedBody limit => WithLimitedBody limit
  | EWithRequestFilters fs => Some (WithRequestFilters fs)
  | EWithResponseFilters fs => Some (WithResponseFilters fs)
  | EWithPathFilter res => Some (WithPathFilter res)
  end.

Definition construct (dumpRequest dumpResponse : bool) (es : list OptionExpr)
  : option Middleware :=
  opts ← mapM evalOption es;
  Some (NewMiddleware dumpRequest dumpResponse opts).

(** *** The wrapped handler

    [next.ServeHTTP(w, r)] is arbitrary code of the application.  What it
    can do to the middleware's objects is a sequence of calls on [r.Body],
    on [w], and on the middleware's switch. *)
Inductive HandlerOp : Type :=
| HBodyRead (k : nat)                 (* r.Body.Read(p) with len(p) = k *)
| HBodyWriteTo (dst : Sink)           (* io.Copy(dst, r.Body) *)
| HHeaderSet (key value : string)     (* w.Header().Set(key, value) *)
| HWriteHeader (statusCode : Z)       (* w.WriteHeader(statusCode) *)
| HWrite (data : list byte)           (* w.Write(data) *)
| HReadFrom (src : Reader)            (* io.Copy(w, src), through w.(io.ReaderFrom) *)
| HSetEnabled (v : bool).             (* m.SetEnabled(v) *)

(** What [w] is while the handler runs. *)
Inductive WriterH : Type :=
| Direct (l : loc)
| Wrapped (cw : cachedWriter).

Record Exchange : Type := mkExchange {
  ex_enabled : bool;
  ex_body : Body;
  ex_writer : WriterH;
  ex_store : gmap loc ResponseWriter;
  ex_got : list byte;
  ex_trace : list Event
}.

Definition bodyRead (b : Body) (k : nat) : option (list byte * option error * Body) :=
  match b with
  | RawBody src =>
      let '(bs, err, src') := Reader_Read src k in Some (bs, err, RawBody src')
  | PrefixBody cr =>
      '(bs, err, cr') ← Read cr k; Some (bs, err, PrefixBody cr')
  end.

Definition bodyWriteTo (b : Body) (dst : Sink) : option (Sink * Body) :=
  match b with
  | RawBody src =>
      let '(_, _, dst', src') := Copy dst src in Some (dst', RawBody src')
  | PrefixBody cr =>
      '(_, _, cr', dst') ← WriteTo cr dst; Some (dst', PrefixBody cr')
  end.

Definition handlerStep (op : HandlerOp) (ex : Exchange) : option Exchange :=
  match op with
  | HBodyRead k =>
      '(bs, _, b') ← bodyRead (ex_body ex) k;
      Some {| ex_enabled := ex_enabled ex; ex_body := b';
              ex_writer := ex_writer ex; ex_store := ex_store ex;
              ex_got := ex_got ex ++ bs; ex_trace := ex_trace ex |}
  | HBodyWriteTo dst =>
      '(dst', b') ← bodyWriteTo (ex_body ex) dst;
      Some {| ex_enabled := ex_enabled ex; ex_body := b';
              ex_writer := ex_writer ex; ex_store := ex_store ex;
              ex_got := ex_got ex ++ drop (length (sk_out dst)) (sk_out dst');
              ex_trace := ex_trace ex |}
  | HHeaderSet key value =>
      let w := match ex_writer ex with Direct l => Some l | Wrapped cw => cw_w cw end in
      h' ← store_HeaderSet w key value (ex_store ex);
      Some {| ex_enabled := ex_enabled ex; ex_body := ex_body ex;
              ex_writer := ex_writer ex; ex_store := h';
              ex_got := ex_got ex; ex_trace := ex_trace ex |}
  | HWriteHeader statusCode =>
      match ex_writer ex with
      | Direct l =>
          h' ← store_WriteHeader (Some l) statusCode (ex_store ex);
          Some {| ex_enabled := ex_enabled ex; ex_body := ex_body ex;
                  ex_writer := Direct l; ex_store := h';
                  ex_got := ex_got ex; ex_trace := ex_trace ex |}
      | Wrapped cw =>
          '(cw', h') ← cachedWriter_WriteHeader cw statusCode (ex_store ex);
          Some {| ex_enabled := ex_enabled ex; ex_body := ex_body ex;
                  ex_writer := Wrapped cw'; ex_store := h';
                  ex_got := ex_got ex; ex_trace := ex_trace ex |}
      end
  | HWrite data =>
      match ex_writer ex with
      | Direct l =>
          '(_, _, h') ← store_Write rw_sink rw_setSink (Some l) data (ex_store ex);
          Some {| ex_enabled := ex_enabled ex; ex_body := ex_body ex;
                  ex_writer := Direct l; ex_store := h';
                  ex_got := ex_got ex; ex_trace := ex_trace ex |}
      | Wrapped cw =>
          '(_, _, cw', h', evs) ← cachedWriter_Write cw data (ex_store ex);
          Some {| ex_enabled := ex_enabled ex; ex_body := ex_body ex;
                  ex_writer := Wrapped cw'; ex_store := h';
                  ex_got := ex_got ex; ex_trace := ex_trace ex ++ evs |}
      end
  | HReadFrom src =>
      match ex_writer ex with
      | Direct l =>
          '(_, _, _, h') ← store_Copy rw_sink rw_setSink (Some l) src (ex_store ex);
          Some {| ex_enabled := ex_enabled ex; ex_body := ex_body ex;
                  ex_writer := Direct l; ex_store := h';
                  ex_got := ex_got ex; ex_trace := ex_trace ex |}
      | Wrapped cw =>
          '(_, _, cw', _, h') ← cachedWriter_ReadFrom cw src (ex_store ex);
          Some {| ex_enabled := ex_enabled ex; ex_body := ex_body ex;
                  ex_writer := Wrapped cw'; ex_store := h';
                  ex_got := ex_got ex; ex_trace := ex_trace ex |}
      end
  | HSetEnabled v =>
      Some {| ex_enabled := v; ex_body := ex_body ex;
              ex_writer := ex_writer ex; ex_store := ex_store ex;
              ex_got := ex_got ex; ex_trace := ex_trace ex |}
  end.

Fixpoint ServeHTTP (next : list HandlerOp) (ex : Exchange) : option Exchange :=
  match next with
  | [] => Some ex
  | op :: rest => ex' ← handlerStep op ex; ServeHTTP rest ex'
  end.

(** *** [Middleware.Handle] *)
Definition needDumpRequest (m : Middleware) (r : Request) : bool * bool * list Event :=
  if negb (dumpRequest m) then (false, false, [])
  else filterPassed r (requestFilters m).

(** The result of one exchange: the middleware afterwards (switch and
    pools), the store, the request body bytes the handler received and the
    trace. *)
Record Outcome : Type := mkOutcome {
  out_m : Middleware;
  out_store : gmap loc ResponseWriter;
  out_got : list byte;
  out_trace : list Event
}.

Definition Handle (m : Middleware) (next : list HandlerOp) (w : loc)
    (r : Request) (body : Reader) (h : gmap loc ResponseWriter) : option Outcome :=
  if negb (enabled m) then
    ex ← ServeHTTP next
           {| ex_enabled := enabled m; ex_body := RawBody body;
              ex_writer := Direct w; ex_store := h; ex_got := [];
              ex_trace := [EvServeHTTP false false] |};
    Some {| out_m := SetEnabled m (ex_enabled ex); out_store := ex_store ex;
            out_got := ex_got ex; out_trace := ex_trace ex |}
  else
    let '(dumpReq, dumpReqBody, evs_filter) := needDumpRequest m r in
    (* if dumpReq { ... m.dumpRequest(r, reqBody) } *)
    let '(body1, readers, evs_req) :=
      if dumpReq then
        if dumpReqBody then
          let '(cr, rest) := readerPool_Get m in
          let '(_, cr') := Reset cr body in
          (PrefixBody cr', rest, [EvDumpRequest r (Some (Prefix cr'))])
        else (RawBody body, readerPool m, [EvDumpRequest r None])
      else (RawBody body, readerPool m, []) in
    (* if m.dumpResponse != nil { cw = ...; cw.Reset(w, r, ...); w = cw } *)
    let '(w1, writers) :=
      if dumpResponse m then
        let '(cw, rest) := writerPool_Get m in
        (Wrapped (cachedWriter_Reset cw (Some w) (Some r) (responseFilters m)), rest)
      else (Direct w, writerPool m) in
    let wrappedBody := match body1 with PrefixBody _ => true | RawBody _ => false end in
    let wrappedWriter := match w1 with Wrapped _ => true | Direct _ => false end in
    ex ← ServeHTTP next
           {| ex_enabled := enabled m; ex_body := body1; ex_writer := w1;
              ex_store := h; ex_got := [];
              ex_trace := evs_filter ++ evs_req ++ [EvServeHTTP wrappedBody wrappedWriter] |};
    (* if m.dumpResponse != nil { cw.EnsureFilterPassed(); ... } *)
    '(w2, evs_resp) ←
      match ex_writer ex with
      | Direct l => Some (Direct l, [])
      | Wrapped cw =>
          '(cw', evs) ← EnsureFilterPassed cw (ex_store ex);
          if cw_dumpResponse cw' then
            headers ← cachedWriter_Header cw' (ex_store ex);
            Some (Wrapped cw',
                  evs ++ [EvDumpResponse r (Status cw') headers
                            (PrefixW (cw_PrefixWriter cw'))])
          else Some (Wrapped cw', evs)
      end;
    (* deferred: m.writerPool.Put(cw), then m.readerPool.Put(cr) *)
    let writers' := match w2 with Wrapped cw => cw :: writers | Direct _ => writers end in
    let readers' :=
      match ex_body ex with PrefixBody cr => cr :: readers | RawBody _ => readers end in
    Some {| out_m := set_pools (SetEnabled m (ex_enabled ex)) writers' readers';
            out_store := ex_store ex; out_got := ex_got ex;
            out_trace := ex_trace ex ++ evs_resp |}.

(** [func (m *Middleware) Wrap(h http.Handler) http.Handler]: the handler
    returned calls [m.Handle(h, w, r)]. *)
Definition Wrap (m : Middleware) (next : list HandlerOp) (w : loc) (r : Request)
    (body : Reader) (h : gmap loc ResponseWriter) : option Outcome :=
  Handle m next w r body h.

(** An exchange handed to the wrapped handler by the server: what the
    application's handler does on it, the response writer and its store,
    the request and its body. *)
Record Incoming : Type := mkIncoming {
  in_next : list HandlerOp;
  in_w : loc;
  in_r : Request;
  in_body : Reader;
  in_store : gmap loc ResponseWriter
}.

(** The wrapped handler serving one exchange after the other: the
    middleware (its switch and its pools) is shared by all of them. *)
Fixpoint serveAll (m : Middleware) (xs : list Incoming)
  : option (Middleware * list Outcome) :=
  match xs with
  | [] => Some (m, [])
  | x :: rest =>
      out ← Wrap m (in_next x) (in_w x) (in_r x) (in_body x) (in_store x);
      '(m', outs) ← serveAll (out_m out) rest;
      Some (m', out :: outs)
  end.

(** *** Vocabulary of the properties *)

Definition setsLimit (e : OptionExpr) : bool :=
  match e with EWithLimitedBody _ => true | _ => false end.

Definition isWrite (op : HandlerOp) : bool :=
  match op with HWrite _ => true | _ => false end.

Definition isToggle (op : HandlerOp) : bool :=
  match op with HSetEnabled _ => true | _ => false end.

Definition isResponseChain (ev : Event) : bool :=
  match ev with EvResponseChain _ _ => true | _ => false end.

Definition isFilterEvent (ev : Event) : bool :=
  match ev with
  | EvRequestChain | EvRequestFilter _ | EvResponseChain _ _ | EvResponseFilter _ => true
  | _ => false
  end.

Definition isCallback (ev : Event) : bool :=
  match ev with
  | EvDumpRequest _ _ | EvDumpResponse _ _ _ _ => true
  | _ => false
  end.

Definition isResponseSide (ev : Event) : bool :=
  match ev with
  | EvResponseChain _ _ | EvResponseFilter _ | EvDumpResponse _ _ _ _ => true
  | _ => false
  end.

Definition isReadFrom (op : HandlerOp) : bool :=
  match op with HReadFrom _ => true | _ => false end.

(** The bytes a handler passes to [w.Write], in order. *)
Fixpoint bodyWritten (ops : list HandlerOp) : list byte :=
  match ops with
  | [] => []
  | HWrite data :: rest => data ++ bodyWritten rest
  | _ :: rest => bodyWritten rest
  end.

(** The calls a handler makes before its first [w.Write]. *)
Fixpoint beforeFirstWrite (ops : list HandlerOp) : list HandlerOp :=
  match ops with
  | [] => []
  | op :: rest => if isWrite op then [] else op :: beforeFirstWrite rest
  end.

(** The first non-zero status passed to [w.WriteHeader] by [ops], [0] if
    there is none. *)
Fixpoint statusSet (ops : list HandlerOp) : Z :=
  match ops with
  | [] => 0
  | HWriteHeader sc :: rest => if (sc =? 0)%Z then statusSet rest else sc
  | _ :: rest => statusSet rest
  end.

(** The header map after the [w.Header().Set] calls of [ops]. *)
Fixpoint headersAfter (ops : list HandlerOp) (headers : gmap string (list string))
  : gmap string (list string) :=
  match ops with
  | [] => headers
  | HHeaderSet key value :: rest => headersAfter rest (Header_Set headers key value)
  | _ :: rest => headersAfter rest headers
  end.

(** The handler without its calls of [m.SetEnabled], and the value of the
    switch after them. *)
Definition stripToggles (ops : list HandlerOp) : list HandlerOp :=
  List.filter (λ op, negb (isToggle op)) ops.

Fixpoint lastToggle (ops : list HandlerOp) (v : bool) : bool :=
  match ops with
  | [] => v
  | HSetEnabled v' :: rest => lastToggle rest v'
  | _ :: rest => lastToggle rest v
  end.

Definition ex_setEnabled (v : bool) (ex : Exchange) : Exchange :=
  {| ex_enabled := v; ex_body := ex_body ex; ex_writer := ex_writer ex;
     ex_store := ex_store ex; ex_got := ex_got ex; ex_trace := ex_trace ex |}.

Definition out_setEnabled (v : bool) (out : Outcome) : Outcome :=
  {| out_m := SetEnabled (out_m out) v; out_store := out_store out;
     out_got := out_got out; out_trace := out_trace out |}.

Definition isBodyWriteTo (op : HandlerOp) : bool :=
  match op with HBodyWriteTo _ => true | _ => false end.

Definition isBodyCall (op : HandlerOp) : bool :=
  match op with HBodyRead _ | HBodyWriteTo _ => true | _ => false end.

(** What a request body has still to deliver. *)
Definition bodyPending (b : Body) : list byte :=
  match b with RawBody src => rd_data src | PrefixBody cr => pending cr end.

(** The capacity of the cache of a substituted body and of a substituted
    writer. *)
Definition bodyCapacity (b : Body) : option nat :=
  match b with RawBody _ => None | PrefixBody cr => Some (length (pr_cache cr)) end.

Definition writerCapacity (w : WriterH) : option nat :=
  match w with
  | Direct _ => None
  | Wrapped cw => Some (length (pw_cache (cw_PrefixWriter cw)))
  end.

(** A call of a callback whose body (if it is given one) has at most
    [limit] bytes; every other event. *)
Definition withinLimit (limit : nat) (ev : Event) : bool :=
  match ev with
  | EvDumpRequest _ (Some body) => length body <=? limit
  | EvDumpResponse _ _ _ body => length body <=? limit
  | _ => true
  end.

(** The pooled instances have the capacity the body limit asks for. *)
Definition pooledCapacity (m : Middleware) : Prop :=
  Forall (λ cr, length (pr_cache cr) = Z.to_nat (dumpedBodySize m)) (readerPool m) ∧
  Forall (λ cw, length (pw_cache (cw_PrefixWriter cw)) = Z.to_nat (dumpedBodySize m))
         (writerPool m).

(** Two readers, two bodies, two capture buffers, two writers, two
    exchanges that differ at most in the bytes their caches hold beyond
    the captured part (what an earlier use left there). *)
Definition sameReader (cr1 cr2 : PrefixReader) : Prop :=
  pr_r cr1 = pr_r cr2 ∧ pr_read cr1 = pr_read cr2 ∧ pr_cached cr1 = pr_cached cr2 ∧
  pr_err cr1 = pr_err cr2 ∧ length (pr_cache cr1) = length (pr_cache cr2) ∧
  Prefix cr1 = Prefix cr2.

Definition sameBody (b1 b2 : Body) : Prop :=
  match b1, b2 with
  | RawBody src1, RawBody src2 => src1 = src2
  | PrefixBody cr1, PrefixBody cr2 => sameReader cr1 cr2
  | _, _ => False
  end.

Definition sameCapture (pw1 pw2 : PrefixWriter) : Prop :=
  pw_w pw1 = pw_w pw2 ∧ pw_cached pw1 = pw_cached pw2 ∧
  length (pw_cache pw1) = length (pw_cache pw2) ∧ PrefixW pw1 = PrefixW pw2.

Definition sameWriter (w1 w2 : WriterH) : Prop :=
  match w1, w2 with
  | Direct l1, Direct l2 => l1 = l2
  | Wrapped cw1, Wrapped cw2 =>
      sameCapture (cw_PrefixWriter cw1) (cw_PrefixWriter cw2) ∧
      with_PrefixWriter cw1 (cw_PrefixWriter cw2) = cw2
  | _, _ => False
  end.

Definition sameExchange (ex1 ex2 : Exchange) : Prop :=
  ex_enabled ex1 = ex_enabled ex2 ∧ ex_store ex1 = ex_store ex2 ∧
  ex_got ex1 = ex_got ex2 ∧ ex_trace ex1 = ex_trace ex2 ∧
  sameBody (ex_body ex1) (ex_body ex2) ∧ sameWriter (ex_writer ex1) (ex_writer ex2).

(** The state of an exchange while its handler runs inside [Handle]: the
    response writer [w] is in the store, a substituted body is an
    initialised reader, and a substituted writer is bound to [w] and [r]
    and has captured no more than its cache holds. *)
Definition serving (w : loc) (r : Request) (ex : Exchange) : Prop :=
  is_Some (ex_store ex !! w) ∧
  match ex_body ex with
  | RawBody _ => True
  | PrefixBody cr => initialised cr
  end ∧
  match ex_writer ex with
  | Direct l => l = w
  | Wrapped cw =>
      cw_w cw = Some w ∧ pw_w (cw_PrefixWriter cw) = Some w ∧
      cw_request cw = Some r ∧
      pw_cached (cw_PrefixWriter cw) ≤ length (pw_cache (cw_PrefixWriter cw))
  end.

End httpdump.

(** * Properties *)

(** ** Buffers *)
Section Buffers.
Context {A : Type}.
Implicit Types (dst src s : list A).

Lemma length_copy_at dst off src :
  length (copy_at dst off src) = length dst.
Proof.
  unfold copy_at. rewrite !length_app, !length_take, length_drop. lia.
Qed.

Lemma take_copy_at dst off src :
  off ≤ length dst → take off (copy_at dst off src) = take off dst.
Proof.
  intros Hoff. unfold copy_at.
  rewrite take_app_le by (rewrite length_take; lia).
  rewrite take_take. f_equal. lia.
Qed.

Lemma copy_at_fits dst off src :
  off + length src ≤ length dst →
  copy_at dst off src = take off dst ++ src ++ drop (off + length src) dst.
Proof.
  intros H. unfold copy_at. rewrite (take_ge src) by lia. done.
Qed.

Lemma take_copy_at_end dst off src :
  off + length src ≤ length dst →
  take (off + length src) (copy_at dst off src) = take off dst ++ src.
Proof.
  intros H. rewrite copy_at_fits by done.
  rewrite app_assoc. rewrite take_app_le by (rewrite length_app, length_take; lia).
  rewrite take_ge by (rewrite length_app, length_take; lia). done.
Qed.

Lemma drop_copy_at dst off src m :
  off + length src ≤ length dst → off + length src ≤ m →
  drop m (copy_at dst off src) = drop m dst.
Proof.
  intros H Hm. rewrite copy_at_fits by done.
  rewrite app_assoc. rewrite drop_app_ge by (rewrite length_app, length_take; lia).
  rewrite length_app, length_take, drop_drop. f_equal. lia.
Qed.

Lemma slice_all s : slice s 0 (length s) = s.
Proof. unfold slice. rewrite drop_0, Nat.sub_0_r. apply firstn_all. Qed.

Lemma length_slice s lo hi :
  hi ≤ length s → length (slice s lo hi) = hi - lo.
Proof. intros H. unfold slice. rewrite length_take, length_drop. lia. Qed.

Lemma slice_empty s lo hi : hi ≤ lo → slice s lo hi = [].
Proof. intros H. unfold slice. replace (hi - lo) with 0 by lia. done. Qed.

Lemma slice_split s lo mid hi :
  lo ≤ mid → mid ≤ hi → slice s lo hi = slice s lo mid ++ slice s mid hi.
Proof.
  intros H1 H2. unfold slice.
  replace (hi - lo) with ((mid - lo) + (hi - mid)) by lia.
  rewrite <- take_take_drop, drop_drop. do 3 f_equal. lia.
Qed.

Lemma take_slice s lo hi k :
  take k (slice s lo hi) = slice s lo (lo + k `min` (hi - lo)).
Proof.
  unfold slice. rewrite take_take. f_equal. lia.
Qed.
End Buffers.

(** ** The scripted reader and [io.ReadAtLeast] *)
Module stdio_facts.
Import stdio.

(** One read delivers a prefix of the data, at most [k] bytes long, and
    reports an error only when nothing is left. *)
Lemma Reader_Read_spec r k bs e r' :
  Reader_Read r k = (bs, e, r') →
  ∃ c, c ≤ k ∧ c ≤ length (rd_data r) ∧ length bs = c ∧
       bs = take c (rd_data r) ∧ rd_data r' = drop c (rd_data r) ∧
       rd_fin r' = rd_fin r ∧ rd_eager r' = rd_eager r ∧
       (e = None ∨ (e = Some (rd_fin r) ∧ rd_data r' = [])).
Proof.
  unfold Reader_Read. intros H.
  destruct (rd_data r) as [|b d] eqn:Hd.
  - inversion H; subst. exists 0. rewrite Hd. simpl. repeat split; auto with lia.
  - set (cap := match rd_sched r with [] => k | c :: _ => c `min` k end) in *.
    assert (cap ≤ k) by (subst cap; destruct (rd_sched r); lia).
    inversion H; subst; clear H. cbn [rd_data rd_fin rd_eager].
    remember (b :: d) as d0 eqn:Hd0. clear Hd0.
    exists (cap `min` length d0).
    rewrite length_take. repeat split; try lia.
    + destruct (decide (cap ≤ length d0)).
      * f_equal. lia.
      * rewrite !take_ge by lia. done.
    + destruct (decide (cap ≤ length d0)).
      * f_equal. lia.
      * rewrite !drop_ge by lia. done.
    + destruct (drop cap d0); [|by left].
      destruct (rd_eager r); [by right | by left].
Qed.

Lemma Reader_Read_need r k bs e r' :
  Reader_Read r k = (bs, e, r') → 0 < k →
  (e ≠ None) ∨ (length bs = k) ∨ (need r' < need r).
Proof.
  unfold Reader_Read, need. intros H Hk.
  destruct (rd_data r) as [|b d] eqn:Hd.
  - inversion H; subst. by left.
  - inversion H; subst; clear H. simpl.
    destruct (rd_sched r) as [|c s] eqn:Hs; simpl.
    + destruct (decide (k ≤ length (b :: d))).
      * right; left. rewrite length_take. lia.
      * right; right. rewrite drop_ge by lia. lia.
    + right; right. destruct (drop (c `min` k) (b :: d)); lia.
Qed.

Lemma ReadAtLeast_loop_spec fuel : ∀ r buf min n err n' err' buf' r',
  n ≤ length buf → min ≤ length buf →
  (err = None ∨ (err = Some (rd_fin r) ∧ rd_data r = [])) →
  ReadAtLeast_loop fuel r buf min n err = (n', err', buf', r') →
  ∃ c, n' = n + c ∧ c ≤ length (rd_data r) ∧ n' ≤ length buf ∧
       buf' = take n buf ++ take c (rd_data r) ++ drop n' buf ∧
       rd_data r' = drop c (rd_data r) ∧
       rd_fin r' = rd_fin r ∧ rd_eager r' = rd_eager r ∧
       (err' = None ∨ (err' = Some (rd_fin r) ∧ rd_data r' = [])) ∧
       (need r ≤ fuel ∨ err ≠ None ∨ min ≤ n → min ≤ n' ∨ err' ≠ None).
Proof.
  assert (Hstop : ∀ (r : Reader) (buf : list byte) (min n : nat) (err : option error),
    n ≤ length buf →
    (err = None ∨ (err = Some (rd_fin r) ∧ rd_data r = [])) →
    ∃ c, n = n + c ∧ c ≤ length (rd_data r) ∧ n ≤ length buf ∧
       buf = take n buf ++ take c (rd_data r) ++ drop n buf ∧
       rd_data r = drop c (rd_data r) ∧
       rd_fin r = rd_fin r ∧ rd_eager r = rd_eager r ∧
       (err = None ∨ (err = Some (rd_fin r) ∧ rd_data r = []))).
  { intros r buf min n err Hn Herr. exists 0.
    rewrite take_0, drop_0. simpl. rewrite take_drop.
    repeat split; auto with lia. }
  induction fuel as [|fuel IH]; intros r buf min n err n' err' buf' r' Hn Hmin Herr H.
  - simpl in H.
    assert (Hexit : (n', err', buf', r') = (n, err, buf, r)).
    { destruct ((n <? min) && bool_decide (err = None)); congruence. }
    inversion Hexit; subst.
    destruct (Hstop r buf min n err Hn Herr) as (c & Hs). exists c.
    repeat split; try apply Hs.
    intros [Hneed|[Hneed|Hneed]]; [|by right|by left].
    unfold need in Hneed. destruct (rd_data r); lia.
  - simpl in H.
    destruct ((n <? min) && bool_decide (err = None)) eqn:Hc.
    + apply andb_prop in Hc as [Hlt Hnone].
      apply Nat.ltb_lt in Hlt. apply bool_decide_eq_true in Hnone. subst err.
      destruct (Reader_Read r (length buf - n)) as [[bs e] r1] eqn:Hread.
      pose proof (Reader_Read_need _ _ _ _ _ Hread ltac:(lia)) as Hprog.
      apply Reader_Read_spec in Hread
        as (c & Hck & Hcd & Hlen & Hbs & Hd1 & Hfin & Heager & He).
      apply IH in H as (c' & -> & Hc' & Hn' & Hbuf' & Hd' & Hfin' & Heager' & He' & Hexit).
      * exists (c + c'). rewrite length_copy_at in Hn'.
        rewrite Hd1, length_drop in Hc'. rewrite Hd1, drop_drop in Hd'.
        rewrite Hfin in *.
        repeat split; try lia; try congruence.
        -- rewrite Hbuf'.
           rewrite take_copy_at_end, drop_copy_at by lia.
           rewrite <- app_assoc. f_equal. rewrite app_assoc. f_equal.
           rewrite Hbs, Hd1. apply take_take_drop.
        -- intros Hneed. apply Hexit.
           destruct Hprog as [Hp|[Hp|Hp]].
           ++ right; left. done.
           ++ right; right. lia.
           ++ destruct Hneed as [Hneed|[Hneed|Hneed]]; [left; lia|done|lia].
      * rewrite length_copy_at. lia.
      * rewrite length_copy_at. lia.
      * rewrite Hfin. exact He.
    + inversion H; subst.
      destruct (Hstop r' buf' min n' err' Hn Herr) as (c & Hs). exists c.
      repeat split; try apply Hs.
      intros _. apply andb_false_iff in Hc as [Hc|Hc].
      * left. apply Nat.ltb_ge in Hc. lia.
      * right. apply bool_decide_eq_false in Hc. done.
Qed.

(** [io.ReadAtLeast] asked to fill the whole buffer, as the repository
    always calls it: it stores the first [min (len buf) L] bytes of the
    source, and fails exactly when the source is shorter than the buffer. *)
Lemma ReadAtLeast_full r buf n err buf' r' :
  ReadAtLeast r buf (length buf) = (n, err, buf', r') →
  n = length buf `min` length (rd_data r) ∧
  buf' = take n (rd_data r) ++ drop n buf ∧
  rd_data r' = drop n (rd_data r) ∧
  rd_fin r' = rd_fin r ∧ rd_eager r' = rd_eager r ∧
  err = (if decide (length buf ≤ length (rd_data r)) then None
         else if (0 <? n) && bool_decide (rd_fin r = EOF)
              then Some ErrUnexpectedEOF else Some (rd_fin r)).
Proof.
  unfold ReadAtLeast. rewrite Nat.ltb_irrefl.
  destruct (ReadAtLeast_loop _ _ _ _ _ _) as [[[n0 e0] b0] r0] eqn:Hloop.
  intros H. inversion H; subst; clear H.
  apply ReadAtLeast_loop_spec in Hloop
    as (c & -> & Hc & Hn & Hbuf & Hd & Hfin & Heager & He & Hexit);
    [|lia|lia|by left].
  simpl in *.
  assert (Hstop : length buf ≤ c ∨ e0 ≠ None).
  { apply Hexit. left. unfold need, ReadAtLeast_fuel. destruct (rd_data r); lia. }
  assert (Hcases : (c = length buf ∧ length buf ≤ length (rd_data r)) ∨
                   (c = length (rd_data r) ∧ c < length buf ∧ e0 = Some (rd_fin r))).
  { destruct (decide (length buf ≤ c)); [left; lia|]. right.
    destruct Hstop as [?|Hne]; [lia|].
    destruct He as [->|[-> Hnil]]; [done|].
    rewrite Hd in Hnil. apply (f_equal length) in Hnil.
    rewrite length_drop in Hnil. simpl in Hnil. repeat split; lia. }
  repeat split; try done; try lia.
  destruct Hcases as [[-> Hle]|(-> & Hlt & ->)].
  - rewrite decide_True by lia. rewrite (proj2 (Nat.leb_le _ _)) by lia. done.
  - rewrite decide_False by lia. rewrite (proj2 (Nat.leb_gt _ _)) by lia.
    destruct (0 <? length (rd_data r)); simpl; [|done].
    destruct (decide (rd_fin r = EOF)) as [->|Hne].
    + rewrite !bool_decide_eq_true_2 by done. done.
    + rewrite !bool_decide_eq_false_2 by congruence. done.
Qed.

Lemma copyBufSize_pos : 0 < copyBufSize.
Proof. unfold copyBufSize. lia. Qed.

(** On an unlimited sink [io.Copy] moves everything the source still
    holds, and passes on the source's terminal condition unless it is
    [EOF]. *)
Lemma copyBuffer_loop_unlimited size fuel : ∀ dst src written,
  0 < size → sk_room dst = None →
  length (rd_sched src) + length (rd_data src) < fuel →
  ∃ src',
    copyBuffer_loop fuel size dst src written =
      (written + length (rd_data src),
       (if bool_decide (rd_fin src = EOF) then None else Some (rd_fin src)),
       {| sk_out := sk_out dst ++ rd_data src; sk_room := None;
          sk_err := sk_err dst |}, src') ∧
    rd_data src' = [] ∧ rd_fin src' = rd_fin src.
Proof.
  induction fuel as [|fuel IH]; intros dst src written Hsize Hroom Hfuel; [lia|].
  simpl.
  destruct (Reader_Read src size) as [[bs er] src1] eqn:Hread.
  pose proof Hread as Hspec.
  apply Reader_Read_spec in Hspec
    as (c & Hck & Hcd & Hlen & Hbs & Hd1 & Hfin & Heager & He).
  assert (Hsched : length (rd_sched src1) + length (rd_data src1)
                   < length (rd_sched src) + length (rd_data src)
                   ∨ er ≠ None).
  { unfold Reader_Read in Hread. destruct (rd_data src) as [|b d] eqn:Hd.
    - inversion Hread; subst. by right.
    - inversion Hread; subst; clear Hread. simpl.
      destruct (rd_sched src) as [|c0 s]; simpl.
      + left. rewrite length_drop. cbn [length] in *. lia.
      + left. rewrite length_drop. simpl. lia. }
  assert (Hdst : ∀ d, Sink_Write dst d =
            (length d, None, {| sk_out := sk_out dst ++ d; sk_room := None;
                                sk_err := sk_err dst |})).
  { intros d. unfold Sink_Write. rewrite Hroom. done. }
  assert (Hafter : ∀ dst1 w1,
    sk_room dst1 = None → sk_out dst1 = sk_out dst ++ bs → sk_err dst1 = sk_err dst →
    w1 = written + length bs →
    ∃ src',
      match er with
      | Some e => (w1, (if bool_decide (e = EOF) then None else Some e), dst1, src1)
      | None => copyBuffer_loop fuel size dst1 src1 w1
      end =
      (written + length (rd_data src),
       (if bool_decide (rd_fin src = EOF) then None else Some (rd_fin src)),
       {| sk_out := sk_out dst ++ rd_data src; sk_room := None;
          sk_err := sk_err dst |}, src') ∧
      rd_data src' = [] ∧ rd_fin src' = rd_fin src).
  { intros dst1 w1 Hr1 Ho1 He1 ->.
    destruct He as [->|[-> Hnil]].
    - destruct Hsched as [Hlt|?]; [|done].
      destruct (IH dst1 src1 (written + length bs) Hsize Hr1 ltac:(lia))
        as (src' & Heq & Hnil' & Hfin').
      exists src'. rewrite Heq, Hfin, Ho1, He1, Hd1, Hlen, length_drop.
      repeat split; try congruence.
      replace (written + c + (length (rd_data src) - c))
        with (written + length (rd_data src)) by lia.
      rewrite <- app_assoc, Hbs, take_drop. done.
    - exists src1. repeat split; try done.
      rewrite Hd1 in Hnil. assert (length (rd_data src) ≤ c).
      { apply (f_equal length) in Hnil. rewrite length_drop in Hnil.
        simpl in Hnil. lia. }
      assert (Hall : bs = rd_data src).
      { rewrite Hbs. apply take_ge. lia. }
      destruct dst1; simpl in *; subst. done. }
  destruct (0 <? length bs) eqn:Hpos.
  - rewrite Hdst. rewrite bool_decide_eq_true_2 by done.
    apply Hafter; simpl; done.
  - apply Nat.ltb_ge in Hpos. apply Hafter; try done; try lia.
    destruct bs; [by rewrite app_nil_r | simpl in Hpos; lia].
Qed.

Lemma Copy_unlimited dst src :
  sk_room dst = None →
  ∃ src',
    Copy dst src =
      (length (rd_data src),
       (if bool_decide (rd_fin src = EOF) then None else Some (rd_fin src)),
       {| sk_out := sk_out dst ++ rd_data src; sk_room := None;
          sk_err := sk_err dst |}, src') ∧
    rd_data src' = [] ∧ rd_fin src' = rd_fin src.
Proof.
  intros Hroom. unfold Copy.
  apply (copyBuffer_loop_unlimited _ _ dst src 0 copyBufSize_pos Hroom).
  unfold Copy_fuel. lia.
Qed.

(** What [io.ReadAtLeast] returns and leaves of the source depends on the
    length of the buffer only, not on what the buffer held. *)
Lemma ReadAtLeast_loop_buf fuel : ∀ r buf1 buf2 min n err,
  length buf1 = length buf2 →
  (ReadAtLeast_loop fuel r buf1 min n err).1.1.1
  = (ReadAtLeast_loop fuel r buf2 min n err).1.1.1 ∧
  (ReadAtLeast_loop fuel r buf1 min n err).1.1.2
  = (ReadAtLeast_loop fuel r buf2 min n err).1.1.2 ∧
  (ReadAtLeast_loop fuel r buf1 min n err).2
  = (ReadAtLeast_loop fuel r buf2 min n err).2.
Proof.
  induction fuel as [|fuel IH]; intros r buf1 buf2 min n err Hlen;
    cbn [ReadAtLeast_loop].
  - destruct ((n <? min) && bool_decide (err = None)); done.
  - destruct ((n <? min) && bool_decide (err = None)); [|done].
    rewrite Hlen.
    destruct (Reader_Read r (length buf2 - n)) as [[bs e] r1].
    apply IH. by rewrite !length_copy_at.
Qed.

Lemma ReadAtLeast_buf r buf1 buf2 min :
  length buf1 = length buf2 →
  (ReadAtLeast r buf1 min).1.1.1 = (ReadAtLeast r buf2 min).1.1.1 ∧
  (ReadAtLeast r buf1 min).1.1.2 = (ReadAtLeast r buf2 min).1.1.2 ∧
  (ReadAtLeast r buf1 min).2 = (ReadAtLeast r buf2 min).2.
Proof.
  intros Hlen. unfold ReadAtLeast. rewrite Hlen.
  destruct (length buf2 <? min); [done|].
  pose proof (ReadAtLeast_loop_buf (ReadAtLeast_fuel r) r buf1 buf2 min 0 None Hlen)
    as (Hn & He & Hr).
  destruct (ReadAtLeast_loop _ r buf1 _ _ _) as [[[n1 e1] b1] r1].
  destruct (ReadAtLeast_loop _ r buf2 _ _ _) as [[[n2 e2] b2] r2].
  cbn in *. subst. done.
Qed.

(** A source with nothing left is not changed by [io.Copy]. *)
Lemma Copy_exhausted dst src :
  rd_data src = [] →
  Copy dst src =
    (0, (if bool_decide (rd_fin src = EOF) then None else Some (rd_fin src)),
     dst, src).
Proof.
  intros Hd. unfold Copy, Copy_fuel. cbn [copyBuffer_loop].
  unfold Reader_Read. rewrite Hd. done.
Qed.

(** [io.Copy] only ever consumes the source from its front. *)
Lemma copyBuffer_loop_source size fuel : ∀ dst src written,
  ∃ c, rd_data (copyBuffer_loop fuel size dst src written).2
       = drop c (rd_data src).
Proof.
  induction fuel as [|fuel IH]; intros dst src written.
  - exists 0. done.
  - cbn [copyBuffer_loop].
    destruct (Reader_Read src size) as [[bs er] src1] eqn:Hread.
    apply Reader_Read_spec in Hread as (c & _ & _ & _ & _ & Hd1 & _).
    assert (Hafter : ∀ dst1 w1, ∃ c',
      rd_data (match er with
               | Some e => (w1, (if bool_decide (e = EOF) then None else Some e),
                            dst1, src1)
               | None => copyBuffer_loop fuel size dst1 src1 w1
               end).2 = drop c' (rd_data src)).
    { intros dst1 w1. destruct er.
      - exists c. done.
      - destruct (IH dst1 src1 w1) as [c' Hc']. exists (c + c').
        rewrite Hc', Hd1, drop_drop. done. }
    destruct (0 <? length bs); [|apply Hafter].
    destruct (Sink_Write dst bs) as [[nw ew] dst'].
    destruct ew; [by exists c|].
    destruct (bool_decide (length bs = nw)); [apply Hafter | by exists c].
Qed.

(** *** Sinks *)

(** A write that fits is accepted whole. *)
Lemma Sink_Write_ok dst data :
  (Sink_Write dst data).1.2 = None → (Sink_Write dst data).1.1 = length data.
Proof.
  unfold Sink_Write. destruct (sk_room dst) as [m|]; [|done].
  by destruct (length data <=? m).
Qed.

Lemma Sink_Write_nil dst : (Sink_Write dst []).2 = dst.
Proof.
  unfold Sink_Write. destruct dst as [out [m|] e]; cbn.
  - by rewrite app_nil_r, Nat.sub_0_r.
  - by rewrite app_nil_r.
Qed.

(** Two writes, the first of them accepted, leave the sink as one write of
    the concatenation does. *)
Lemma Sink_Write_app dst a b :
  (Sink_Write dst a).1.2 = None →
  (Sink_Write (Sink_Write dst a).2 b).2 = (Sink_Write dst (a ++ b)).2.
Proof.
  unfold Sink_Write. destruct (sk_room dst) as [m|] eqn:Hroom; cbn.
  - destruct (Nat.leb_spec (length a) m) as [Ha|Ha]; cbn; [intros _|done].
    rewrite length_app.
    destruct (Nat.leb_spec (length b) (m - length a)) as [Hb|Hb];
      destruct (Nat.leb_spec (length a + length b) m) as [Hab|Hab]; try lia; cbn.
    + rewrite app_assoc. do 2 f_equal. lia.
    + rewrite take_app_ge by lia. by rewrite app_assoc.
  - intros _. by rewrite app_assoc.
Qed.

(** After a write that failed, nothing more goes in. *)
Lemma Sink_Write_failed dst a b :
  (Sink_Write dst a).1.2 ≠ None →
  (Sink_Write dst (a ++ b)).2 = (Sink_Write dst a).2.
Proof.
  unfold Sink_Write. destruct (sk_room dst) as [m|] eqn:Hroom; cbn; [|done].
  rewrite length_app.
  destruct (Nat.leb_spec (length a) m) as [Ha|Ha]; cbn; [done|intros _].
  destruct (Nat.leb_spec (length a + length b) m) as [Hab|Hab]; [lia|]. cbn.
  by rewrite take_app_le by lia.
Qed.

(** [io.Copy] leaves the sink as one write of all the source holds would:
    the chunks the source delivers, and where the sink starts to fail among
    them, make no difference to what the sink ends up with. *)
Lemma copyBuffer_loop_sink size fuel : ∀ dst src written,
  0 < size →
  length (rd_sched src) + length (rd_data src) < fuel →
  (copyBuffer_loop fuel size dst src written).1.2 = (Sink_Write dst (rd_data src)).2.
Proof.
  induction fuel as [|fuel IH]; intros dst src written Hsize Hfuel; [lia|].
  cbn [copyBuffer_loop].
  destruct (Reader_Read src size) as [[bs er] src1] eqn:Hread.
  pose proof Hread as Hspec.
  apply Reader_Read_spec in Hspec
    as (c & Hck & Hcd & Hlen & Hbs & Hd1 & Hfin & Heager & He).
  assert (Hsched : length (rd_sched src1) + length (rd_data src1)
                   < length (rd_sched src) + length (rd_data src)
                   ∨ er ≠ None).
  { unfold Reader_Read in Hread. destruct (rd_data src) as [|b d] eqn:Hd.
    - inversion Hread; subst. by right.
    - inversion Hread; subst; clear Hread. simpl.
      destruct (rd_sched src) as [|c0 s]; simpl.
      + left. rewrite length_drop. cbn [length] in *. lia.
      + left. rewrite length_drop. simpl. lia. }
  assert (Hdata : rd_data src = bs ++ rd_data src1).
  { by rewrite Hbs, Hd1, take_drop. }
  assert (Hafter : ∀ dst1 w1,
    (Sink_Write dst1 (rd_data src1)).2 = (Sink_Write dst (rd_data src)).2 →
    (match er with
     | Some e => (w1, (if bool_decide (e = EOF) then None else Some e), dst1, src1)
     | None => copyBuffer_loop fuel size dst1 src1 w1
     end).1.2 = (Sink_Write dst (rd_data src)).2).
  { intros dst1 w1 Hd. destruct He as [->|[-> Hnil]].
    - destruct Hsched as [Hlt|?]; [|done].
      rewrite (IH dst1 src1 w1 Hsize) by lia. done.
    - cbn. rewrite Hnil, Sink_Write_nil in Hd. done. }
  destruct (0 <? length bs) eqn:Hpos.
  - destruct (Sink_Write dst bs) as [[nw ew] dst'] eqn:Hw.
    destruct ew as [e|].
    + cbn. rewrite Hdata, Sink_Write_failed; by rewrite Hw.
    + pose proof (Sink_Write_ok dst bs) as Hn. rewrite Hw in Hn.
      cbn in Hn. rewrite Hn by done.
      rewrite bool_decide_eq_true_2 by done.
      apply Hafter. rewrite Hdata.
      rewrite <- Sink_Write_app; by rewrite Hw.
  - apply Nat.ltb_ge in Hpos. destruct bs; [|cbn in Hpos; lia].
    apply Hafter. by rewrite Hdata.
Qed.

Lemma Copy_sink dst src :
  (Copy dst src).1.2 = (Sink_Write dst (rd_data src)).2.
Proof.
  unfold Copy. apply copyBuffer_loop_sink; [apply copyBufSize_pos|].
  unfold Copy_fuel. lia.
Qed.

End stdio_facts.

(** ** [PrefixReader] *)
Module io_facts.
Import stdio io stdio_facts.

Lemma Reset_spec cr src :
  let P := length (pr_cache cr) in
  let L := length (rd_data src) in
  let e := (Reset cr src).1 in
  let cr' := (Reset cr src).2 in
  pr_cached cr' = P `min` L ∧ pr_read cr' = 0 ∧ pr_err cr' = e ∧
  length (pr_cache cr') = P ∧
  Prefix cr' = take P (rd_data src) ∧
  pending cr' = rd_data src ∧
  initialised cr' ∧
  e = (if decide (P ≤ L) then None
       else Some (if bool_decide (rd_fin src = ErrUnexpectedEOF) then EOF
                  else rd_fin src)) ∧
  ∃ src', pr_r cr' = Some src' ∧ rd_fin src' = rd_fin src ∧
          rd_data src' = drop (P `min` L) (rd_data src).
Proof.
  intros P L. unfold Reset.
  destruct (ReadAtLeast src (pr_cache cr) (length (pr_cache cr)))
    as [[[n err] cache'] r'] eqn:Hfill.
  apply ReadAtLeast_full in Hfill as (Hn & Hcache & Hd & Hfin & _ & Herr).
  fold P L in Hn, Herr. cbn [fst snd pr_cached pr_read pr_err pr_cache pr_r].
  assert (Hlen : length cache' = P).
  { rewrite Hcache, length_app, length_take, length_drop. lia. }
  assert (Hpre : take n cache' = take n (rd_data src)).
  { rewrite Hcache, take_app_le by (rewrite length_take; lia).
    rewrite take_take. f_equal. lia. }
  repeat split; try done; try (cbn; lia).
  - unfold Prefix. cbn [pr_cached pr_cache]. rewrite Hpre, Hn.
    destruct (decide (P ≤ L)).
    + f_equal. lia.
    + rewrite !take_ge by lia. done.
  - unfold pending, slice. cbn [pr_cached pr_cache pr_read pr_r].
    rewrite drop_0, Nat.sub_0_r, Hpre, Hd. apply take_drop.
  - cbn. rewrite Herr, Hd.
    destruct (decide (P ≤ L)); [by left|]. right.
    apply nil_length_inv. rewrite length_drop. lia.
  - rewrite Herr. destruct (decide (P ≤ L)); [done|].
    destruct (decide (rd_fin src = ErrUnexpectedEOF)) as [Hf|Hf].
    + rewrite Hf. rewrite andb_false_r. done.
    + rewrite (bool_decide_eq_false_2 (rd_fin src = ErrUnexpectedEOF)) by done.
      destruct (decide (rd_fin src = EOF)) as [Hf'|Hf'].
      * rewrite Hf'. destruct (0 <? n); done.
      * rewrite (bool_decide_eq_false_2 (rd_fin src = EOF)) by done.
        rewrite andb_false_r.
        rewrite bool_decide_eq_false_2 by congruence. done.
  - exists r'. rewrite Hn in Hd. done.
Qed.

(** One [Read] on an initialised reader: it does not panic, hands out the
    next bytes still to deliver, and leaves the captured prefix alone. *)
Lemma Read_spec cr k :
  initialised cr →
  ∃ bs e cr',
    Read cr k = Some (bs, e, cr') ∧ initialised cr' ∧
    bs ++ pending cr' = pending cr ∧ length bs ≤ k ∧
    pr_cache cr' = pr_cache cr ∧ pr_cached cr' = pr_cached cr ∧
    pr_err cr' = pr_err cr.
Proof.
  intros (Hrc & Hcl & Hsrc). unfold Read.
  destruct (pr_r cr) as [src|] eqn:Hr; [|done].
  set (l := pr_cached cr - pr_read cr).
  set (fc := if 0 <? l then take k (slice (pr_cache cr) (pr_read cr) (pr_cached cr))
             else []).
  assert (Hfc : fc = slice (pr_cache cr) (pr_read cr) (pr_read cr + length fc) ∧
                length fc = k `min` l).
  { subst fc. destruct (0 <? l) eqn:Hl.
    - rewrite take_slice. rewrite length_slice by lia. fold l.
      split; [f_equal|]; lia.
    - apply Nat.ltb_ge in Hl. cbn [length]. rewrite slice_empty by lia.
      split; [done | lia]. }
  destruct Hfc as [Hfc Hlen].
  assert (Hsplit : fc ++ slice (pr_cache cr) (pr_read cr + length fc) (pr_cached cr)
                   = slice (pr_cache cr) (pr_read cr) (pr_cached cr)).
  { rewrite Hfc at 1. symmetry. apply slice_split; lia. }
  destruct ((0 <? l) && bool_decide (length fc = k)) eqn:Hfull.
  - eexists _, _, _. split; [done|].
    unfold initialised, pending. cbn. rewrite ?Hr.
    repeat split; try done; try lia.
    rewrite app_assoc, Hsplit. done.
  - assert (Hdrained : pr_read cr + length fc = pr_cached cr ∨ k = length fc).
    { destruct (0 <? l) eqn:Hl.
      - apply Nat.ltb_lt in Hl. lia.
      - apply Nat.ltb_ge in Hl. lia. }
    assert (Hrest : slice (pr_cache cr) (pr_read cr + length fc) (pr_cached cr) = []).
    { destruct Hdrained as [Hd|Hd]; [apply slice_empty; lia|].
      apply andb_false_iff in Hfull as [Hl|Hne].
      - apply Nat.ltb_ge in Hl. apply slice_empty. lia.
      - apply bool_decide_eq_false in Hne. done. }
    destruct (pr_err cr) as [e|] eqn:He.
    + eexists _, _, _. split; [done|].
      unfold initialised, pending. cbn. rewrite ?Hr, ?He.
      repeat split; try done; try lia.
      rewrite app_assoc, Hsplit. done.
    + cbn. destruct (Reader_Read src (k - length fc)) as [[bs err] src'] eqn:Hread.
      apply Reader_Read_spec in Hread
        as (c & Hck & Hcd & Hlb & Hbs & Hd1 & Hfin & Heager & Herr).
      eexists _, _, _. split; [done|].
      unfold initialised, pending. cbn. rewrite ?Hr, ?He, ?Hrest.
      repeat split; try done; try lia; try (by left).
      * rewrite Hd1, <- Hsplit, Hrest, app_nil_r.
        rewrite <- !app_assoc. f_equal. cbn. rewrite Hbs. apply take_drop.
      * rewrite length_app. lia.
Qed.

(** [WriteTo] on an initialised reader does not panic and changes nothing
    of the reader but the source. *)
Lemma WriteTo_spec cr w :
  initialised cr →
  ∃ n e cr' w',
    WriteTo cr w = Some (n, e, cr', w') ∧ initialised cr' ∧
    pr_cache cr' = pr_cache cr ∧ pr_cached cr' = pr_cached cr ∧
    pr_read cr' = pr_read cr ∧ pr_err cr' = pr_err cr.
Proof.
  intros Hinit. pose proof Hinit as (Hrc & Hcl & Hsrc). unfold WriteTo.
  destruct (pr_r cr) as [src|] eqn:Hr; [|done].
  destruct (if 0 <? pr_cached cr - pr_read cr
            then Sink_Write w (slice (pr_cache cr) (pr_read cr) (pr_cached cr))
            else (0, None, w)) as [[n werr] w1].
  destruct werr as [e|].
  - eexists _, _, _, _. split; [done|]. done.
  - cbn. destruct (Copy w1 src) as [[[a err] w2] src'] eqn:Hcopy.
    eexists _, _, _, _. split; [done|].
    unfold initialised. cbn. repeat split; try done.
    destruct Hsrc as [?|Hnil]; [by left|]. right.
    rewrite (Copy_exhausted _ _ Hnil) in Hcopy. congruence.
Qed.

(** Into a sink that accepts everything, [WriteTo] delivers exactly what
    was still to deliver. *)
Lemma WriteTo_unlimited cr w :
  initialised cr → sk_room w = None →
  ∃ n e cr' w',
    WriteTo cr w = Some (n, e, cr', w') ∧
    sk_out w' = sk_out w ++ pending cr ∧ n = length (pending cr).
Proof.
  intros (Hrc & Hcl & Hsrc) Hroom. unfold WriteTo, pending.
  destruct (pr_r cr) as [src|] eqn:Hr; [|done].
  destruct (0 <? pr_cached cr - pr_read cr) eqn:Hl.
  - unfold Sink_Write. rewrite Hroom. cbn.
    edestruct (Copy_unlimited
      {| sk_out := sk_out w ++ slice (pr_cache cr) (pr_read cr) (pr_cached cr);
         sk_room := None; sk_err := sk_err w |} src) as (src' & Heq & _); [done|].
    rewrite Heq. eexists _, _, _, _. split; [done|]. cbn.
    rewrite length_app, app_assoc. split; [done|lia].
  - cbn. edestruct (Copy_unlimited w src) as (src' & Heq & _); [done|].
    rewrite Heq. eexists _, _, _, _. split; [done|]. cbn.
    apply Nat.ltb_ge in Hl. rewrite slice_empty by lia. cbn. split; [done|lia].
Qed.

Lemma call_spec cr c :
  initialised cr →
  ∃ bs e cr',
    call cr c = Some (bs, e, cr') ∧ initialised cr' ∧
    pr_cache cr' = pr_cache cr ∧ pr_cached cr' = pr_cached cr.
Proof.
  intros Hinit. destruct c as [k|w]; cbn [call].
  - destruct (Read_spec cr k Hinit) as (bs & e & cr' & -> & ? & _ & _ & ? & ? & _).
    eauto 10.
  - destruct (WriteTo_spec cr w Hinit) as (n & e & cr' & w' & -> & ? & ? & ? & _).
    cbn. eauto 10.
Qed.

(** No sequence of calls panics on an initialised reader, and none changes
    what [Prefix] returns. *)
Lemma consume_spec cs : ∀ cr,
  initialised cr →
  ∃ bs cr',
    consume cr cs = Some (bs, cr') ∧ initialised cr' ∧ Prefix cr' = Prefix cr.
Proof.
  induction cs as [|c cs IH]; intros cr Hinit; cbn [consume].
  - eauto.
  - destruct (call_spec cr c Hinit) as (bs & e & cr1 & -> & Hinit1 & Hc & Hn).
    destruct (IH cr1 Hinit1) as (bs' & cr2 & Heq & Hinit2 & Hp).
    cbn. rewrite Heq. cbn. eexists _, _. split; [done|]. split; [done|].
    rewrite Hp. unfold Prefix. by rewrite Hc, Hn.
Qed.

(** Reads alone, however they are chunked, deliver the bytes still to
    deliver in order, each once. *)
Lemma consume_reads ks : ∀ cr,
  initialised cr →
  ∃ bs cr',
    consume cr (CRead <$> ks) = Some (bs, cr') ∧ initialised cr' ∧
    bs ++ pending cr' = pending cr.
Proof.
  induction ks as [|k ks IH]; intros cr Hinit; cbn [fmap list_fmap consume call].
  - eauto.
  - destruct (Read_spec cr k Hinit) as (bs & e & cr1 & -> & Hinit1 & Hp & _).
    destruct (IH cr1 Hinit1) as (bs' & cr2 & Heq & Hinit2 & Hp').
    cbn. rewrite Heq. cbn. eexists _, _. split; [done|]. split; [done|].
    rewrite <- app_assoc, Hp', Hp. done.
Qed.

(** Reads followed by one bulk transfer into a sink that accepts
    everything deliver the whole of what was to deliver. *)
Lemma consume_reads_then_WriteTo ks w cr :
  initialised cr → sk_room w = None →
  ∃ bs cr', consume cr ((CRead <$> ks) ++ [CWriteTo w]) = Some (bs, cr') ∧
            bs = pending cr.
Proof.
  revert cr. induction ks as [|k ks IH]; intros cr Hinit Hroom;
    cbn [fmap list_fmap consume call app].
  - destruct (WriteTo_unlimited cr w Hinit Hroom)
      as (n & e & cr' & w' & -> & Hout & _).
    cbn. eexists _, _. split; [done|].
    rewrite Hout, drop_app_length, app_nil_r. done.
  - destruct (Read_spec cr k Hinit) as (bs & e & cr1 & -> & Hinit1 & Hp & _).
    destruct (IH cr1 Hinit1 Hroom) as (bs' & cr2 & Heq & ->).
    cbn. cbn in Heq. rewrite Heq. cbn. eexists _, _. split; [done|]. done.
Qed.

(** C1.  After initialisation, by [Reset] or by [NewPrefixReader] with a
    source, [Prefix] is the first [min P L] bytes of the input, where [P]
    is the capacity of the cache and [L] the length of the input: the fill
    stopped because [P] bytes were cached or because the source reported
    its terminal condition, it took nothing from the source beyond the
    cached bytes, and no later sequence of [Read] and [WriteTo] calls
    changes what [Prefix] returns. *)
Theorem C1_prefix_is_first_bytes :
  (∀ (cr : PrefixReader) (src : Reader),
     let P := length (pr_cache cr) in
     let L := length (rd_data src) in
     let e := (Reset cr src).1 in
     let cr' := (Reset cr src).2 in
     length (Prefix cr') = P `min` L ∧
     Prefix cr' = take (P `min` L) (rd_data src) ∧
     (pr_cached cr' = P ∨ e ≠ None) ∧
     pending cr' = rd_data src ∧
     ∀ cs, ∃ bs cr'', consume cr' cs = Some (bs, cr'') ∧ Prefix cr'' = Prefix cr')
  ∧
  (∀ (P : nat) (src : Reader),
     let L := length (rd_data src) in
     let cr' := (NewPrefixReader (Some src) P).1 in
     let e := (NewPrefixReader (Some src) P).2 in
     length (Prefix cr') = P `min` L ∧
     Prefix cr' = take (P `min` L) (rd_data src) ∧
     (pr_cached cr' = P ∨ e ≠ None) ∧
     pending cr' = rd_data src ∧
     ∀ cs, ∃ bs cr'', consume cr' cs = Some (bs, cr'') ∧ Prefix cr'' = Prefix cr').
Proof.
  assert (Hreset : ∀ (cr : PrefixReader) (src : Reader),
     let P := length (pr_cache cr) in
     let L := length (rd_data src) in
     let e := (Reset cr src).1 in
     let cr' := (Reset cr src).2 in
     length (Prefix cr') = P `min` L ∧
     Prefix cr' = take (P `min` L) (rd_data src) ∧
     (pr_cached cr' = P ∨ e ≠ None) ∧
     pending cr' = rd_data src ∧
     ∀ cs, ∃ bs cr'', consume cr' cs = Some (bs, cr'') ∧ Prefix cr'' = Prefix cr').
  { intros cr src P L e cr'.
    destruct (Reset_spec cr src)
      as (Hcached & Hread & Herr & Hlen & Hpre & Hpend & Hinit & He & _).
    fold P L e cr' in Hcached, Hread, Herr, Hlen, Hpre, Hpend, Hinit, He.
    assert (Htake : take P (rd_data src) = take (P `min` L) (rd_data src)).
    { destruct (decide (P ≤ L)); [f_equal; lia|].
      rewrite !take_ge by (subst L; lia). done. }
    repeat split.
    - rewrite Hpre, length_take. done.
    - rewrite Hpre. done.
    - rewrite Hcached, He. destruct (decide (P ≤ L)); [left; lia | by right].
    - done.
    - intros cs. destruct (consume_spec cs cr' Hinit) as (bs & cr'' & ? & _ & ?).
      eauto. }
  split; [exact Hreset|].
  intros P src L.
  pose (fresh := {| pr_r := None; pr_read := 0; pr_cached := 0; pr_err := None;
                    pr_cache := replicate P Byte.x00 |}).
  pose proof (Hreset fresh src) as H.
  cbn [pr_cache fresh] in H. rewrite length_replicate in H.
  unfold NewPrefixReader. fold fresh.
  destruct (Reset fresh src) as [e cr']. exact H.
Qed.

(** A [Read] on a reader that stored a condition is served from the cache
    alone.  It hands out the next [min k l] cached bytes, [l] being the
    number of cached bytes not replayed yet; the error is nil exactly when
    the caller's buffer was filled completely from a non-empty rest of the
    cache, and the stored condition otherwise. *)
Lemma Read_stored cr k e :
  initialised cr → pr_err cr = Some e →
  let rest := slice (pr_cache cr) (pr_read cr) (pr_cached cr) in
  ∃ cr',
    Read cr k =
      Some (take k rest,
            (if (0 <? length rest) && (k <=? length rest) then None else Some e),
            cr') ∧
    initialised cr' ∧ pr_r cr' = pr_r cr ∧ pr_err cr' = Some e ∧
    pr_cache cr' = pr_cache cr ∧ pr_cached cr' = pr_cached cr ∧
    pr_read cr' = pr_read cr + k `min` length rest ∧
    slice (pr_cache cr') (pr_read cr') (pr_cached cr') = drop k rest.
Proof.
  intros (Hrc & Hcl & Hsrc) He rest.
  assert (Hlen : length rest = pr_cached cr - pr_read cr).
  { subst rest. apply length_slice. lia. }
  assert (Hfc : (if 0 <? length rest then take k rest else []) = take k rest).
  { destruct (0 <? length rest) eqn:Hl; [done|].
    apply Nat.ltb_ge in Hl.
    assert (rest = []) as -> by (apply nil_length_inv; lia).
    by rewrite take_nil. }
  unfold Read. fold rest. rewrite He, <- Hlen, Hfc, length_take.
  exists {| pr_r := pr_r cr; pr_read := pr_read cr + k `min` length rest;
            pr_cached := pr_cached cr; pr_err := Some e;
            pr_cache := pr_cache cr |}.
  split.
  - destruct (0 <? length rest) eqn:Hl; cbn [andb]; [|done].
    destruct (decide (k ≤ length rest)) as [Hk|Hk].
    + rewrite bool_decide_eq_true_2 by lia.
      rewrite (proj2 (Nat.leb_le _ _)) by lia. done.
    + rewrite bool_decide_eq_false_2 by lia.
      rewrite (proj2 (Nat.leb_gt _ _)) by lia. done.
  - unfold initialised. cbn.
    repeat split; try done; try lia.
    + destruct (pr_r cr); [|done]. destruct Hsrc; [congruence | by right].
    + subst rest. unfold slice in *. rewrite length_take, length_drop in *.
      rewrite skipn_firstn_comm, drop_drop.
      destruct (decide (k ≤ pr_cached cr - pr_read cr)).
      * f_equal; [|f_equal]; lia.
      * replace (pr_cached cr - pr_read cr - k) with 0 by lia.
        rewrite take_0. apply nil_length_inv. rewrite length_take. lia.
Qed.

(** Reads on a reader that stored a condition replay the rest of the
    cache, [k] bytes at a time. *)
Lemma consume_stored ks : ∀ cr e,
  initialised cr → pr_err cr = Some e →
  ∃ cr',
    consume cr (CRead <$> ks)
    = Some (take (sum_list ks) (slice (pr_cache cr) (pr_read cr) (pr_cached cr)), cr').
Proof.
  induction ks as [|k ks IH]; intros cr e Hinit He;
    cbn [fmap list_fmap consume call sum_list sum_list_with].
  - rewrite take_0. eauto.
  - destruct (Read_stored cr k e Hinit He)
      as (cr1 & -> & Hinit1 & _ & He1 & _ & _ & _ & Hrest).
    destruct (IH cr1 e Hinit1 He1) as (cr2 & Heq).
    cbn. cbn in Heq. rewrite Heq. cbn. rewrite Hrest, take_take_drop. eauto.
Qed.

(** C2 (evaluation at the failing input).  Prefix capacity 10, input
    ["123456789012345678901234567890"]: the consumer calls [WriteTo] and
    then [Read] with a buffer of 5 bytes.  [WriteTo] delivers the 30 bytes
    of the input and leaves the cursor [read] at 0, so the [Read] delivers
    the cached bytes ["12345"] a second time, with a nil error. *)
Theorem C2_WriteTo_then_Read_replays_cache :
  let input := list_byte_of_string "123456789012345678901234567890" in
  let src := {| rd_data := input; rd_sched := []; rd_eager := false; rd_fin := EOF |} in
  let sink := {| sk_out := []; sk_room := None; sk_err := ErrShortWrite |} in
  let cr := (NewPrefixReader (Some src) 10).1 in
  (fst <$> consume cr [CWriteTo sink; CRead 5])
    = Some (input ++ list_byte_of_string "12345")
  ∧ (∃ cr1 cr2,
       call cr (CWriteTo sink) = Some (input, None, cr1) ∧
       pr_read cr1 = 0 ∧
       Read cr1 5 = Some (list_byte_of_string "12345", None, cr2)).
Proof.
  cbv zeta. split.
  - vm_compute. reflexivity.
  - eexists _, _. split; [vm_compute; reflexivity|].
    split; vm_compute; reflexivity.
Qed.

(** C6 (as stated, refuted).  The repository's own test
    [TestCachedReader_More]: capacity 100, an input of 30 bytes, three
    reads with a buffer of 12 bytes.  The eager fill stored [EOF]; the
    third read returns the last 6 cached bytes together with [EOF], not
    with a nil error. *)
Lemma C6_last_cached_bytes_come_with_the_error :
  ¬ (∀ (cr : PrefixReader) (k : nat) bs e cr',
       initialised cr → pr_err cr ≠ None →
       Read cr k = Some (bs, e, cr') →
       0 < length bs → e = None).
Proof.
  intros Hclaim.
  pose (input := list_byte_of_string "123456789012345678901234567890").
  pose (src := {| rd_data := input; rd_sched := []; rd_eager := false;
                  rd_fin := EOF |}).
  pose (cr := (NewPrefixReader (Some src) 100).1).
  destruct (consume_spec [CRead 12; CRead 12] cr) as (bs & cr2 & Hrun & Hinit & _).
  { unfold cr. unfold NewPrefixReader.
    match goal with |- context [Reset ?c ?s] =>
      destruct (Reset_spec c s) as (_ & _ & _ & _ & _ & _ & Hi & _);
      destruct (Reset c s); exact Hi end. }
  vm_compute in Hrun. inversion Hrun; subst bs cr2; clear Hrun.
  match type of Hinit with initialised ?c =>
    specialize (Hclaim c 12 (list_byte_of_string "567890") (Some EOF)
                  (mkPrefixReader (pr_r c) 30 30 (Some EOF) (pr_cache c)) Hinit) end.
  discriminate Hclaim; [done | vm_compute; reflexivity | vm_compute; lia].
Qed.

(** C6 (amended).  On a reader whose eager fill stored a condition [e], a
    [Read] with a buffer of [k] bytes hands out the next [min k l] cached
    bytes, [l] being the number of cached bytes not replayed yet, and never
    touches the source.  If the cached bytes fill the buffer ([0 < l] and
    [k <= l]) the error is nil.  Otherwise the call returns [e], together
    with the last cached bytes if there were any, and after it the cache
    is exhausted; so [e] is never returned while cached bytes remain
    undelivered. *)
Theorem C6_stored_condition_after_cached_bytes cr k e :
  initialised cr → pr_err cr = Some e →
  let rest := slice (pr_cache cr) (pr_read cr) (pr_cached cr) in
  ∃ err cr',
    Read cr k = Some (take k rest, err, cr') ∧
    (0 < length rest → k ≤ length rest → err = None) ∧
    (length rest = 0 ∨ length rest < k → err = Some e) ∧
    (err = Some e → pr_read cr' = pr_cached cr') ∧
    pr_r cr' = pr_r cr ∧ pr_err cr' = Some e ∧ Prefix cr' = Prefix cr ∧
    slice (pr_cache cr') (pr_read cr') (pr_cached cr') = drop k rest.
Proof.
  intros Hinit He rest.
  destruct (Read_stored cr k e Hinit He)
    as (cr' & Hread & _ & Hr & He' & Hc & Hn & Hrd & Hrest).
  fold rest in Hread, Hrd, Hrest.
  assert (Hlen : length rest = pr_cached cr - pr_read cr).
  { subst rest. apply length_slice. apply Hinit. }
  destruct Hinit as (Hrc & _).
  eexists _, cr'. split; [exact Hread|].
  repeat split; try done.
  - intros H0 Hk. rewrite (proj2 (Nat.ltb_lt _ _)) by lia.
    rewrite (proj2 (Nat.leb_le _ _)) by lia. done.
  - intros [H0|Hk].
    + rewrite H0. done.
    + rewrite (proj2 (Nat.leb_gt _ _)) by lia. by rewrite andb_false_r.
  - intros Herr. rewrite Hrd, Hn.
    destruct (0 <? length rest) eqn:Hl; [|apply Nat.ltb_ge in Hl; lia].
    destruct (k <=? length rest) eqn:Hk; [done|].
    apply Nat.leb_gt in Hk. lia.
  - unfold Prefix. by rewrite Hc, Hn.
Qed.

Lemma C6_stored_condition_after_cached_bytes_witness :
  let src := {| rd_data := list_byte_of_string "123456";
                rd_sched := []; rd_eager := false; rd_fin := EOF |} in
  let cr := (NewPrefixReader (Some src) 10).1 in
  ∃ err cr',
    Read cr 12 = Some (take 12 (slice (pr_cache cr) (pr_read cr) (pr_cached cr)),
                       err, cr') ∧
    (length (slice (pr_cache cr) (pr_read cr) (pr_cached cr)) = 0
     ∨ length (slice (pr_cache cr) (pr_read cr) (pr_cached cr)) < 12 →
     err = Some EOF).
Proof.
  cbv zeta.
  destruct (C6_stored_condition_after_cached_bytes
              (NewPrefixReader (Some {| rd_data := list_byte_of_string "123456";
                 rd_sched := []; rd_eager := false; rd_fin := EOF |}) 10).1
              12 EOF)
    as (err & cr' & Hread & _ & Herr & _).
  - vm_compute. repeat split; [lia | lia | right; reflexivity].
  - vm_compute. reflexivity.
  - exists err, cr'. split; [exact Hread | exact Herr].
Defined.

(** C10.  A source that ends (terminal condition [EOF]) before [prefixLen]
    bytes, the empty source included: [Reset], and so [NewPrefixReader]
    with this source, returns [io.EOF], although the reader is
    initialised.  The whole source is in the cache, [Prefix] returns it,
    and reads with buffers of sizes [ks] deliver its first [sum ks] bytes,
    that is all of it once the sizes add up to its length. *)
Theorem C10_short_source_EOF_is_not_a_failure
    (prefixLen : nat) (cr : PrefixReader) (src : Reader) :
  length (pr_cache cr) = prefixLen →
  length (rd_data src) < prefixLen →
  rd_fin src = EOF →
  (Reset cr src).1 = Some EOF ∧
  (NewPrefixReader (Some src) prefixLen).2 = Some EOF ∧
  ∀ cr', cr' = (Reset cr src).2 ∨ cr' = (NewPrefixReader (Some src) prefixLen).1 →
    initialised cr' ∧ Prefix cr' = rd_data src ∧ pending cr' = rd_data src ∧
    ∀ ks, ∃ cr'',
      consume cr' (CRead <$> ks) = Some (take (sum_list ks) (rd_data src), cr'').
Proof.
  intros HP HL Hfin.
  assert (Hreset : ∀ c, length (pr_cache c) = prefixLen →
    (Reset c src).1 = Some EOF ∧
    initialised (Reset c src).2 ∧ Prefix (Reset c src).2 = rd_data src ∧
    pending (Reset c src).2 = rd_data src ∧
    ∀ ks, ∃ cr'',
      consume (Reset c src).2 (CRead <$> ks)
      = Some (take (sum_list ks) (rd_data src), cr'')).
  { intros c Hc.
    destruct (Reset_spec c src)
      as (Hcached & Hread & Herr & Hlen & Hpre & Hpend & Hinit & He & _).
    rewrite Hc in *. rewrite decide_False in He by lia.
    rewrite Hfin in He. rewrite bool_decide_eq_false_2 in He by done.
    rewrite take_ge in Hpre by lia.
    split; [done|]. do 3 (split; [done|]).
    intros ks. rewrite He in Herr.
    destruct (consume_stored ks _ EOF Hinit Herr) as (cr'' & Heq).
    exists cr''. rewrite Heq. do 3 f_equal.
    rewrite <- Hpre. unfold Prefix, slice. rewrite Hread, drop_0.
    f_equal. lia. }
  pose (fresh := {| pr_r := None; pr_read := 0; pr_cached := 0; pr_err := None;
                    pr_cache := replicate prefixLen Byte.x00 |}).
  assert (Hnew : NewPrefixReader (Some src) prefixLen
                 = ((Reset fresh src).2, (Reset fresh src).1)).
  { unfold NewPrefixReader. fold fresh. by destruct (Reset fresh src). }
  destruct (Hreset cr HP) as (He & Hrest).
  destruct (Hreset fresh) as (He' & Hrest').
  { cbn. apply length_replicate. }
  rewrite Hnew. cbn [fst snd].
  split; [done|]. split; [done|].
  intros cr' [->| ->]; done.
Qed.

Lemma C10_short_source_EOF_is_not_a_failure_witness :
  let src := {| rd_data := list_byte_of_string "abc"; rd_sched := [2];
                rd_eager := false; rd_fin := EOF |} in
  (NewPrefixReader (Some src) 10).2 = Some EOF.
Proof.
  cbv zeta.
  apply (C10_short_source_EOF_is_not_a_failure 10
           (NewPrefixReader None 10).1
           {| rd_data := list_byte_of_string "abc"; rd_sched := [2];
              rd_eager := false; rd_fin := EOF |}).
  - vm_compute. reflexivity.
  - vm_compute. lia.
  - reflexivity.
Defined.

(** *** Sequences of calls on a reader bound by [Reset] *)

(** X1.  A reader that [Reset] has bound to a source and that is read with
    [Read] only: whatever the sizes of the buffers and however the source
    chunks its data, the bytes delivered are the first bytes of the source,
    in order and with nothing lost (what was delivered, followed by what
    is still pending, is the source); the calls deliver no more than their
    buffers hold; and [Prefix] stays the first bytes of the source. *)
Theorem X1_reads_deliver_the_source_in_order cr src ks :
  ∃ bs cr',
    consume (Reset cr src).2 (CRead <$> ks) = Some (bs, cr') ∧
    bs ++ pending cr' = rd_data src ∧
    length bs ≤ sum_list ks ∧
    Prefix cr' = take (length (pr_cache cr)) (rd_data src).
Proof.
  assert (Hgen : ∀ ks cr0, initialised cr0 →
    ∃ bs cr', consume cr0 (CRead <$> ks) = Some (bs, cr') ∧
              bs ++ pending cr' = pending cr0 ∧
              length bs ≤ sum_list ks ∧ Prefix cr' = Prefix cr0).
  { clear. induction ks as [|k ks IH]; intros cr0 Hinit;
      cbn [fmap list_fmap consume call].
    - exists [], cr0. cbn. done.
    - destruct (Read_spec cr0 k Hinit)
        as (bs & e & cr1 & -> & Hinit1 & Hp & Hlen & Hcache & Hcached & _).
      destruct (IH cr1 Hinit1) as (bs' & cr2 & Heq & Hp' & Hlen' & Hpre').
      cbn [mbind option_bind]. cbn [fmap list_fmap] in Heq. rewrite Heq.
      cbn [mbind option_bind].
      exists (bs ++ bs'), cr2. split; [done|].
      split; [by rewrite <- app_assoc, Hp', Hp|].
      split; [rewrite length_app; cbn; lia|].
      rewrite Hpre'. unfold Prefix. by rewrite Hcache, Hcached. }
  destruct (Reset_spec cr src) as (_ & _ & _ & _ & Hpre & Hpend & Hinit & _).
  cbn zeta in *.
  destruct (Hgen ks _ Hinit) as (bs & cr' & Heq & Hp & Hlen & Hpre').
  exists bs, cr'. rewrite Hp, Hpre', Hpend, Hpre. done.
Qed.

(** X2.  [WriteTo] on an initialised reader leaves the sink as one write
    of everything pending (the cached bytes not read yet, then what the
    source holds) would, whatever the capacity of the sink; it moves
    neither the read cursor nor the prefix.  Into a sink that never fails
    the count is the number of bytes pending, and the error is the
    terminal condition of the source, [nil] when that is [EOF]. *)
Theorem X2_WriteTo_moves_all_that_is_pending cr w :
  initialised cr →
  ∃ n e cr' w',
    WriteTo cr w = Some (n, e, cr', w') ∧
    w' = (Sink_Write w (pending cr)).2 ∧
    pr_read cr' = pr_read cr ∧ Prefix cr' = Prefix cr ∧
    (sk_room w = None →
       n = length (pending cr) ∧
       ∃ src, pr_r cr = Some src ∧
              e = if bool_decide (rd_fin src = EOF) then None else Some (rd_fin src)).
Proof.
  intros (Hread & Hcached & Hsrc).
  destruct (pr_r cr) as [src|] eqn:Hr; [|done].
  unfold WriteTo, pending. rewrite Hr.
  set (rest := slice (pr_cache cr) (pr_read cr) (pr_cached cr)).
  assert (Hrest : length rest = pr_cached cr - pr_read cr).
  { unfold rest. by rewrite length_slice. }
  destruct (0 <? pr_cached cr - pr_read cr) eqn:Hpos.
  - destruct (Sink_Write w rest) as [[n werr] w1] eqn:Hw.
    destruct werr as [e|].
    + eexists _, _, _, _. split; [reflexivity|].
      split; [by rewrite Sink_Write_failed; rewrite Hw|].
      split; [done|]. split; [done|].
      intros Hroom. unfold Sink_Write in Hw. rewrite Hroom in Hw. done.
    + cbn [mbind option_bind].
      destruct (Copy w1 src) as [[[a err] w2] src'] eqn:Hcopy.
      eexists _, _, _, _. split; [reflexivity|].
      split.
      { rewrite <- Sink_Write_app by (by rewrite Hw). rewrite Hw. cbn.
        by rewrite <- Copy_sink, Hcopy. }
      split; [done|]. split; [done|].
      intros Hroom. unfold Sink_Write in Hw. rewrite Hroom in Hw.
      injection Hw as <- <-.
      match type of Hcopy with Copy ?d _ = _ =>
        destruct (Copy_unlimited d src eq_refl) as (src1 & Heq & _) end.
      rewrite Heq in Hcopy. injection Hcopy as <- <- <- <-.
      split; [rewrite length_app; lia|]. eauto.
  - apply Nat.ltb_ge in Hpos. cbn [mbind option_bind].
    assert (rest = []) as -> by (destruct rest; [done|cbn in Hrest; lia]).
    destruct (Copy w src) as [[[a err] w2] src'] eqn:Hcopy.
    eexists _, _, _, _. split; [reflexivity|].
    split; [cbn [app]; by rewrite <- Copy_sink, Hcopy|].
    split; [done|]. split; [done|].
    intros Hroom.
    destruct (Copy_unlimited _ src Hroom) as (src1 & Heq & _).
    rewrite Heq in Hcopy. injection Hcopy as <- <- <- <-.
    split; [cbn; lia|]. eauto.
Qed.

Lemma X2_WriteTo_moves_all_that_is_pending_witness :
  let src := {| rd_data := list_byte_of_string "0123456789"; rd_sched := [3];
                rd_eager := false; rd_fin := EOF |} in
  let cr := (NewPrefixReader (Some src) 4).1 in
  let w := {| sk_out := []; sk_room := Some 6; sk_err := ErrShortWrite |} in
  ∃ n e cr' w',
    WriteTo cr w = Some (n, e, cr', w') ∧ w' = (Sink_Write w (pending cr)).2.
Proof.
  cbv zeta.
  destruct (X2_WriteTo_moves_all_that_is_pending
              (NewPrefixReader (Some {| rd_data := list_byte_of_string "0123456789";
                 rd_sched := [3]; rd_eager := false; rd_fin := EOF |}) 4).1
              {| sk_out := []; sk_room := Some 6; sk_err := ErrShortWrite |})
    as (n & e & cr' & w' & Heq & Hw & _).
  - vm_compute. repeat split; [lia | lia | left; reflexivity].
  - exists n, e, cr', w'. split; [exact Heq | exact Hw].
Defined.

(** X3.  Reads followed by one [WriteTo] into a sink that never fails
    deliver the whole source, each byte once and in order, for every
    capacity of the cache, every buffer size and every chunking of the
    source. *)
Theorem X3_reads_then_WriteTo_deliver_everything cr src ks w :
  sk_room w = None →
  fst <$> consume (Reset cr src).2 ((CRead <$> ks) ++ [CWriteTo w])
  = Some (rd_data src).
Proof.
  intros Hroom.
  destruct (Reset_spec cr src) as (_ & _ & _ & _ & _ & Hpend & Hinit & _).
  cbn zeta in *.
  destruct (consume_reads_then_WriteTo ks w _ Hinit Hroom) as (bs & cr' & -> & ->).
  cbn. by rewrite Hpend.
Qed.

Lemma X3_reads_then_WriteTo_deliver_everything_witness :
  let src := {| rd_data := list_byte_of_string "0123456789"; rd_sched := [3; 0; 2];
                rd_eager := true; rd_fin := EOF |} in
  let cr := (NewPrefixReader None 4).1 in
  let w := {| sk_out := list_byte_of_string "x"; sk_room := None; sk_err := ErrShortWrite |} in
  fst <$> consume (Reset cr src).2 ((CRead <$> [2; 5]) ++ [CWriteTo w])
  = Some (list_byte_of_string "0123456789").
Proof.
  cbv zeta.
  apply (X3_reads_then_WriteTo_deliver_everything
           (NewPrefixReader None 4).1
           {| rd_data := list_byte_of_string "0123456789"; rd_sched := [3; 0; 2];
              rd_eager := true; rd_fin := EOF |} [2; 5]
           {| sk_out := list_byte_of_string "x"; sk_room := None;
              sk_err := ErrShortWrite |}).
  reflexivity.
Defined.

End io_facts.

(** ** The middleware *)
Module httpdump_facts.
Import stdio io httpdump stdio_facts io_facts.

(** *** Construction *)

Lemma evalOption_keeps_limit e opt m :
  setsLimit e = false → evalOption e = Some opt →
  dumpedBodySize (opt m) = dumpedBodySize m.
Proof.
  destruct e; try done; intros _ [= <-]; done.
Qed.

Lemma foldl_keeps_limit es : ∀ opts m,
  forallb (λ e, negb (setsLimit e)) es = true →
  mapM evalOption es = Some opts →
  dumpedBodySize (foldl (λ m opt, opt m) m opts) = dumpedBodySize m.
Proof.
  induction es as [|e es IH]; intros opts m Hno Hev.
  - cbn in Hev. injection Hev as <-. done.
  - cbn in Hno. apply andb_prop in Hno as [He Hes].
    apply negb_true_iff in He.
    cbn in Hev. destruct (evalOption e) as [opt|] eqn:Hopt; [|done].
    cbn in Hev. destruct (mapM evalOption es) as [opts'|] eqn:Hopts; [|done].
    cbn in Hev. injection Hev as <-. cbn [foldl].
    rewrite (IH opts' _ Hes eq_refl).
    by apply (evalOption_keeps_limit e).
Qed.

(** C8.  [WithLimitedBody limit] panics for every [limit <= 0], so a
    constructor call that lists it builds no middleware; for [limit > 0] it
    is an option that sets [dumpedBodySize] to [limit] and nothing else,
    and the middleware built has that size when no later option sets
    another; without the option the size is [DefaultBodySize = 1024]. *)
Theorem C8_body_limit (limit : Z) :
  ((limit ≤ 0)%Z →
     WithLimitedBody limit = None ∧
     ∀ dreq dresp es1 es2,
       construct dreq dresp (es1 ++ EWithLimitedBody limit :: es2) = None)
  ∧
  ((0 < limit)%Z →
     (∃ opt, WithLimitedBody limit = Some opt ∧
             ∀ m, opt m = set_dumpedBodySize m limit) ∧
     ∀ dreq dresp es1 es2,
       is_Some (mapM evalOption es1) →
       forallb (λ e, negb (setsLimit e)) es2 = true →
       ∃ m, construct dreq dresp (es1 ++ EWithLimitedBody limit :: es2) = Some m ∧
            dumpedBodySize m = limit)
  ∧
  (∀ dreq dresp es,
     forallb (λ e, negb (setsLimit e)) es = true →
     ∃ m, construct dreq dresp es = Some m ∧
          dumpedBodySize m = DefaultBodySize ∧ DefaultBodySize = 1024%Z).
Proof.
  assert (Hok : ∀ es, forallb (λ e, negb (setsLimit e)) es = true →
                      is_Some (mapM evalOption es)).
  { induction es as [|e es IH]; intros Hno; [by eexists|].
    cbn in Hno. apply andb_prop in Hno as [He Hes].
    destruct (IH Hes) as [opts Hopts]. cbn. rewrite Hopts.
    destruct e; try done; by eexists. }
  split; [|split].
  - intros Hle. unfold WithLimitedBody.
    rewrite (proj2 (Z.leb_le _ _)) by done. split; [done|].
    intros dreq dresp es1 es2. unfold construct.
    assert (Hnone : mapM evalOption (es1 ++ EWithLimitedBody limit :: es2) = None).
    { induction es1 as [|e es1 IH]; cbn.
      - unfold WithLimitedBody. rewrite (proj2 (Z.leb_le _ _)) by done. done.
      - rewrite IH. by destruct (evalOption e). }
    rewrite Hnone. done.
  - intros Hpos. unfold WithLimitedBody.
    rewrite (proj2 (Z.leb_gt _ _)) by done. split; [by eexists|].
    intros dreq dresp es1 es2 [opts1 Hopts1] Hno.
    destruct (Hok es2 Hno) as [opts2 Hopts2].
    unfold construct.
    assert (Hall : mapM evalOption (es1 ++ EWithLimitedBody limit :: es2)
                   = Some (opts1 ++ (λ m, set_dumpedBodySize m limit) :: opts2)).
    { clear Hno. revert opts1 Hopts1.
      induction es1 as [|e es1 IH]; intros opts1 Hopts1; cbn in *.
      - injection Hopts1 as <-. unfold WithLimitedBody.
        rewrite (proj2 (Z.leb_gt _ _)) by done. cbn. rewrite Hopts2. done.
      - destruct (evalOption e) as [opt|]; [|done]. cbn in *.
        destruct (mapM evalOption es1) as [opts1'|]; [|done]. cbn in *.
        injection Hopts1 as <-. rewrite (IH opts1' eq_refl). done. }
    rewrite Hall. cbn. eexists. split; [done|].
    unfold NewMiddleware. rewrite foldl_app. cbn [foldl].
    rewrite (foldl_keeps_limit es2 opts2 _ Hno Hopts2). done.
  - intros dreq dresp es Hno. destruct (Hok es Hno) as [opts Hopts].
    unfold construct. rewrite Hopts. cbn. eexists. split; [done|].
    unfold NewMiddleware. rewrite (foldl_keeps_limit es opts _ Hno Hopts). done.
Qed.

Lemma C8_body_limit_witness :
  WithLimitedBody 0 = None ∧
  construct true true [EWithLimitedBody 0] = None ∧
  (∃ m, construct true true [EWithLimitedBody 10] = Some m ∧ dumpedBodySize m = 10%Z).
Proof.
  destruct (C8_body_limit 0) as (H0 & _ & _).
  destruct (C8_body_limit 10) as (_ & H10 & _).
  destruct (H0 ltac:(lia)) as [Hpanic Hnone].
  destruct (H10 ltac:(lia)) as [_ Hsome].
  split; [exact Hpanic|]. split.
  - exact (Hnone true true [] []).
  - apply (Hsome true true [] []); [by eexists | reflexivity].
Defined.

(** *** The filter chains *)

(** The loop of [filterPassed]: it consults the filters in order, stops
    at the first one whose [dump] is false, and otherwise returns the
    conjunction of the [body] flags. *)
Lemma filterPassed_loop_spec r : ∀ filters i b,
  filterPassed_loop r filters i b =
    match list_find (λ f, (f r).1 = false) filters with
    | Some (j, _) => (false, false, EvRequestFilter <$> seq i (S j))
    | None =>
        (true, b && forallb (λ f, (f r).2) filters,
         EvRequestFilter <$> seq i (length filters))
    end.
Proof.
  induction filters as [|f fs IH]; intros i b; cbn [filterPassed_loop].
  - cbn. by rewrite andb_true_r.
  - cbn [list_find]. destruct (f r) as [dump body] eqn:Hf.
    destruct dump; cbn [negb fst snd].
    + case_decide; [done|]. rewrite IH.
      destruct (list_find (λ f, (f r).1 = false) fs) as [[j g]|]; cbn.
      * done.
      * destruct body; cbn; rewrite Hf; cbn; [done|]. by rewrite andb_false_r.
    + case_decide; done.
Qed.

Lemma filtered_loop_spec r headers status : ∀ filters i b,
  filtered_loop r headers status filters i b =
    match list_find (λ f, (f r headers status).1 = false) filters with
    | Some (j, _) => (false, false, EvResponseFilter <$> seq i (S j))
    | None =>
        (true, b && forallb (λ f, (f r headers status).2) filters,
         EvResponseFilter <$> seq i (length filters))
    end.
Proof.
  induction filters as [|f fs IH]; intros i b; cbn [filtered_loop].
  - cbn. by rewrite andb_true_r.
  - cbn [list_find]. destruct (f r headers status) as [dump body] eqn:Hf.
    destruct dump; cbn [negb fst snd].
    + case_decide; [done|]. rewrite IH.
      destruct (list_find (λ f, (f r headers status).1 = false) fs) as [[j g]|]; cbn.
      * done.
      * destruct body; cbn; rewrite Hf; cbn; [done|]. by rewrite andb_false_r.
    + case_decide; done.
Qed.

(** *** [PrefixWriter.Write] *)

(** A write through a [PrefixWriter] bound to the sink at [l]: the sink
    is given the whole of [data] and its result is returned unchanged; the
    first [min room (len data)] bytes of [data] are appended to the
    captured prefix, [room] being the free capacity of the cache. *)
Lemma PrefixWriter_Write_spec {W : Type} (sinkOf : W → Sink)
    (setSink : W → Sink → W) pw data (h : gmap loc W) l o :
  pw_w pw = Some l → h !! l = Some o →
  pw_cached pw ≤ length (pw_cache pw) →
  let room := length (pw_cache pw) - pw_cached pw in
  ∃ pw',
    Write sinkOf setSink pw data h
    = Some ((Sink_Write (sinkOf o) data).1.1, (Sink_Write (sinkOf o) data).1.2,
            pw', <[l := setSink o (Sink_Write (sinkOf o) data).2]> h) ∧
    pw_w pw' = Some l ∧ length (pw_cache pw') = length (pw_cache pw) ∧
    pw_cached pw' = pw_cached pw + room `min` length data ∧
    PrefixW pw' = PrefixW pw ++ take room data.
Proof.
  intros Hw Hl Hcached room. unfold Write. fold room.
  match goal with |- context [if 0 <? room then ?a else ?b] =>
    remember (if 0 <? room then a else b) as pw1 eqn:Hpw1 end.
  unfold store_Write. rewrite Hw. cbn. rewrite Hl. cbn.
  destruct (Sink_Write (sinkOf o) data) as [[n err] s'] eqn:Hsink. cbn.
  exists pw1. split; [reflexivity|]. subst pw1.
  destruct (0 <? room) eqn:Hroom.
  - apply Nat.ltb_lt in Hroom.
    set (l' := if length data <? room then length data else room).
    assert (Hl' : l' = room `min` length data).
    { subst l'. destruct (length data <? room) eqn:Hd.
      - apply Nat.ltb_lt in Hd. lia.
      - apply Nat.ltb_ge in Hd. lia. }
    assert (Htake : take l' data = take room data).
    { rewrite Hl'. destruct (decide (room ≤ length data)).
      - f_equal. lia.
      - rewrite !take_ge by lia. done. }
    rewrite Htake. unfold PrefixW. cbn [pw_w pw_cache pw_cached].
    rewrite length_copy_at, length_take.
    repeat split; try done; try lia.
    replace (pw_cached pw + room `min` (room `min` length data))
      with (pw_cached pw + length (take room data)) by (rewrite length_take; lia).
    apply take_copy_at_end. rewrite length_take. lia.
  - apply Nat.ltb_ge in Hroom. replace room with 0 by lia.
    rewrite take_0, app_nil_r. repeat split; done.
Qed.

(** *** [PrefixWriter.ReadFrom] *)

Lemma store_Write_ok {W : Type} (sinkOf : W → Sink) (setSink : W → Sink → W)
    (h : gmap loc W) l o data :
  h !! l = Some o →
  store_Write sinkOf setSink (Some l) data h
  = Some ((Sink_Write (sinkOf o) data).1.1, (Sink_Write (sinkOf o) data).1.2,
          <[l := setSink o (Sink_Write (sinkOf o) data).2]> h).
Proof.
  intros Hl. unfold store_Write. cbn. rewrite Hl. cbn.
  by destruct (Sink_Write (sinkOf o) data) as [[??]?].
Qed.

Lemma store_Copy_ok {W : Type} (sinkOf : W → Sink) (setSink : W → Sink → W)
    (h : gmap loc W) l o src :
  h !! l = Some o →
  store_Copy sinkOf setSink (Some l) src h
  = Some ((Copy (sinkOf o) src).1.1.1, (Copy (sinkOf o) src).1.1.2,
          (Copy (sinkOf o) src).2,
          <[l := setSink o (Copy (sinkOf o) src).1.2]> h).
Proof.
  intros Hl. unfold store_Copy. cbn. rewrite Hl. cbn.
  by destruct (Copy (sinkOf o) src) as [[[??]?]?].
Qed.

(** A bulk transfer through a [PrefixWriter] bound to the sink at [l]
    does not panic; it changes the sink part of the stored object only,
    and keeps the captured prefix within the cache. *)
Lemma PrefixWriter_ReadFrom_spec {W : Type} (sinkOf : W → Sink)
    (setSink : W → Sink → W) pw src (h : gmap loc W) l o :
  (∀ x s1 s2, setSink (setSink x s1) s2 = setSink x s2) →
  pw_w pw = Some l → h !! l = Some o →
  pw_cached pw ≤ length (pw_cache pw) →
  ∃ n err pw' src' o',
    ReadFrom sinkOf setSink pw src h = Some (n, err, pw', src', <[l := o']> h) ∧
    (o' = o ∨ ∃ s', o' = setSink o s') ∧
    pw_w pw' = Some l ∧ length (pw_cache pw') = length (pw_cache pw) ∧
    pw_cached pw' ≤ length (pw_cache pw').
Proof.
  intros Hset Hw Hl Hcached. unfold ReadFrom.
  set (room := length (pw_cache pw) - pw_cached pw).
  destruct (0 <? room) eqn:Hroom.
  - destruct (ReadAtLeast src (drop (pw_cached pw) (pw_cache pw)) room)
      as [[[nn err] buf'] r1] eqn:Hfill.
    assert (Hbuf : length (drop (pw_cached pw) (pw_cache pw)) = room).
    { rewrite length_drop. done. }
    rewrite <- Hbuf in Hfill.
    apply ReadAtLeast_full in Hfill as (Hnn & Hbuf' & _).
    rewrite Hbuf in Hnn.
    assert (Hlen : length (take (pw_cached pw) (pw_cache pw) ++ buf')
                   = length (pw_cache pw)).
    { rewrite Hbuf', !length_app, !length_take, !length_drop. lia. }
    cbn [pw_w pw_cached pw_cache]. rewrite Hw.
    destruct (0 <? nn) eqn:Hpos.
    + rewrite (store_Write_ok _ _ _ _ _ _ Hl). cbn [mbind option_bind].
      destruct (Sink_Write (sinkOf o) _) as [[nw werr] s1]. cbn [fst snd].
      destruct werr as [e|].
      * eexists _, _, _, _, _. split; [reflexivity|]. cbn.
        split; [right; eauto|]. split; [done|]. split; [done|]. lia.
      * rewrite (store_Copy_ok _ _ _ _ (setSink o s1)) by apply lookup_insert_eq.
        cbn [mbind option_bind]. rewrite insert_insert_eq, Hset.
        eexists _, _, _, _, _. split; [reflexivity|]. cbn.
        split; [right; eauto|]. split; [done|]. split; [done|]. lia.
    + cbn [mbind option_bind]. apply Nat.ltb_ge in Hpos.
      destruct err as [e|].
      * eexists _, _, _, _, o. rewrite (insert_id h l o Hl).
        split; [reflexivity|]. cbn.
        split; [by left|]. split; [done|]. split; [done|]. lia.
      * rewrite (store_Copy_ok _ _ _ _ _ _ Hl). cbn [mbind option_bind].
        eexists _, _, _, _, _. split; [reflexivity|]. cbn.
        split; [right; eauto|]. split; [done|]. split; [done|]. lia.
  - rewrite Hw, (store_Copy_ok _ _ _ _ _ _ Hl). cbn [mbind option_bind].
    eexists _, _, _, _, _. split; [reflexivity|].
    split; [right; eauto|]. split; [done|]. split; [done|]. lia.
Qed.

(** *** [cachedWriter] *)

(** [EnsureFilterPassed] on a writer bound to [w] and [r]: nothing
    happens once [written] is set; otherwise the response chain is run, on
    the header map of the underlying writer and on the status set so far,
    [200] when none was set. *)
Lemma EnsureFilterPassed_spec cw h w r o :
  cw_w cw = Some w → cw_request cw = Some r → h !! w = Some o →
  EnsureFilterPassed cw h =
    if cw_written cw then Some (cw, [])
    else
      let sc := if (cw_statusCode cw =? 0)%Z then StatusOK else cw_statusCode cw in
      Some ({| cw_PrefixWriter := cw_PrefixWriter cw; cw_w := cw_w cw;
               cw_statusCode := sc; cw_request := cw_request cw;
               cw_written := true;
               cw_dumpBody := (filtered cw r (rw_header o) sc).1.2;
               cw_dumpResponse := (filtered cw r (rw_header o) sc).1.1;
               cw_filters := cw_filters cw |},
            (filtered cw r (rw_header o) sc).2).
Proof.
  intros Hw Hr Hl. unfold EnsureFilterPassed, cachedWriter_Header.
  destruct (cw_written cw); [done|].
  rewrite Hr, Hw. cbn. rewrite Hl. cbn.
  by destruct (filtered _ _ _ _) as [[??]?].
Qed.

Lemma EnsureFilterPassed_bound cw h w r o cw1 evs :
  cw_w cw = Some w → cw_request cw = Some r → h !! w = Some o →
  EnsureFilterPassed cw h = Some (cw1, evs) →
  cw_PrefixWriter cw1 = cw_PrefixWriter cw ∧ cw_w cw1 = Some w ∧
  cw_request cw1 = Some r ∧ cw_filters cw1 = cw_filters cw ∧
  cw_written cw1 = true.
Proof.
  intros Hw Hr Hl. rewrite (EnsureFilterPassed_spec cw h w r o Hw Hr Hl).
  destruct (cw_written cw) eqn:Hwr; intros [= <- <-]; done.
Qed.

(** A write through the [cachedWriter]: the whole of [data] goes to the
    underlying writer and the error returned is the underlying writer's;
    the captured prefix grows, by [min room (len data)] bytes, only when
    the response chain allowed the body. *)
Lemma cachedWriter_Write_spec cw data h w r o :
  cw_w cw = Some w → pw_w (cw_PrefixWriter cw) = Some w →
  cw_request cw = Some r →
  pw_cached (cw_PrefixWriter cw) ≤ length (pw_cache (cw_PrefixWriter cw)) →
  h !! w = Some o →
  let room := length (pw_cache (cw_PrefixWriter cw)) - pw_cached (cw_PrefixWriter cw) in
  let res := Sink_Write (rw_sink o) data in
  ∃ cw1 evs n cw',
    EnsureFilterPassed cw h = Some (cw1, evs) ∧
    cachedWriter_Write cw data h
    = Some (n, res.1.2, cw', <[w := rw_setSink o res.2]> h, evs) ∧
    (res.1.2 = None ∨ cw_dumpBody cw1 = false → n = res.1.1) ∧
    cw' = with_PrefixWriter cw1 (cw_PrefixWriter cw') ∧
    pw_w (cw_PrefixWriter cw') = Some w ∧
    length (pw_cache (cw_PrefixWriter cw')) = length (pw_cache (cw_PrefixWriter cw)) ∧
    pw_cached (cw_PrefixWriter cw') ≤ length (pw_cache (cw_PrefixWriter cw')) ∧
    PrefixW (cw_PrefixWriter cw')
    = PrefixW (cw_PrefixWriter cw)
      ++ (if cw_dumpBody cw1 then take room data else []).
Proof.
  intros Hw Hpw Hr Hcached Hl room res.
  destruct (EnsureFilterPassed cw h) as [[cw1 evs]|] eqn:Hens; last first.
  { rewrite (EnsureFilterPassed_spec cw h w r o Hw Hr Hl) in Hens.
    by destruct (cw_written cw). }
  destruct (EnsureFilterPassed_bound cw h w r o cw1 evs Hw Hr Hl Hens)
    as (Hpw1 & Hw1 & Hr1 & Hf1 & Hwr1).
  unfold cachedWriter_Write. rewrite Hens. cbn [mbind option_bind].
  destruct (cw_dumpBody cw1) eqn:Hbody; cbn [negb].
  - destruct (PrefixWriter_Write_spec rw_sink rw_setSink (cw_PrefixWriter cw1)
                data h w o) as (pw' & Heq & Hw' & Hlen & Hc & Hpre);
      [by rewrite Hpw1 | done | by rewrite Hpw1 |].
    rewrite Hpw1 in *. fold room res in Heq, Hc, Hpre.
    rewrite Heq. cbn [mbind option_bind].
    destruct (res.1.2) as [e|] eqn:Herr.
    + eexists cw1, evs, _, _. split; [done|]. split; [reflexivity|].
      split; [intros [?|?]; congruence|]. cbn. rewrite Hlen, Hc, Hbody.
      repeat split; try done. lia.
    + eexists cw1, evs, _, _. split; [done|]. split; [reflexivity|].
      split; [done|]. cbn. rewrite Hlen, Hc, Hbody.
      repeat split; try done. lia.
  - rewrite Hw1, (store_Write_ok _ _ _ _ _ _ Hl). cbn [mbind option_bind].
    fold res. eexists cw1, evs, _, cw1. split; [done|]. split; [reflexivity|].
    split; [done|]. rewrite Hpw1, Hbody, app_nil_r.
    split; [|done]. rewrite <- Hpw1. by destruct cw1.
Qed.

(** C7 (as stated, refuted).  A [cachedWriter] with a cache of 10 bytes,
    bound to a response whose [Content-Type] is [image/png], with the
    default response filter: the chain answers [(true, false)], and a
    write of ["abc"] reaches the underlying writer but copies nothing into
    the capture buffer, although [min (remaining capacity) (len data)] is
    3. *)
Lemma C7_declined_body_is_not_captured :
  let rq := {| URL_Path := "/logo"; Header := ∅ |} in
  let rw := {| rw_header := {[ "Content-Type" := ["image/png"] ]};
               rw_codes := [];
               rw_sink := {| sk_out := []; sk_room := None; sk_err := ErrShortWrite |} |} in
  let h : gmap loc ResponseWriter := {[ 0 := rw ]} in
  let cw := cachedWriter_Reset (newCachedWriter None 10) (Some 0) (Some rq)
              [FilterResponseBodyByContentType DefaultDumpedContentTypes] in
  let data := list_byte_of_string "abc" in
  let room := length (pw_cache (cw_PrefixWriter cw)) - pw_cached (cw_PrefixWriter cw) in
  ¬ (∀ n err cw' h' evs,
       cachedWriter_Write cw data h = Some (n, err, cw', h', evs) →
       length (PrefixW (cw_PrefixWriter cw'))
       = length (PrefixW (cw_PrefixWriter cw)) + room `min` length data).
Proof.
  cbv zeta. intros Hclaim.
  match type of Hclaim with
  | ∀ n err cw' h' evs, ?lhs = _ → _ => set (res := lhs) in Hclaim
  end.
  assert (Hrun : (λ x, length (PrefixW (cw_PrefixWriter x.1.1.2))) <$> res = Some 0)
    by (vm_compute; reflexivity).
  clearbody res. destruct res as [[[[[n err] cw'] h'] evs]|]; [|discriminate Hrun].
  specialize (Hclaim n err cw' h' evs eq_refl).
  cbn in Hrun. injection Hrun as Hlen. rewrite Hlen in Hclaim.
  vm_compute in Hclaim. discriminate Hclaim.
Qed.

(** The same writer when the chain allows the body ([text/plain]) and the
    underlying writer accepts one byte and then fails: the underlying
    writer reports 1 byte and its error, [cachedWriter.Write] reports 0
    bytes and the error. *)
Lemma cachedWriter_Write_count_on_error :
  let rq := {| URL_Path := "/"; Header := ∅ |} in
  let rw := {| rw_header := {[ "Content-Type" := ["text/plain"] ]};
               rw_codes := [];
               rw_sink := {| sk_out := []; sk_room := Some 1;
                             sk_err := ErrOther "broken pipe" |} |} in
  let h : gmap loc ResponseWriter := {[ 0 := rw ]} in
  let cw := cachedWriter_Reset (newCachedWriter None 10) (Some 0) (Some rq)
              [FilterResponseBodyByContentType DefaultDumpedContentTypes] in
  let data := list_byte_of_string "abc" in
  (Sink_Write (rw_sink rw) data).1 = (1, Some (ErrOther "broken pipe")) ∧
  ((λ x, (x.1.1.1.1, x.1.1.1.2)) <$> cachedWriter_Write cw data h)
  = Some (0, Some (ErrOther "broken pipe")).
Proof. cbv zeta. split; vm_compute; reflexivity. Qed.

(** C7 (amended).  For a [cachedWriter] bound to the response writer at
    [w]: a write through its [PrefixWriter] copies exactly
    [min room (len data)] bytes, the first ones of [data], into the capture
    buffer, hands the whole of [data] to the underlying writer and returns
    that writer's count and error.  [cachedWriter.Write] also hands the
    whole of [data] to the underlying writer and returns its error; it
    copies into the capture buffer, the same bytes, only when the response
    chain allowed the body, and nothing otherwise; the count it returns is
    the underlying writer's when that writer reported no error or the body
    is not captured. *)
Theorem C7_write_forwards_and_captures cw data h w r o :
  cw_w cw = Some w → pw_w (cw_PrefixWriter cw) = Some w →
  cw_request cw = Some r →
  pw_cached (cw_PrefixWriter cw) ≤ length (pw_cache (cw_PrefixWriter cw)) →
  h !! w = Some o →
  let pw := cw_PrefixWriter cw in
  let room := length (pw_cache pw) - pw_cached pw in
  let res := Sink_Write (rw_sink o) data in
  (∃ pw',
     Write rw_sink rw_setSink pw data h
     = Some (res.1.1, res.1.2, pw', <[w := rw_setSink o res.2]> h) ∧
     pw_cached pw' = pw_cached pw + room `min` length data ∧
     PrefixW pw' = PrefixW pw ++ take room data)
  ∧
  (∃ cw1 evs n cw',
     EnsureFilterPassed cw h = Some (cw1, evs) ∧
     cachedWriter_Write cw data h
     = Some (n, res.1.2, cw', <[w := rw_setSink o res.2]> h, evs) ∧
     (res.1.2 = None ∨ cw_dumpBody cw1 = false → n = res.1.1) ∧
     PrefixW (cw_PrefixWriter cw')
     = PrefixW pw ++ (if cw_dumpBody cw1 then take room data else [])).
Proof.
  intros Hw Hpw Hr Hcached Hl pw room res. split.
  - destruct (PrefixWriter_Write_spec rw_sink rw_setSink pw data h w o Hpw Hl Hcached)
      as (pw' & Heq & _ & _ & Hc & Hpre).
    eauto.
  - destruct (cachedWriter_Write_spec cw data h w r o Hw Hpw Hr Hcached Hl)
      as (cw1 & evs & n & cw' & Hens & Heq & Hn & _ & _ & _ & _ & Hpre).
    eauto 10.
Qed.

Lemma C7_write_forwards_and_captures_witness :
  let rq := {| URL_Path := "/"; Header := ∅ |} in
  let rw := {| rw_header := {[ "Content-Type" := ["text/plain"] ]};
               rw_codes := [];
               rw_sink := {| sk_out := []; sk_room := None; sk_err := ErrShortWrite |} |} in
  let h : gmap loc ResponseWriter := {[ 0 := rw ]} in
  let cw := cachedWriter_Reset (newCachedWriter None 2) (Some 0) (Some rq)
              [FilterResponseBodyByContentType DefaultDumpedContentTypes] in
  let data := list_byte_of_string "abc" in
  ∃ cw1 evs n cw',
     EnsureFilterPassed cw h = Some (cw1, evs) ∧
     cachedWriter_Write cw data h
     = Some (n, (Sink_Write (rw_sink rw) data).1.2, cw',
             <[0 := rw_setSink rw (Sink_Write (rw_sink rw) data).2]> h, evs) ∧
     ((Sink_Write (rw_sink rw) data).1.2 = None ∨ cw_dumpBody cw1 = false
      → n = (Sink_Write (rw_sink rw) data).1.1) ∧
     PrefixW (cw_PrefixWriter cw')
     = PrefixW (cw_PrefixWriter cw)
       ++ (if cw_dumpBody cw1
           then take (length (pw_cache (cw_PrefixWriter cw))
                      - pw_cached (cw_PrefixWriter cw)) data
           else []).
Proof.
  cbv zeta.
  refine (proj2 (C7_write_forwards_and_captures _ _ _ 0
                   {| URL_Path := "/"; Header := ∅ |} _ _ _ _ _ _)).
  - reflexivity.
  - reflexivity.
  - reflexivity.
  - vm_compute. lia.
  - vm_compute. reflexivity.
Defined.

(** *** The handler's calls *)

Lemma bodyRead_ok b k :
  match b with RawBody _ => True | PrefixBody cr => initialised cr end →
  ∃ bs e b',
    bodyRead b k = Some (bs, e, b') ∧
    match b' with RawBody _ => True | PrefixBody cr => initialised cr end ∧
    match b, b' with
    | RawBody _, RawBody _ | PrefixBody _, PrefixBody _ => True
    | _, _ => False
    end.
Proof.
  destruct b as [src|cr]; intros Hb; cbn [bodyRead].
  - destruct (Reader_Read src k) as [[bs e] src']. eauto 10.
  - destruct (Read_spec cr k Hb) as (bs & e & cr' & -> & Hinit & _).
    cbn. eauto 10.
Qed.

Lemma bodyWriteTo_ok b dst :
  match b with RawBody _ => True | PrefixBody cr => initialised cr end →
  ∃ dst' b',
    bodyWriteTo b dst = Some (dst', b') ∧
    match b' with RawBody _ => True | PrefixBody cr => initialised cr end ∧
    match b, b' with
    | RawBody _, RawBody _ | PrefixBody _, PrefixBody _ => True
    | _, _ => False
    end.
Proof.
  destruct b as [src|cr]; intros Hb; cbn [bodyWriteTo].
  - destruct (Copy dst src) as [[[n e] dst'] src']. eauto 10.
  - destruct (WriteTo_spec cr dst Hb) as (n & e & cr' & w' & -> & Hinit & _).
    cbn. eauto 10.
Qed.

(** One call of the handler while [w] is the substituted [cachedWriter]:
    it does not panic; only [w.Header().Set] changes the header map; only
    [w.Write] runs [EnsureFilterPassed] and so can add events; every other
    call leaves [written] and the two decisions alone, and only
    [w.WriteHeader] on a writer without a status sets one. *)
Lemma handlerStep_wrapped w r op ex cw o :
  serving w r ex → ex_writer ex = Wrapped cw → ex_store ex !! w = Some o →
  ∃ ex' cw' o',
    handlerStep op ex = Some ex' ∧ serving w r ex' ∧
    ex_writer ex' = Wrapped cw' ∧ ex_store ex' !! w = Some o' ∧
    rw_header o' = headersAfter [op] (rw_header o) ∧
    cw_filters cw' = cw_filters cw ∧
    (match ex_body ex, ex_body ex' with
     | RawBody _, RawBody _ | PrefixBody _, PrefixBody _ => True
     | _, _ => False
     end) ∧
    if isWrite op then
      ∃ cw1 evs,
        EnsureFilterPassed cw (ex_store ex) = Some (cw1, evs) ∧
        ex_trace ex' = ex_trace ex ++ evs ∧
        cw' = with_PrefixWriter cw1 (cw_PrefixWriter cw')
    else
      ex_trace ex' = ex_trace ex ∧ cw_written cw' = cw_written cw ∧
      cw_dumpBody cw' = cw_dumpBody cw ∧
      cw_dumpResponse cw' = cw_dumpResponse cw ∧
      cw_statusCode cw' =
        (if (cw_statusCode cw =? 0)%Z then statusSet [op] else cw_statusCode cw).
Proof.
  intros (Hstore & Hbody & Hwr) Hcw Ho. rewrite Hcw in Hwr.
  destruct Hwr as (Hw & Hpw & Hr & Hcached).
  assert (Hsame : cw_statusCode cw =
            (if (cw_statusCode cw =? 0)%Z then 0%Z else cw_statusCode cw)).
  { destruct (Z.eqb_spec (cw_statusCode cw) 0); congruence. }
  assert (Hbody_same : match ex_body ex, ex_body ex with
     | RawBody _, RawBody _ | PrefixBody _, PrefixBody _ => True
     | _, _ => False end) by (by destruct (ex_body ex)).
  destruct op as [k|dst|key value|sc|data|src|v]; cbn [handlerStep isWrite].
  - destruct (bodyRead_ok _ k Hbody) as (bs & e & b' & -> & Hb' & Hkind).
    cbn. eexists _, cw, o. split; [reflexivity|].
    unfold serving. cbn. rewrite ?Hcw.
    repeat split; try done; try (by eexists).
  - destruct (bodyWriteTo_ok _ dst Hbody) as (dst' & b' & -> & Hb' & Hkind).
    cbn. eexists _, cw, o. split; [reflexivity|].
    unfold serving. cbn. rewrite ?Hcw.
    repeat split; try done; try (by eexists).
  - rewrite Hcw, Hw. unfold store_HeaderSet. cbn. rewrite Ho. cbn.
    eexists _, cw, _. split; [reflexivity|].
    unfold serving. cbn. rewrite ?Hcw, lookup_insert_eq.
    repeat split; try done; try (by eexists).
  - rewrite Hcw. unfold cachedWriter_WriteHeader, store_WriteHeader.
    rewrite Hw. cbn. rewrite Ho. cbn.
    destruct (Z.eqb_spec (cw_statusCode cw) 0) as [Hz|Hz];
      (eexists _, _, _; split; [reflexivity|]);
      unfold serving; cbn; rewrite lookup_insert_eq.
    + repeat split; try done; try (by eexists).
      by destruct (Z.eqb_spec sc 0).
    + repeat split; try done; try (by eexists).
  - rewrite Hcw.
    destruct (cachedWriter_Write_spec cw data (ex_store ex) w r o Hw Hpw Hr Hcached Ho)
      as (cw1 & evs & n & cw' & Hens & Heq & _ & Hcw' & Hpw' & Hlen & Hc' & _).
    destruct (EnsureFilterPassed_bound cw _ w r o cw1 evs Hw Hr Ho Hens)
      as (_ & Hw1 & Hr1 & Hf1 & _).
    rewrite Heq. cbn.
    eexists _, cw', _. split; [reflexivity|].
    unfold serving. cbn. rewrite lookup_insert_eq.
    assert (Hfields : cw_w cw' = Some w ∧ cw_request cw' = Some r ∧
                      cw_filters cw' = cw_filters cw).
    { rewrite Hcw'. cbn. by rewrite Hw1, Hr1, Hf1. }
    destruct Hfields as (? & ? & ?).
    repeat split; try done; try (by eexists).
    eauto.
  - rewrite Hcw. unfold cachedWriter_ReadFrom.
    destruct (PrefixWriter_ReadFrom_spec rw_sink rw_setSink (cw_PrefixWriter cw)
                src (ex_store ex) w o) as (n & e & pw' & src' & o' & Heq & Ho' & Hw' & Hlen & Hc');
      [done|done|done|done|].
    rewrite Heq. cbn.
    eexists _, _, o'. split; [reflexivity|].
    unfold serving. cbn. rewrite lookup_insert_eq.
    assert (rw_header o' = rw_header o).
    { destruct Ho' as [->|[s' ->]]; done. }
    repeat split; try done; try (by eexists).
  - eexists _, cw, o. split; [reflexivity|].
    unfold serving. cbn. rewrite ?Hcw.
    repeat split; try done; try (by eexists).
Qed.

(** One call of the handler on the response writer itself. *)
Lemma handlerStep_direct w r op ex :
  serving w r ex → ex_writer ex = Direct w →
  ∃ ex',
    handlerStep op ex = Some ex' ∧ serving w r ex' ∧
    ex_writer ex' = Direct w ∧ ex_trace ex' = ex_trace ex ∧
    match ex_body ex, ex_body ex' with
    | RawBody _, RawBody _ | PrefixBody _, PrefixBody _ => True
    | _, _ => False
    end.
Proof.
  intros (Hstore & Hbody & Hwr) Hd. destruct Hstore as [o Ho].
  assert (Hbody_same : match ex_body ex, ex_body ex with
     | RawBody _, RawBody _ | PrefixBody _, PrefixBody _ => True
     | _, _ => False end) by (by destruct (ex_body ex)).
  destruct op as [k|dst|key value|sc|data|src|v]; cbn [handlerStep].
  - destruct (bodyRead_ok _ k Hbody) as (bs & e & b' & -> & Hb' & Hkind).
    cbn. eexists. split; [reflexivity|].
    unfold serving. cbn. rewrite ?Hd. repeat split; try done; try (by eexists).
  - destruct (bodyWriteTo_ok _ dst Hbody) as (dst' & b' & -> & Hb' & Hkind).
    cbn. eexists. split; [reflexivity|].
    unfold serving. cbn. rewrite ?Hd. repeat split; try done; try (by eexists).
  - rewrite Hd. unfold store_HeaderSet. cbn. rewrite Ho. cbn.
    eexists. split; [reflexivity|].
    unfold serving. cbn. rewrite ?Hd, lookup_insert_eq.
    repeat split; try done; try (by eexists).
  - rewrite Hd. unfold store_WriteHeader. cbn. rewrite Ho. cbn.
    eexists. split; [reflexivity|].
    unfold serving. cbn. rewrite lookup_insert_eq.
    repeat split; try done; try (by eexists).
  - rewrite Hd, (store_Write_ok _ _ _ _ _ _ Ho). cbn.
    eexists. split; [reflexivity|].
    unfold serving. cbn. rewrite lookup_insert_eq.
    repeat split; try done; try (by eexists).
  - rewrite Hd, (store_Copy_ok _ _ _ _ _ _ Ho). cbn.
    eexists. split; [reflexivity|].
    unfold serving. cbn. rewrite lookup_insert_eq.
    repeat split; try done; try (by eexists).
  - eexists. split; [reflexivity|].
    unfold serving. cbn. rewrite ?Hd. repeat split; try done; try (by eexists).
Qed.

Lemma ServeHTTP_app ops1 ops2 ex :
  ServeHTTP (ops1 ++ ops2) ex = ServeHTTP ops1 ex ≫= ServeHTTP ops2.
Proof.
  revert ex. induction ops1 as [|op ops1 IH]; intros ex; cbn; [done|].
  destruct (handlerStep op ex) as [ex'|]; cbn; [apply IH | done].
Qed.

(** A handler given the response writer itself runs to its end and adds
    nothing to the trace. *)
Lemma ServeHTTP_direct w r ops : ∀ ex,
  serving w r ex → ex_writer ex = Direct w →
  ∃ ex',
    ServeHTTP ops ex = Some ex' ∧ serving w r ex' ∧
    ex_writer ex' = Direct w ∧ ex_trace ex' = ex_trace ex ∧
    match ex_body ex, ex_body ex' with
    | RawBody _, RawBody _ | PrefixBody _, PrefixBody _ => True
    | _, _ => False
    end.
Proof.
  induction ops as [|op ops IH]; intros ex Hs Hd; cbn [ServeHTTP].
  - exists ex. do 4 (split; [done|]). by destruct (ex_body ex).
  - destruct (handlerStep_direct w r op ex Hs Hd)
      as (ex1 & -> & Hs1 & Hd1 & Ht1 & Hb1).
    destruct (IH ex1 Hs1 Hd1) as (ex2 & Heq & Hs2 & Hd2 & Ht2 & Hb2).
    cbn. rewrite Heq. exists ex2. do 3 (split; [done|]).
    split; [congruence|].
    destruct (ex_body ex), (ex_body ex1), (ex_body ex2); done.
Qed.

Lemma headersAfter_cons op ops headers :
  headersAfter (op :: ops) headers = headersAfter ops (headersAfter [op] headers).
Proof. by destruct op. Qed.

(** The calls before the first [w.Write]: the response chain is not run,
    the status is the first one set, the header map collects the
    [Set] calls. *)
Lemma ServeHTTP_no_write w r ops : ∀ ex cw o,
  serving w r ex → ex_writer ex = Wrapped cw → ex_store ex !! w = Some o →
  forallb (λ op, negb (isWrite op)) ops = true →
  ∃ ex' cw' o',
    ServeHTTP ops ex = Some ex' ∧ serving w r ex' ∧
    ex_writer ex' = Wrapped cw' ∧ ex_store ex' !! w = Some o' ∧
    rw_header o' = headersAfter ops (rw_header o) ∧
    cw_filters cw' = cw_filters cw ∧
    ex_trace ex' = ex_trace ex ∧ cw_written cw' = cw_written cw ∧
    cw_dumpBody cw' = cw_dumpBody cw ∧
    cw_dumpResponse cw' = cw_dumpResponse cw ∧
    cw_statusCode cw' =
      (if (cw_statusCode cw =? 0)%Z then statusSet ops else cw_statusCode cw).
Proof.
  induction ops as [|op ops IH]; intros ex cw o Hs Hcw Ho Hnw; cbn [ServeHTTP].
  - exists ex, cw, o. do 10 (split; [done|]).
    cbn. by destruct (Z.eqb_spec (cw_statusCode cw) 0).
  - cbn in Hnw. apply andb_prop in Hnw as [Hop Hops].
    apply negb_true_iff in Hop.
    destruct (handlerStep_wrapped w r op ex cw o Hs Hcw Ho)
      as (ex1 & cw1 & o1 & -> & Hs1 & Hcw1 & Ho1 & Hh1 & Hf1 & _ & Hrest).
    rewrite Hop in Hrest. destruct Hrest as (Ht1 & Hwr1 & Hb1 & Hd1 & Hsc1).
    destruct (IH ex1 cw1 o1 Hs1 Hcw1 Ho1 Hops)
      as (ex2 & cw2 & o2 & Heq & Hs2 & Hcw2 & Ho2 & Hh2 & Hf2 & Ht2 & Hwr2 & Hb2 & Hd2 & Hsc2).
    cbn [mbind option_bind]. rewrite Heq. exists ex2, cw2, o2.
    do 4 (split; [done|]).
    split; [by rewrite headersAfter_cons, <- Hh1|].
    do 5 (split; [congruence|]).
    rewrite Hsc2, Hsc1.
    destruct (Z.eqb_spec (cw_statusCode cw) 0) as [Hz|Hz].
    + destruct op as [| | |sc| | |]; try done.
      cbn. destruct (sc =? 0)%Z eqn:E; cbn; rewrite ?E; done.
    + by destruct (Z.eqb_spec (cw_statusCode cw) 0).
Qed.

(** Once [written] is set, nothing the handler calls runs the response
    chain again or changes the two decisions. *)
Lemma ServeHTTP_written w r ops : ∀ ex cw,
  serving w r ex → ex_writer ex = Wrapped cw → cw_written cw = true →
  ∃ ex' cw',
    ServeHTTP ops ex = Some ex' ∧ serving w r ex' ∧
    ex_writer ex' = Wrapped cw' ∧ cw_written cw' = true ∧
    ex_trace ex' = ex_trace ex ∧
    cw_dumpBody cw' = cw_dumpBody cw ∧
    cw_dumpResponse cw' = cw_dumpResponse cw.
Proof.
  induction ops as [|op ops IH]; intros ex cw Hs Hcw Hwr; cbn [ServeHTTP].
  - exists ex, cw. done.
  - pose proof Hs as ([o Ho] & _).
    destruct (handlerStep_wrapped w r op ex cw o Hs Hcw Ho)
      as (ex1 & cw1 & o1 & -> & Hs1 & Hcw1 & Ho1 & _ & _ & _ & Hrest).
    assert (Hkeep : cw_written cw1 = true ∧ ex_trace ex1 = ex_trace ex ∧
                    cw_dumpBody cw1 = cw_dumpBody cw ∧
                    cw_dumpResponse cw1 = cw_dumpResponse cw).
    { destruct (isWrite op).
      - destruct Hrest as (cw0 & evs & Hens & Ht & Hcw0).
        unfold EnsureFilterPassed in Hens. rewrite Hwr in Hens.
        injection Hens as <- <-. rewrite Hcw0, Ht, app_nil_r. done.
      - destruct Hrest as (? & ? & ? & ? & _). repeat split; congruence. }
    destruct Hkeep as (Hwr1 & Ht1 & Hb1 & Hd1).
    destruct (IH ex1 cw1 Hs1 Hcw1 Hwr1)
      as (ex2 & cw2 & Heq & Hs2 & Hcw2 & Hwr2 & Ht2 & Hb2 & Hd2).
    cbn. rewrite Heq. exists ex2, cw2.
    do 4 (split; [done|]). repeat split; congruence.
Qed.

(** *** [Handle] *)

Lemma beforeFirstWrite_split ops :
  forallb (λ op, negb (isWrite op)) (beforeFirstWrite ops) = true ∧
  (ops = beforeFirstWrite ops ∨
   ∃ data post, ops = beforeFirstWrite ops ++ HWrite data :: post).
Proof.
  induction ops as [|op ops [IHnw IH]]; cbn [beforeFirstWrite].
  - split; [done | by left].
  - destruct (isWrite op) eqn:Hop.
    + split; [done|]. right. destruct op; try done. eauto.
    + cbn. rewrite Hop, IHnw. split; [done|].
      destruct IH as [IH|(data & post & IH)].
      * left. by rewrite <- IH.
      * right. exists data, post. by rewrite <- IH.
Qed.

Lemma filter_fmap_none {A} (f : A → Event) (p : Event → bool) (l : list A) :
  (∀ x, p (f x) = false) → List.filter p (f <$> l) = [].
Proof.
  intros Hp. induction l as [|x l IH]; cbn; [done|]. by rewrite Hp.
Qed.

(** The events of one run of the response chain: the one that marks the
    run, then the filters consulted. *)
Lemma filtered_events cw r headers sc :
  List.filter isResponseChain (filtered cw r headers sc).2
  = [EvResponseChain headers sc] ∧
  List.filter isCallback (filtered cw r headers sc).2 = [].
Proof.
  unfold filtered. rewrite filtered_loop_spec.
  destruct (list_find (λ f, (f r headers sc).1 = false) (cw_filters cw))
    as [[j g]|]; cbn [snd List.filter isResponseChain isCallback];
    rewrite !filter_fmap_none by done; done.
Qed.

Lemma needDumpRequest_events m r :
  List.filter isResponseChain (needDumpRequest m r).2 = [] ∧
  List.filter isCallback (needDumpRequest m r).2 = [].
Proof.
  unfold needDumpRequest. destruct (dumpRequest m); cbn; [|done].
  unfold filterPassed. rewrite filterPassed_loop_spec.
  destruct (list_find (λ f, (f r).1 = false) (requestFilters m))
    as [[j g]|]; cbn [snd List.filter isResponseChain isCallback];
    rewrite !filter_fmap_none by done; done.
Qed.

(** What [Handle] does after the handler returned, on a substituted
    writer: it does not panic, and runs the response chain if and only if
    no write ran it before. *)
Lemma Handle_finish w r ex cw o :
  serving w r ex → ex_writer ex = Wrapped cw → ex_store ex !! w = Some o →
  ∃ cw' evs,
    EnsureFilterPassed cw (ex_store ex) = Some (cw', evs) ∧
    cachedWriter_Header cw' (ex_store ex) = Some (rw_header o) ∧
    cw_written cw' = true ∧
    cw_PrefixWriter cw' = cw_PrefixWriter cw ∧
    List.filter isCallback evs = [] ∧
    List.filter isResponseChain evs =
      (if cw_written cw then []
       else [EvResponseChain (rw_header o)
               (if (cw_statusCode cw =? 0)%Z then StatusOK else cw_statusCode cw)]) ∧
    (cw_written cw = true → cw' = cw).
Proof.
  intros (_ & _ & Hwr) Hcw Ho. rewrite Hcw in Hwr.
  destruct Hwr as (Hw & Hpw & Hr & Hcached).
  rewrite (EnsureFilterPassed_spec cw _ w r o Hw Hr Ho).
  unfold cachedWriter_Header.
  destruct (cw_written cw) eqn:Hwritten.
  - exists cw, []. rewrite Hw. cbn. rewrite Ho. done.
  - eexists _, _. split; [reflexivity|]. cbn. rewrite Hw. cbn. rewrite Ho. cbn.
    destruct (filtered_events cw r (rw_header o)
      (if (cw_statusCode cw =? 0)%Z then StatusOK else cw_statusCode cw)) as [-> ->].
    done.
Qed.

(** The exchange [Handle] starts the handler on, when the middleware is
    enabled, is in the state [serving]; its trace so far holds no event of
    the response chain and at most one call of the request callback. *)
Lemma Handle_setup m w r body (h : gmap loc ResponseWriter) o :
  h !! w = Some o →
  ∀ body1 readers evs_req,
    (if (needDumpRequest m r).1.1 then
       if (needDumpRequest m r).1.2 then
         let '(cr, rest) := readerPool_Get m in
         let '(_, cr') := Reset cr body in
         (PrefixBody cr', rest, [EvDumpRequest r (Some (Prefix cr'))])
       else (RawBody body, readerPool m, [EvDumpRequest r None])
     else (RawBody body, readerPool m, [])) = (body1, readers, evs_req) →
    match body1 with RawBody _ => True | PrefixBody cr => initialised cr end ∧
    List.filter isResponseChain evs_req = [] ∧
    (evs_req = [] ∨ ∃ b, evs_req = [EvDumpRequest r b]).
Proof.
  intros Ho body1 readers evs_req.
  destruct ((needDumpRequest m r).1.1); [|intros [= <- <- <-]; eauto].
  destruct ((needDumpRequest m r).1.2); [|intros [= <- <- <-]; eauto 10].
  destruct (readerPool_Get m) as [cr rest].
  destruct (Reset_spec cr body) as (_ & _ & _ & _ & _ & _ & Hinit & _).
  destruct (Reset cr body) as [e cr']. intros [= <- <- <-]. eauto 10.
Qed.

(** C4 (amended).  With the middleware enabled and a response callback
    configured, [Handle] never panics on a response writer that exists and
    the response chain is run exactly once in the exchange.  It is run by
    the first [Write] call of the handler, or, when the handler returns
    without a [Write] call, by [Handle] afterwards; [WriteHeader] does not
    run it.  The chain is given the header map as it is at that moment,
    that is after the [Header().Set] calls made before the first [Write],
    also those made after [WriteHeader], and the first non-zero status
    passed to [WriteHeader] before the first [Write], or 200 if there is
    none.  [EnsureFilterPassed] on a writer whose chain has run changes
    nothing and consults no filter. *)
Theorem C4_response_chain_runs_once m next w r body
    (h : gmap loc ResponseWriter) o :
  enabled m = true → dumpResponse m = true → h !! w = Some o →
  let pre := beforeFirstWrite next in
  let status := if (statusSet pre =? 0)%Z then StatusOK else statusSet pre in
  (∃ out,
     Handle m next w r body h = Some out ∧
     List.filter isResponseChain (out_trace out)
     = [EvResponseChain (headersAfter pre (rw_header o)) status]) ∧
  (∀ cw sc h1 cw' h2,
     cachedWriter_WriteHeader cw sc h1 = Some (cw', h2) →
     cw_written cw' = cw_written cw) ∧
  (∀ cw h1, cw_written cw = true → EnsureFilterPassed cw h1 = Some (cw, [])).
Proof.
  intros Hen Hresp Ho pre status. split; [|split].
  2: { intros cw sc h1 cw' h2. unfold cachedWriter_WriteHeader.
       destruct (store_WriteHeader _ _ _); [|done]. cbn.
       intros [= <- <-]. by destruct (cw_statusCode cw =? 0)%Z. }
  2: { intros cw h1 Hwr. unfold EnsureFilterPassed. by rewrite Hwr. }
  unfold Handle. rewrite Hen, Hresp. cbn [negb].
  destruct (needDumpRequest_events m r) as [Hreq_rc _].
  destruct (needDumpRequest m r) as [[dumpReq dumpReqBody] evs_filter] eqn:Hneed.
  pose proof (Handle_setup m w r body h o Ho) as Hsetup.
  rewrite Hneed in Hsetup. cbn [fst snd] in Hsetup, Hreq_rc.
  match goal with |- context [if dumpReq then ?a else ?b] =>
    destruct (if dumpReq then a else b) as [[body1 readers] evs_req] eqn:Hreqside
  end.
  destruct (Hsetup body1 readers evs_req eq_refl) as (Hbody1 & Hreq_rc2 & _).
  destruct (writerPool_Get m) as [cw rest].
  set (cw0 := cachedWriter_Reset cw (Some w) (Some r) (responseFilters m)).
  match goal with |- context [ServeHTTP next ?e] => set (ex0 := e) end.
  assert (Hs0 : serving w r ex0).
  { unfold serving, ex0. cbn. split; [by eexists|]. split; [done|].
    repeat split; try done. lia. }
  assert (Ht0 : List.filter isResponseChain (ex_trace ex0) = []).
  { unfold ex0. cbn [ex_trace].
    rewrite !List.filter_app, Hreq_rc, Hreq_rc2. done. }
  destruct (beforeFirstWrite_split next) as [Hnw Hsplit]. fold pre in Hnw, Hsplit.
  destruct (ServeHTTP_no_write w r pre ex0 cw0 o Hs0 eq_refl Ho Hnw)
    as (ex1 & cw1 & o1 & Hrun1 & Hs1 & Hcw1 & Ho1 & Hh1 & _ & Ht1 & Hwr1 & _ & _ & Hsc1).
  cbn [cw0 cachedWriter_Reset cw_statusCode cw_written] in Hsc1, Hwr1.
  change (0 =? 0)%Z with true in Hsc1. cbn iota in Hsc1.
  destruct Hsplit as [Hall|(data & post & Hsplit)].
  - rewrite Hall, Hrun1. cbn [mbind option_bind]. rewrite Hcw1.
    destruct (Handle_finish w r ex1 cw1 o1 Hs1 Hcw1 Ho1)
      as (cw2 & evs & -> & Hhdr & _ & _ & _ & Hrc & _).
    cbn [mbind option_bind]. rewrite Hwr1, Hsc1, Hh1 in Hrc.
    destruct (cw_dumpResponse cw2).
    + rewrite Hhdr. cbn [mbind option_bind]. eexists. split; [reflexivity|].
      cbn [out_trace]. rewrite !List.filter_app, Ht1, Ht0, Hrc. done.
    + eexists. split; [reflexivity|].
      cbn [out_trace]. rewrite !List.filter_app, Ht1, Ht0, Hrc. done.
  - rewrite Hsplit, ServeHTTP_app, Hrun1. cbn [mbind option_bind ServeHTTP].
    destruct (handlerStep_wrapped w r (HWrite data) ex1 cw1 o1 Hs1 Hcw1 Ho1)
      as (ex2 & cw2 & o2 & -> & Hs2 & Hcw2 & Ho2 & _ & _ & _ & Hrest).
    cbn [isWrite] in Hrest. destruct Hrest as (cwA & evsA & Hens & Ht2 & Hcw2').
    destruct (Handle_finish w r ex1 cw1 o1 Hs1 Hcw1 Ho1)
      as (cwA' & evsA' & HensA & _ & HwrA & _ & _ & Hrc & _).
    rewrite Hens in HensA. injection HensA as <- <-.
    rewrite Hwr1, Hsc1, Hh1 in Hrc.
    assert (Hwr2 : cw_written cw2 = true) by (rewrite Hcw2'; done).
    cbn [mbind option_bind].
    destruct (ServeHTTP_written w r post ex2 cw2 Hs2 Hcw2 Hwr2)
      as (ex3 & cw3 & -> & Hs3 & Hcw3 & Hwr3 & Ht3 & _).
    cbn [mbind option_bind]. rewrite Hcw3.
    pose proof Hs3 as ([o3 Ho3] & _).
    destruct (Handle_finish w r ex3 cw3 o3 Hs3 Hcw3 Ho3)
      as (cw4 & evs4 & -> & Hhdr & _ & _ & _ & Hrc4 & _).
    rewrite Hwr3 in Hrc4. cbn [mbind option_bind].
    destruct (cw_dumpResponse cw4).
    + rewrite Hhdr. cbn [mbind option_bind]. eexists. split; [reflexivity|].
      cbn [out_trace]. rewrite !List.filter_app, Ht3, Ht2, !List.filter_app.
      rewrite Ht1, Ht0, Hrc, Hrc4. done.
    + eexists. split; [reflexivity|].
      cbn [out_trace]. rewrite !List.filter_app, Ht3, Ht2, !List.filter_app.
      rewrite Ht1, Ht0, Hrc, Hrc4. done.
Qed.

Lemma C4_response_chain_runs_once_witness :
  let rq := {| URL_Path := "/"; Header := ∅ |} in
  let rw := {| rw_header := ∅; rw_codes := [];
               rw_sink := {| sk_out := []; sk_room := None; sk_err := ErrShortWrite |} |} in
  let body := {| rd_data := []; rd_sched := []; rd_eager := false; rd_fin := EOF |} in
  let next := [HWriteHeader 404; HHeaderSet "Content-Type" "text/plain";
               HWrite (list_byte_of_string "not found"); HWriteHeader 500] in
  ∃ out,
    Handle (default (NewMiddleware true true [])
              (construct true true [EWithLimitedBody 16])) next 0 rq body {[ 0 := rw ]} = Some out ∧
    List.filter isResponseChain (out_trace out)
    = [EvResponseChain
         (headersAfter (beforeFirstWrite next) (rw_header rw))
         (if (statusSet (beforeFirstWrite next) =? 0)%Z then StatusOK
          else statusSet (beforeFirstWrite next))].
Proof.
  cbv zeta.
  refine (proj1 (C4_response_chain_runs_once _ _ 0 _ _ _ _ _ _ _)).
  - reflexivity.
  - reflexivity.
  - vm_compute. reflexivity.
Defined.

(** C4 (as stated, refuted).  The exchange [Handle] starts the handler on,
    for a middleware with a response callback; the handler sets the header
    [Content-Type] and calls [WriteHeader(404)].  After this explicit
    status the response chain has not been run: [written] is false and
    the trace holds no event of the chain. *)
Lemma C4_WriteHeader_does_not_run_the_chain :
  let rq := {| URL_Path := "/"; Header := ∅ |} in
  let rw := {| rw_header := ∅; rw_codes := [];
               rw_sink := {| sk_out := []; sk_room := None; sk_err := ErrShortWrite |} |} in
  let m := default (NewMiddleware true true [])
             (construct true true [EWithLimitedBody 16]) in
  let ex0 :=
    {| ex_enabled := true;
       ex_body := RawBody {| rd_data := []; rd_sched := []; rd_eager := false;
                             rd_fin := EOF |};
       ex_writer := Wrapped (cachedWriter_Reset (writerPool_Get m).1 (Some 0)
                               (Some rq) (responseFilters m));
       ex_store := {[ 0 := rw ]}; ex_got := []; ex_trace := [] |} in
  ¬ (∀ ex1,
       ServeHTTP [HHeaderSet "Content-Type" "text/plain"; HWriteHeader 404] ex0
       = Some ex1 →
       existsb isResponseChain (ex_trace ex1) = true ∧
       match ex_writer ex1 with
       | Wrapped cw => cw_written cw = true
       | Direct _ => False
       end).
Proof.
  cbv zeta. intros Hclaim.
  match type of Hclaim with
  | ∀ ex1, ?lhs = _ → _ => set (res := lhs) in Hclaim
  end.
  assert (Hrun : (λ ex1, existsb isResponseChain (ex_trace ex1)) <$> res = Some false)
    by (vm_compute; reflexivity).
  clearbody res. destruct res as [ex1|]; [|discriminate Hrun].
  destruct (Hclaim ex1 eq_refl) as [Hchain _].
  cbn in Hrun. congruence.
Qed.

(** C3 (evaluation at the failing input).  A middleware with the default
    filters, a body limit of 16 and both callbacks; the handler declares [Content-Type: image/png], which the
    default response filter answers with [(true, false)], and sends its
    body with [io.Copy(w, src)], that is through [ReadFrom], which
    [cachedWriter] inherits from the embedded [PrefixWriter].  The
    response callback is called with the body ["PNG-bytes"].  The same
    body sent with [w.Write] gives the callback an empty body. *)
Theorem C3_ReadFrom_captures_a_declined_body :
  let rq := {| URL_Path := "/logo.png"; Header := ∅ |} in
  let rw := {| rw_header := ∅; rw_codes := [];
               rw_sink := {| sk_out := []; sk_room := None; sk_err := ErrShortWrite |} |} in
  let body := {| rd_data := []; rd_sched := []; rd_eager := false; rd_fin := EOF |} in
  let png := list_byte_of_string "PNG-bytes" in
  let src := {| rd_data := png; rd_sched := []; rd_eager := false; rd_fin := EOF |} in
  let m := default (NewMiddleware true true [])
             (construct true true [EWithLimitedBody 16]) in
  let headers : gmap string (list string) := {[ "Content-Type" := ["image/png"] ]} in
  (List.filter isCallback ∘ out_trace <$>
     Handle m [HHeaderSet "Content-Type" "image/png"; HWriteHeader 200;
               HReadFrom src] 0 rq body {[ 0 := rw ]})
  = Some [EvDumpRequest rq None; EvDumpResponse rq 200 headers png]
  ∧
  (List.filter isCallback ∘ out_trace <$>
     Handle m [HHeaderSet "Content-Type" "image/png"; HWriteHeader 200;
               HWrite png] 0 rq body {[ 0 := rw ]})
  = Some [EvDumpRequest rq None; EvDumpResponse rq 200 headers []].
Proof. cbv zeta. split; vm_compute; reflexivity. Qed.

(** *** The switch *)

(** No call of the handler but [m.SetEnabled] reads or writes the switch. *)
Lemma handlerStep_setEnabled op v ex :
  isToggle op = false →
  handlerStep op (ex_setEnabled v ex) = ex_setEnabled v <$> handlerStep op ex.
Proof.
  intros Hop. destruct op as [k|dst|key value|sc|data|src|v']; try done;
    cbn [handlerStep ex_setEnabled ex_body ex_writer ex_store ex_got ex_trace
         ex_enabled].
  - destruct (bodyRead (ex_body ex) k) as [[[bs e] b']|]; done.
  - destruct (bodyWriteTo (ex_body ex) dst) as [[dst' b']|]; done.
  - destruct (store_HeaderSet _ key value (ex_store ex)); done.
  - destruct (ex_writer ex) as [l|cw].
    + destruct (store_WriteHeader (Some l) sc (ex_store ex)); done.
    + destruct (cachedWriter_WriteHeader cw sc (ex_store ex)) as [[cw' h']|]; done.
  - destruct (ex_writer ex) as [l|cw].
    + destruct (store_Write rw_sink rw_setSink (Some l) data (ex_store ex))
        as [[[n e] h']|]; done.
    + destruct (cachedWriter_Write cw data (ex_store ex))
        as [[[[[n e] cw'] h'] evs]|]; done.
  - destruct (ex_writer ex) as [l|cw].
    + destruct (store_Copy rw_sink rw_setSink (Some l) src (ex_store ex))
        as [[[[n e] src'] h']|]; done.
    + destruct (cachedWriter_ReadFrom cw src (ex_store ex))
        as [[[[[n e] cw'] src'] h']|]; done.
Qed.

Lemma ServeHTTP_setEnabled ops : ∀ v ex,
  forallb (λ op, negb (isToggle op)) ops = true →
  ServeHTTP ops (ex_setEnabled v ex) = ex_setEnabled v <$> ServeHTTP ops ex.
Proof.
  induction ops as [|op ops IH]; intros v ex Hops; cbn [ServeHTTP]; [done|].
  cbn in Hops. apply andb_prop in Hops as [Hop Hops].
  apply negb_true_iff in Hop.
  rewrite (handlerStep_setEnabled op v ex Hop).
  destruct (handlerStep op ex) as [ex'|]; cbn; [by apply IH | done].
Qed.

Lemma stripToggles_no_toggle ops :
  forallb (λ op, negb (isToggle op)) (stripToggles ops) = true.
Proof.
  unfold stripToggles. induction ops as [|op ops IH]; cbn; [done|].
  destruct (isToggle op) eqn:Hop; cbn; [done|]. by rewrite Hop.
Qed.

(** The handler's calls of [m.SetEnabled] decide the value of the switch
    afterwards and nothing else of the exchange. *)
Lemma ServeHTTP_toggles ops : ∀ ex,
  ServeHTTP ops ex
  = ex_setEnabled (lastToggle ops (ex_enabled ex)) <$> ServeHTTP (stripToggles ops) ex.
Proof.
  induction ops as [|op ops IH]; intros ex.
  - cbn. by destruct ex.
  - destruct (isToggle op) eqn:Hop.
    + destruct op; try done.
      change (stripToggles (HSetEnabled v :: ops)) with (stripToggles ops).
      cbn [ServeHTTP handlerStep mbind option_bind lastToggle].
      change (ServeHTTP ops (ex_setEnabled v ex)
              = ex_setEnabled (lastToggle ops v) <$> ServeHTTP (stripToggles ops) ex).
      rewrite IH. cbn [ex_setEnabled ex_enabled].
      rewrite ServeHTTP_setEnabled by apply stripToggles_no_toggle.
      by destruct (ServeHTTP (stripToggles ops) ex).
    + assert (Hstrip : stripToggles (op :: ops) = op :: stripToggles ops).
      { unfold stripToggles. cbn. by rewrite Hop. }
      assert (Hlast : ∀ v, lastToggle (op :: ops) v = lastToggle ops v).
      { intros v. by destruct op. }
      rewrite Hstrip, Hlast. cbn [ServeHTTP].
      destruct (handlerStep op ex) as [ex1|] eqn:Hstep; cbn; [|done].
      rewrite IH. do 2 f_equal.
      pose proof (handlerStep_setEnabled op (ex_enabled ex) ex Hop) as Hflag.
      assert (Hid : ex_setEnabled (ex_enabled ex) ex = ex) by (by destruct ex).
      rewrite Hid, Hstep in Hflag. cbn in Hflag.
      injection Hflag as Hflag. rewrite Hflag at 1. done.
Qed.

(** C5.  An exchange that [Handle] is entered for while the switch is off
    runs the handler on the request body and the response writer it came
    with; the handler runs to its end, no filter is consulted and no
    callback is called (the trace holds the start of the handler only),
    and filters, callbacks and pools of the middleware are untouched.  The
    switch is read once, on entry: whatever the handler does to it with
    [SetEnabled] decides the value the next exchange finds and nothing of
    the exchange in progress. *)
Theorem C5_switch_is_read_on_entry m next w r body
    (h : gmap loc ResponseWriter) o :
  h !! w = Some o →
  (enabled m = false →
     ∃ ex,
       ServeHTTP next
         {| ex_enabled := false; ex_body := RawBody body; ex_writer := Direct w;
            ex_store := h; ex_got := []; ex_trace := [EvServeHTTP false false] |}
       = Some ex ∧
       Handle m next w r body h
       = Some {| out_m := SetEnabled m (lastToggle next false);
                 out_store := ex_store ex; out_got := ex_got ex;
                 out_trace := [EvServeHTTP false false] |} ∧
       List.filter isFilterEvent [EvServeHTTP false false] = [] ∧
       List.filter isCallback [EvServeHTTP false false] = [])
  ∧
  Handle m next w r body h
  = out_setEnabled (lastToggle next (enabled m))
      <$> Handle m (stripToggles next) w r body h.
Proof.
  intros Ho. split.
  - intros Hoff. unfold Handle. rewrite Hoff. cbn [negb].
    match goal with |- context [ServeHTTP next ?e] => set (ex0 := e) end.
    assert (Hs0 : serving w r ex0).
    { unfold serving, ex0. cbn. split; [by eexists|]. done. }
    destruct (ServeHTTP_direct w r next ex0 Hs0 eq_refl)
      as (ex & Hrun & _ & _ & Ht & _).
    exists ex. split; [done|]. rewrite Hrun. cbn [mbind option_bind].
    split; [|done]. rewrite Ht. do 3 f_equal.
    rewrite ServeHTTP_toggles in Hrun.
    destruct (ServeHTTP (stripToggles next) ex0); [|done].
    cbn in Hrun. injection Hrun as <-. done.
  - unfold Handle. destruct (enabled m) eqn:Hen; cbn [negb].
    + destruct (needDumpRequest m r) as [[dumpReq dumpReqBody] evs_filter].
      match goal with |- context [if dumpReq then ?a else ?b] =>
        destruct (if dumpReq then a else b) as [[body1 readers] evs_req]
      end.
      match goal with |- context [if dumpResponse m then ?a else ?b] =>
        destruct (if dumpResponse m then a else b) as [w1 writers]
      end.
      rewrite ServeHTTP_toggles.
      match goal with |- context [ServeHTTP (stripToggles next) ?e] =>
        destruct (ServeHTTP (stripToggles next) e) as [ex|]
      end; [|done].
      cbn [fmap option_fmap option_map mbind option_bind ex_setEnabled
           ex_writer ex_store ex_body ex_got ex_trace ex_enabled].
      destruct (ex_writer ex) as [l|cw]; cbn [mbind option_bind]; [done|].
      destruct (EnsureFilterPassed cw (ex_store ex)) as [[cw' evs]|];
        cbn [mbind option_bind]; [|done].
      destruct (cw_dumpResponse cw'); [|done].
      destruct (cachedWriter_Header cw' (ex_store ex)); done.
    + rewrite ServeHTTP_toggles.
      match goal with |- context [ServeHTTP (stripToggles next) ?e] =>
        destruct (ServeHTTP (stripToggles next) e) as [ex|]
      end; done.
Qed.

Lemma C5_switch_is_read_on_entry_witness :
  let rq := {| URL_Path := "/"; Header := {[ "Content-Type" := ["application/json"] ]} |} in
  let rw := {| rw_header := ∅; rw_codes := [];
               rw_sink := {| sk_out := []; sk_room := None; sk_err := ErrShortWrite |} |} in
  let body := {| rd_data := list_byte_of_string "{}"; rd_sched := [];
                 rd_eager := false; rd_fin := EOF |} in
  let m := SetEnabled (default (NewMiddleware true true [])
                         (construct true true [EWithLimitedBody 16])) false in
  let next := [HBodyRead 8; HSetEnabled true; HWrite (list_byte_of_string "ok")] in
  ∃ ex,
    ServeHTTP next
      {| ex_enabled := false; ex_body := RawBody body; ex_writer := Direct 0;
         ex_store := {[ 0 := rw ]}; ex_got := [];
         ex_trace := [EvServeHTTP false false] |}
    = Some ex ∧
    Handle m next 0 rq body {[ 0 := rw ]}
    = Some {| out_m := SetEnabled m (lastToggle next false);
              out_store := ex_store ex; out_got := ex_got ex;
              out_trace := [EvServeHTTP false false] |} ∧
    List.filter isFilterEvent [EvServeHTTP false false] = [] ∧
    List.filter isCallback [EvServeHTTP false false] = [].
Proof.
  cbv zeta.
  refine (proj1 (C5_switch_is_read_on_entry _ _ 0 _ _ _ _ _) _).
  - vm_compute. reflexivity.
  - reflexivity.
Defined.

(** *** The pools *)

(** Inside [Handle] the handler runs to its end, whatever it calls, and
    leaves the substituted body and writer in place. *)
Lemma ServeHTTP_total w r ops : ∀ ex,
  serving w r ex →
  ∃ ex',
    ServeHTTP ops ex = Some ex' ∧ serving w r ex' ∧
    match ex_body ex, ex_body ex' with
    | RawBody _, RawBody _ | PrefixBody _, PrefixBody _ => True
    | _, _ => False
    end ∧
    match ex_writer ex, ex_writer ex' with
    | Direct _, Direct _ | Wrapped _, Wrapped _ => True
    | _, _ => False
    end.
Proof.
  induction ops as [|op ops IH]; intros ex Hs; cbn [ServeHTTP].
  - exists ex. split; [done|]. split; [done|].
    by destruct (ex_body ex), (ex_writer ex).
  - assert (Hstep : ∃ ex1, handlerStep op ex = Some ex1 ∧ serving w r ex1 ∧
      match ex_body ex, ex_body ex1 with
      | RawBody _, RawBody _ | PrefixBody _, PrefixBody _ => True
      | _, _ => False
      end ∧
      match ex_writer ex, ex_writer ex1 with
      | Direct _, Direct _ | Wrapped _, Wrapped _ => True
      | _, _ => False
      end).
    { destruct (ex_writer ex) as [l|cw] eqn:Hwr.
      - assert (l = w) as -> by (destruct Hs as (_ & _ & Hl); by rewrite Hwr in Hl).
        destruct (handlerStep_direct w r op ex Hs Hwr)
          as (ex1 & Hst & Hs1 & Hw1 & _ & Hb1).
        exists ex1. rewrite Hw1. done.
      - pose proof Hs as ([o Ho] & _).
        destruct (handlerStep_wrapped w r op ex cw o Hs Hwr Ho)
          as (ex1 & cw1 & o1 & Hst & Hs1 & Hw1 & _ & _ & _ & Hb1 & _).
        exists ex1. rewrite Hw1. done. }
    destruct Hstep as (ex1 & -> & Hs1 & Hb1 & Hw1).
    destruct (IH ex1 Hs1) as (ex2 & Heq & Hs2 & Hb2 & Hw2).
    cbn. rewrite Heq. exists ex2. split; [done|]. split; [done|].
    destruct (ex_body ex), (ex_body ex1), (ex_body ex2),
      (ex_writer ex), (ex_writer ex1), (ex_writer ex2); done.
Qed.

(** C9 (as stated, refuted).  A middleware with the default filters, a
    body limit of 16 and both callbacks serves a request with a JSON body.  The [PrefixReader] put back into
    the reader pool still holds the body source, and the [cachedWriter]
    put back into the writer pool still holds the response writer and the
    request. *)
Lemma C9_pooled_instances_keep_their_references :
  let rq := {| URL_Path := "/";
               Header := {[ "Content-Type" := ["application/json"] ]} |} in
  let rw := {| rw_header := ∅; rw_codes := [];
               rw_sink := {| sk_out := []; sk_room := None; sk_err := ErrShortWrite |} |} in
  let body := {| rd_data := list_byte_of_string "{}"; rd_sched := [];
                 rd_eager := false; rd_fin := EOF |} in
  let m := default (NewMiddleware true true [])
             (construct true true [EWithLimitedBody 16]) in
  ¬ (∀ out,
       Handle m [HBodyRead 8; HWrite (list_byte_of_string "ok")] 0 rq body {[ 0 := rw ]}
       = Some out →
       Forall (λ cr, pr_r cr = None) (readerPool (out_m out)) ∧
       Forall (λ cw, cw_w cw = None ∧ pw_w (cw_PrefixWriter cw) = None ∧
                     cw_request cw = None) (writerPool (out_m out))).
Proof.
  cbv zeta. intros Hclaim.
  match type of Hclaim with
  | ∀ out, ?lhs = _ → _ => set (res := lhs) in Hclaim
  end.
  assert (Hrun : (λ out, match readerPool (out_m out) with
                         | cr :: _ => bool_decide (is_Some (pr_r cr))
                         | [] => false
                         end) <$> res = Some true)
    by (vm_compute; reflexivity).
  clearbody res. destruct res as [out|]; [|discriminate Hrun].
  destruct (Hclaim out eq_refl) as [Hreaders _].
  cbn in Hrun. destruct (readerPool (out_m out)) as [|cr rest]; [done|].
  apply Forall_cons in Hreaders as [Hr _]. rewrite Hr in Hrun.
  discriminate Hrun.
Qed.

(** C9 (amended).  With the middleware enabled and a response callback
    configured, [Handle] puts the [cachedWriter] it used back into the
    writer pool as it is, still bound to the response writer and the
    request of the exchange; and, when the request body was captured, the
    [PrefixReader] it used back into the reader pool, still holding the
    body source.  The references are replaced when the instance is next
    taken from the pool: [cachedWriter.Reset] sets sink, request and
    filters to its arguments and clears status, flags and the captured
    prefix, and [PrefixReader.Reset] leaves a reader whose source, cursor,
    stored condition and prefix depend on the new source and on the
    capacity of the cache only. *)
Theorem C9_pooled_instances_are_rebound_on_checkout m next w r body
    (h : gmap loc ResponseWriter) o :
  enabled m = true → dumpResponse m = true → h !! w = Some o →
  (∃ out,
     Handle m next w r body h = Some out ∧
     (∃ cw, writerPool (out_m out) = cw :: (writerPool_Get m).2 ∧
            cw_w cw = Some w ∧ pw_w (cw_PrefixWriter cw) = Some w ∧
            cw_request cw = Some r) ∧
     ((needDumpRequest m r).1 = (true, true) →
        ∃ cr src, readerPool (out_m out) = cr :: (readerPool_Get m).2 ∧
                  pr_r cr = Some src))
  ∧
  (∀ cw w' r' fs,
     let cw' := cachedWriter_Reset cw w' r' fs in
     cw_w cw' = w' ∧ pw_w (cw_PrefixWriter cw') = w' ∧ cw_request cw' = r' ∧
     cw_filters cw' = fs ∧ cw_statusCode cw' = 0%Z ∧ cw_written cw' = false ∧
     cw_dumpBody cw' = false ∧ cw_dumpResponse cw' = false ∧
     PrefixW (cw_PrefixWriter cw') = [] ∧
     length (pw_cache (cw_PrefixWriter cw')) = length (pw_cache (cw_PrefixWriter cw)))
  ∧
  (∀ cr1 cr2 src,
     length (pr_cache cr1) = length (pr_cache cr2) →
     (Reset cr1 src).1 = (Reset cr2 src).1 ∧
     pr_r (Reset cr1 src).2 = pr_r (Reset cr2 src).2 ∧
     pr_read (Reset cr1 src).2 = pr_read (Reset cr2 src).2 ∧
     pr_cached (Reset cr1 src).2 = pr_cached (Reset cr2 src).2 ∧
     pr_err (Reset cr1 src).2 = pr_err (Reset cr2 src).2 ∧
     Prefix (Reset cr1 src).2 = Prefix (Reset cr2 src).2).
Proof.
  intros Hen Hresp Ho. split; [|split].
  - unfold Handle. rewrite Hen, Hresp. cbn [negb].
    pose proof (Handle_setup m w r body h o Ho) as Hsetup.
    destruct (needDumpRequest m r) as [[dumpReq dumpReqBody] evs_filter] eqn:Hneed.
    cbn [fst snd] in Hsetup.
    match goal with |- context [if dumpReq then ?a else ?b] =>
      destruct (if dumpReq then a else b) as [[body1 readers] evs_req] eqn:Hreqside
    end.
    destruct (Hsetup body1 readers evs_req eq_refl) as (Hbody1 & _ & _).
    destruct (writerPool_Get m) as [cw rest].
    match goal with |- context [ServeHTTP next ?e] => set (ex0 := e) end.
    assert (Hs0 : serving w r ex0).
    { unfold serving, ex0. cbn. split; [by eexists|]. split; [done|].
      repeat split; try done. lia. }
    destruct (ServeHTTP_total w r next ex0 Hs0) as (ex & -> & Hs & Hbk & Hwk).
    cbn [mbind option_bind]. cbn [ex0 ex_writer ex_body] in Hbk, Hwk.
    destruct (ex_writer ex) as [l|cw1] eqn:Hcw1; [done|].
    pose proof Hs as ([o1 Ho1] & Hb1 & Hbound). rewrite Hcw1 in Hbound.
    destruct Hbound as (Hw1 & Hpw1 & Hr1 & _).
    destruct (Handle_finish w r ex cw1 o1 Hs Hcw1 Ho1)
      as (cw2 & evs & Hens & Hhdr & _ & Hpw2 & _).
    destruct (EnsureFilterPassed_bound cw1 _ w r o1 cw2 evs Hw1 Hr1 Ho1 Hens)
      as (_ & Hw2 & Hr2 & _).
    rewrite Hens. cbn [mbind option_bind].
    assert (Hreader : (dumpReq, dumpReqBody) = (true, true) →
      ∃ cr src, ex_body ex = PrefixBody cr ∧ readers = (readerPool_Get m).2 ∧
                pr_r cr = Some src).
    { intros [= -> ->].
      destruct (readerPool_Get m) as [cr0 rest0].
      destruct (Reset cr0 body) as [e cr0']. injection Hreqside as <- <- _.
      destruct (ex_body ex) as [|cr]; [done|].
      destruct Hb1 as (_ & _ & Hsrc). destruct (pr_r cr) as [src|] eqn:Hpr; [|done].
      exists cr, src. done. }
    assert (Hout : ∀ evs_resp,
      ∃ out,
        Some {| out_m := set_pools (SetEnabled m (ex_enabled ex)) (cw2 :: rest)
                           match ex_body ex with
                           | RawBody _ => readers
                           | PrefixBody cr => cr :: readers
                           end;
                out_store := ex_store ex; out_got := ex_got ex;
                out_trace := ex_trace ex ++ evs_resp |} = Some out ∧
        (∃ cw, writerPool (out_m out) = cw :: rest ∧
               cw_w cw = Some w ∧ pw_w (cw_PrefixWriter cw) = Some w ∧
               cw_request cw = Some r) ∧
        ((dumpReq, dumpReqBody) = (true, true) →
           ∃ cr src, readerPool (out_m out) = cr :: (readerPool_Get m).2 ∧
                     pr_r cr = Some src)).
    { intros evs_resp. eexists. split; [reflexivity|]. cbn. split.
      - exists cw2. rewrite Hpw2. done.
      - intros Hboth. destruct (Hreader Hboth) as (cr & src & -> & -> & Hsrc).
        eauto. }
    destruct (cw_dumpResponse cw2).
    + rewrite Hhdr. cbn [mbind option_bind]. apply Hout.
    + apply Hout.
  - intros cw w' r' fs. cbn. done.
  - intros cr1 cr2 src Hlen. unfold Reset. rewrite <- Hlen.
    pose proof (ReadAtLeast_buf src (pr_cache cr1) (pr_cache cr2)
                  (length (pr_cache cr1)) Hlen) as (Hn & He & Hr).
    destruct (ReadAtLeast src (pr_cache cr1) _) as [[[n1 e1] c1] r1] eqn:H1.
    destruct (ReadAtLeast src (pr_cache cr2) _) as [[[n2 e2] c2] r2] eqn:H2.
    cbn in Hn, He, Hr. subst n2 e2 r2. cbn.
    repeat split; try done.
    apply ReadAtLeast_full in H1 as (_ & -> & _).
    rewrite Hlen in H2. apply ReadAtLeast_full in H2 as (Hn2 & -> & _).
    unfold Prefix. cbn.
    rewrite !take_app_le by (rewrite length_take; lia). done.
Qed.

Lemma C9_pooled_instances_are_rebound_on_checkout_witness :
  let rq := {| URL_Path := "/";
               Header := {[ "Content-Type" := ["application/json"] ]} |} in
  let rw := {| rw_header := ∅; rw_codes := [];
               rw_sink := {| sk_out := []; sk_room := None; sk_err := ErrShortWrite |} |} in
  let body := {| rd_data := list_byte_of_string "{}"; rd_sched := [];
                 rd_eager := false; rd_fin := EOF |} in
  let m := default (NewMiddleware true true [])
             (construct true true [EWithLimitedBody 16]) in
  ∃ out,
    Handle m [HBodyRead 8; HWrite (list_byte_of_string "ok")] 0 rq body {[ 0 := rw ]}
    = Some out ∧
    (∃ cw, writerPool (out_m out) = cw :: (writerPool_Get m).2 ∧
           cw_w cw = Some 0 ∧ pw_w (cw_PrefixWriter cw) = Some 0 ∧
           cw_request cw = Some rq) ∧
    ((needDumpRequest m rq).1 = (true, true) →
       ∃ cr src, readerPool (out_m out) = cr :: (readerPool_Get m).2 ∧
                 pr_r cr = Some src).
Proof.
  cbv zeta.
  refine (proj1 (C9_pooled_instances_are_rebound_on_checkout _ _ 0 _ _ _ _ _ _ _)).
  - reflexivity.
  - reflexivity.
  - vm_compute. reflexivity.
Defined.

(** *** What the callbacks are given *)

(** What one call of the handler, other than a bulk transfer, does to the
    capture buffer of the substituted writer: nothing, unless it is a
    [Write] and the response chain allowed the body. *)
Lemma handlerStep_capture w r op ex cw o ex' cw' :
  serving w r ex → ex_writer ex = Wrapped cw → ex_store ex !! w = Some o →
  handlerStep op ex = Some ex' → ex_writer ex' = Wrapped cw' →
  isReadFrom op = false →
  length (pw_cache (cw_PrefixWriter cw')) = length (pw_cache (cw_PrefixWriter cw)) ∧
  PrefixW (cw_PrefixWriter cw')
  = PrefixW (cw_PrefixWriter cw)
    ++ match op with
       | HWrite data =>
           if cw_dumpBody cw'
           then take (length (pw_cache (cw_PrefixWriter cw))
                      - pw_cached (cw_PrefixWriter cw)) data
           else []
       | _ => []
       end.
Proof.
  intros (Hstore & Hbody & Hwr) Hcw Ho Hstep Hcw' Hrf. rewrite Hcw in Hwr.
  destruct Hwr as (Hw & Hpw & Hr & Hcached).
  destruct op as [k|dst|key value|sc|data|src|v]; try done;
    cbn [handlerStep] in Hstep; rewrite ?Hcw in Hstep.
  - destruct (bodyRead (ex_body ex) k) as [[[bs e] b']|]; [|done].
    cbn in Hstep. injection Hstep as <-. cbn in Hcw'. rewrite ?Hcw in Hcw'.
    injection Hcw' as <-. by rewrite app_nil_r.
  - destruct (bodyWriteTo (ex_body ex) dst) as [[dst' b']|]; [|done].
    cbn in Hstep. injection Hstep as <-. cbn in Hcw'. rewrite ?Hcw in Hcw'.
    injection Hcw' as <-. by rewrite app_nil_r.
  - destruct (store_HeaderSet _ key value (ex_store ex)); [|done].
    cbn in Hstep. injection Hstep as <-. cbn in Hcw'. rewrite ?Hcw in Hcw'.
    injection Hcw' as <-. by rewrite app_nil_r.
  - unfold cachedWriter_WriteHeader in Hstep.
    destruct (store_WriteHeader _ sc (ex_store ex)); [|done].
    cbn in Hstep. injection Hstep as <-. cbn in Hcw'.
    injection Hcw' as <-. rewrite app_nil_r.
    by destruct (cw_statusCode cw =? 0)%Z.
  - destruct (cachedWriter_Write_spec cw data (ex_store ex) w r o Hw Hpw Hr Hcached Ho)
      as (cw1 & evs & n & cw2 & Hens & Heq & _ & Hcw2 & _ & Hlen & _ & Hpre).
    rewrite Heq in Hstep. cbn in Hstep. injection Hstep as <-.
    cbn in Hcw'. injection Hcw' as <-.
    split; [done|]. rewrite Hpre.
    assert (Hb : cw_dumpBody cw2 = cw_dumpBody cw1) by (by rewrite Hcw2).
    by rewrite Hb.
  - injection Hstep as <-. cbn in Hcw'. rewrite ?Hcw in Hcw'.
    injection Hcw' as <-. by rewrite app_nil_r.
Qed.

Lemma take_take_app {A} (n : nat) (l1 l2 : list A) :
  take n (take n l1 ++ l2) = take n (l1 ++ l2).
Proof.
  destruct (decide (n ≤ length l1)).
  - rewrite !take_app_le by (rewrite ?length_take; lia).
    rewrite take_take. f_equal. lia.
  - rewrite (take_ge l1) by lia. done.
Qed.

(** After the response chain has run, and as long as the handler makes no
    bulk transfer: the status and the decisions stay, the header map
    collects the [Set] calls, and the captured prefix is the first bytes
    written, if the chain allowed the body. *)
Lemma ServeHTTP_written_capture w r ops : ∀ ex cw o,
  serving w r ex → ex_writer ex = Wrapped cw → ex_store ex !! w = Some o →
  cw_written cw = true → cw_statusCode cw ≠ 0%Z →
  forallb (λ op, negb (isReadFrom op)) ops = true →
  ∃ ex' cw' o',
    ServeHTTP ops ex = Some ex' ∧ serving w r ex' ∧
    ex_writer ex' = Wrapped cw' ∧ ex_store ex' !! w = Some o' ∧
    rw_header o' = headersAfter ops (rw_header o) ∧
    cw_written cw' = true ∧ ex_trace ex' = ex_trace ex ∧
    cw_dumpBody cw' = cw_dumpBody cw ∧
    cw_dumpResponse cw' = cw_dumpResponse cw ∧
    cw_statusCode cw' = cw_statusCode cw ∧
    length (pw_cache (cw_PrefixWriter cw')) = length (pw_cache (cw_PrefixWriter cw)) ∧
    PrefixW (cw_PrefixWriter cw')
    = take (length (pw_cache (cw_PrefixWriter cw)))
        (PrefixW (cw_PrefixWriter cw)
         ++ (if cw_dumpBody cw then bodyWritten ops else [])).
Proof.
  induction ops as [|op ops IH]; intros ex cw o Hs Hcw Ho Hwr Hsc Hrf;
    cbn [ServeHTTP].
  - exists ex, cw, o. do 11 (split; [done|]).
    pose proof Hs as (_ & _ & Hbound). rewrite Hcw in Hbound.
    destruct Hbound as (_ & _ & _ & Hcached).
    cbn [bodyWritten]. replace (if cw_dumpBody cw then [] else []) with (@nil byte)
      by (by destruct (cw_dumpBody cw)).
    rewrite app_nil_r. unfold PrefixW. rewrite take_take. f_equal. lia.
  - cbn in Hrf. apply andb_prop in Hrf as [Hop Hops].
    apply negb_true_iff in Hop.
    destruct (handlerStep_wrapped w r op ex cw o Hs Hcw Ho)
      as (ex1 & cw1 & o1 & Hstep & Hs1 & Hcw1 & Ho1 & Hh1 & _ & _ & Hrest).
    destruct (handlerStep_capture w r op ex cw o ex1 cw1 Hs Hcw Ho Hstep Hcw1 Hop)
      as (Hlen1 & Hpre1).
    assert (Hkeep : cw_written cw1 = true ∧ ex_trace ex1 = ex_trace ex ∧
                    cw_dumpBody cw1 = cw_dumpBody cw ∧
                    cw_dumpResponse cw1 = cw_dumpResponse cw ∧
                    cw_statusCode cw1 = cw_statusCode cw).
    { destruct (isWrite op).
      - destruct Hrest as (cw0 & evs & Hens & Ht & Hcw0).
        unfold EnsureFilterPassed in Hens. rewrite Hwr in Hens.
        injection Hens as <- <-. rewrite Hcw0, Ht, app_nil_r. done.
      - destruct Hrest as (? & ? & ? & ? & Hst). repeat split; try congruence.
        rewrite Hst. destruct (Z.eqb_spec (cw_statusCode cw) 0); done. }
    destruct Hkeep as (Hwr1 & Ht1 & Hb1 & Hd1 & Hsc1).
    destruct (IH ex1 cw1 o1 Hs1 Hcw1 Ho1 Hwr1 ltac:(congruence) Hops)
      as (ex2 & cw2 & o2 & Heq & Hs2 & Hcw2 & Ho2 & Hh2 & Hwr2 & Ht2 & Hb2 & Hd2
          & Hsc2 & Hlen2 & Hpre2).
    rewrite Hstep. cbn [mbind option_bind]. rewrite Heq. exists ex2, cw2, o2.
    do 4 (split; [done|]).
    split; [by rewrite headersAfter_cons, <- Hh1|].
    split; [done|]. do 5 (split; [congruence|]).
    rewrite Hpre2, Hlen1, Hpre1, Hb1.
    pose proof Hs as (_ & _ & Hbound). rewrite Hcw in Hbound.
    destruct Hbound as (_ & _ & _ & Hcached).
    set (P := length (pw_cache (cw_PrefixWriter cw))) in *.
    set (X := PrefixW (cw_PrefixWriter cw)).
    assert (HX : length X = pw_cached (cw_PrefixWriter cw)).
    { unfold X, PrefixW. rewrite length_take. lia. }
    assert (Hgrow : ∀ d, X ++ take (P - pw_cached (cw_PrefixWriter cw)) d
                         = take P (X ++ d)).
    { intros d. rewrite take_app_ge by lia. by rewrite HX. }
    destruct op as [k|dst|key value|sc|data|src|v]; try done;
      cbn [bodyWritten]; rewrite ?app_nil_r; try done.
    destruct (cw_dumpBody cw); [|by rewrite !app_nil_r].
    rewrite Hgrow, take_take_app, app_assoc. done.
Qed.

Lemma ServeHTTP_no_write_capture w r ops : ∀ ex cw o ex' cw',
  serving w r ex → ex_writer ex = Wrapped cw → ex_store ex !! w = Some o →
  forallb (λ op, negb (isWrite op)) ops = true →
  forallb (λ op, negb (isReadFrom op)) ops = true →
  ServeHTTP ops ex = Some ex' → ex_writer ex' = Wrapped cw' →
  length (pw_cache (cw_PrefixWriter cw')) = length (pw_cache (cw_PrefixWriter cw)) ∧
  PrefixW (cw_PrefixWriter cw') = PrefixW (cw_PrefixWriter cw).
Proof.
  induction ops as [|op ops IH]; intros ex cw o ex' cw' Hs Hcw Ho Hnw Hrf Hrun Hcw';
    cbn [ServeHTTP] in Hrun.
  - injection Hrun as <-. rewrite Hcw in Hcw'. by injection Hcw' as <-.
  - cbn in Hnw, Hrf. apply andb_prop in Hnw as [Hop Hops].
    apply andb_prop in Hrf as [Hop' Hops'].
    apply negb_true_iff in Hop, Hop'.
    destruct (handlerStep_wrapped w r op ex cw o Hs Hcw Ho)
      as (ex1 & cw1 & o1 & Hstep & Hs1 & Hcw1 & Ho1 & _).
    destruct (handlerStep_capture w r op ex cw o ex1 cw1 Hs Hcw Ho Hstep Hcw1 Hop')
      as (Hlen1 & Hpre1).
    rewrite Hstep in Hrun. cbn [mbind option_bind] in Hrun.
    destruct (IH ex1 cw1 o1 ex' cw' Hs1 Hcw1 Ho1 Hops Hops' Hrun Hcw') as (Hlen2 & Hpre2).
    split; [congruence|]. rewrite Hpre2, Hpre1.
    destruct op; try done; by rewrite app_nil_r.
Qed.

(** The request side of [Handle]: the callback is called if and only if
    the request chain says so, with no body when the chain declined it and
    with the first bytes of the body otherwise. *)
Lemma Handle_setup_events m r body body1 readers evs_req :
  (if (needDumpRequest m r).1.1 then
     if (needDumpRequest m r).1.2 then
       let '(cr, rest) := readerPool_Get m in
       let '(_, cr') := Reset cr body in
       (PrefixBody cr', rest, [EvDumpRequest r (Some (Prefix cr'))])
     else (RawBody body, readerPool m, [EvDumpRequest r None])
   else (RawBody body, readerPool m, [])) = (body1, readers, evs_req) →
  evs_req =
    if (needDumpRequest m r).1.1 then
      [EvDumpRequest r
         (if (needDumpRequest m r).1.2
          then Some (take (length (pr_cache (readerPool_Get m).1)) (rd_data body))
          else None)]
    else [].
Proof.
  destruct ((needDumpRequest m r).1.1); [|by intros [= <- <- <-]].
  destruct ((needDumpRequest m r).1.2); [|by intros [= <- <- <-]].
  destruct (readerPool_Get m) as [cr rest]. cbn [fst].
  destruct (Reset_spec cr body) as (_ & _ & _ & _ & Hpre & _).
  destruct (Reset cr body) as [e cr']. intros [= <- <- <-].
  cbn in Hpre. by rewrite Hpre.
Qed.

(** X11.  What the two callbacks are given in an exchange whose handler
    makes no bulk transfer ([ReadFrom]) into the response writer.  The
    request callback is called if the request chain says so, with the first
    bytes of the body (as many as the cache holds), or with no body if the
    chain declined it.  The response callback is called if the response
    chain says so, with the first status set before the first [Write]
    ([200] if none), the final header map, and the first bytes the handler
    wrote, or an empty body if the chain declined it.  The request callback
    comes first, and nothing else is called. *)
Theorem X11_callbacks_of_an_exchange m next w r body (h : gmap loc ResponseWriter) o :
  enabled m = true → h !! w = Some o →
  forallb (λ op, negb (isReadFrom op)) next = true →
  let pre := beforeFirstWrite next in
  let status := if (statusSet pre =? 0)%Z then StatusOK else statusSet pre in
  let chain :=
    filtered_loop r (headersAfter pre (rw_header o)) status (responseFilters m) 0 true in
  ∃ out,
    Handle m next w r body h = Some out ∧
    List.filter isCallback (out_trace out)
    = (if (needDumpRequest m r).1.1 then
         [EvDumpRequest r
            (if (needDumpRequest m r).1.2
             then Some (take (length (pr_cache (readerPool_Get m).1)) (rd_data body))
             else None)]
       else [])
      ++ (if dumpResponse m && chain.1.1 then
            [EvDumpResponse r status (headersAfter next (rw_header o))
               (if chain.1.2
                then take (length (pw_cache (cw_PrefixWriter (writerPool_Get m).1)))
                       (bodyWritten next)
                else [])]
          else []).
Proof.
  intros Hen Ho Hrf pre status chain.
  unfold Handle. rewrite Hen. cbn [negb].
  destruct (needDumpRequest_events m r) as [_ Hreq_cb].
  pose proof (Handle_setup m w r body h o Ho) as Hsetup.
  pose proof (Handle_setup_events m r body) as Hsetup_ev.
  destruct (needDumpRequest m r) as [[dumpReq dumpReqBody] evs_filter] eqn:Hneed.
  cbn [fst snd] in Hsetup, Hsetup_ev, Hreq_cb |- *.
  match type of Hsetup_ev with ∀ b1 rd ev, ?t = _ → _ =>
    destruct t as [[body1 readers] evs_req] eqn:Hreqside
  end.
  destruct (Hsetup body1 readers evs_req eq_refl) as (Hbody1 & _ & _).
  pose proof (Hsetup_ev body1 readers evs_req eq_refl) as Hev.
  assert (Hev_cb : List.filter isCallback evs_req = evs_req).
  { rewrite Hev. by destruct dumpReq. }
  assert (Ht0 : ∀ b1 b2, List.filter isCallback
                  (evs_filter ++ evs_req ++ [EvServeHTTP b1 b2]) = evs_req).
  { intros b1 b2. rewrite !List.filter_app, Hreq_cb, Hev_cb. cbn.
    by rewrite app_nil_r. }
  destruct (dumpResponse m) eqn:Hresp; cbn [andb].
  - destruct (writerPool_Get m) as [cw rest]. cbn [fst].
    set (cw0 := cachedWriter_Reset cw (Some w) (Some r) (responseFilters m)).
    match goal with |- context [ServeHTTP next ?e] => set (ex0 := e) end.
    assert (Hs0 : serving w r ex0).
    { unfold serving, ex0. cbn. split; [by eexists|]. split; [done|].
      repeat split; try done. lia. }
    assert (Hpw0 : PrefixW (cw_PrefixWriter cw0) = [] ∧
                   length (pw_cache (cw_PrefixWriter cw0))
                   = length (pw_cache (cw_PrefixWriter cw))) by done.
    destruct Hpw0 as [Hpre0 Hlen0].
    destruct (beforeFirstWrite_split next) as [Hnw Hsplit]. fold pre in Hnw, Hsplit.
    assert (Hrf_pre : forallb (λ op, negb (isReadFrom op)) pre = true ∧
                      ∀ data post, next = pre ++ HWrite data :: post →
                        forallb (λ op, negb (isReadFrom op)) post = true).
    { split.
      - destruct Hsplit as [<-|(data & post & Heq)]; [done|].
        rewrite Heq, forallb_app in Hrf. by apply andb_prop in Hrf as [? _].
      - intros data post Heq. rewrite Heq, forallb_app in Hrf.
        apply andb_prop in Hrf as [_ Hrf']. cbn in Hrf'. done. }
    destruct Hrf_pre as [Hrf_pre Hrf_post].
    destruct (ServeHTTP_no_write w r pre ex0 cw0 o Hs0 eq_refl Ho Hnw)
      as (ex1 & cw1 & o1 & Hrun1 & Hs1 & Hcw1 & Ho1 & Hh1 & Hf1 & Ht1 & Hwr1 & _ & _ & Hsc1).
    destruct (ServeHTTP_no_write_capture w r pre ex0 cw0 o ex1 cw1
                Hs0 eq_refl Ho Hnw Hrf_pre Hrun1 Hcw1) as (Hlen1 & Hpre1).
    cbn [cw0 cachedWriter_Reset cw_statusCode cw_written cw_filters] in Hsc1, Hwr1, Hf1.
    change (0 =? 0)%Z with true in Hsc1. cbn iota in Hsc1.
    pose proof Hs1 as (_ & _ & Hbound1). rewrite Hcw1 in Hbound1.
    destruct Hbound1 as (Hw1 & Hpw1 & Hr1 & Hcached1).
    pose proof (EnsureFilterPassed_spec cw1 (ex_store ex1) w r o1 Hw1 Hr1 Ho1) as Hens1.
    rewrite Hwr1, Hsc1, Hh1 in Hens1. fold status in Hens1.
    unfold filtered in Hens1. rewrite Hf1 in Hens1. fold chain in Hens1.
    destruct chain as [[d b] evs_chain] eqn:Hchain. cbn [fst snd] in Hens1 |- *.
    assert (Hchain_cb : ∀ tail, List.filter isCallback
              ((EvResponseChain (headersAfter pre (rw_header o)) status :: evs_chain)
               ++ tail) = List.filter isCallback tail).
    { intros tail.
      pose proof (filtered_events cw1 r (headersAfter pre (rw_header o)) status) as [_ Hcb].
      unfold filtered in Hcb. rewrite Hf1 in Hcb. fold chain in Hcb.
      rewrite Hchain in Hcb. cbn [snd] in Hcb.
      by rewrite List.filter_app, Hcb. }
    assert (Hstatus : (status =? 0)%Z = false).
    { apply Z.eqb_neq. unfold status, StatusOK.
      destruct (Z.eqb_spec (statusSet pre) 0); lia. }
    assert (Hbw_pre : bodyWritten pre = []).
    { clear -Hnw. induction pre as [|op pre IH]; [done|].
      cbn in Hnw. apply andb_prop in Hnw as [Hop Hops].
      destruct op; try done; by apply IH. }
    assert (Hbw_app : ∀ data post,
              bodyWritten (pre ++ HWrite data :: post) = data ++ bodyWritten post).
    { intros data post. clear -Hnw. induction pre as [|op pre IH]; [done|].
      cbn in Hnw. apply andb_prop in Hnw as [Hop Hops].
      destruct op; try done; by apply IH. }
    assert (Hhd_app : ∀ data post hd,
              headersAfter (pre ++ HWrite data :: post) hd
              = headersAfter post (headersAfter pre hd)).
    { intros data post. generalize pre. clear.
      induction pre as [|op pre IH]; intros hd; [done|].
      destruct op; cbn [app headersAfter]; apply IH. }
    destruct Hsplit as [Hall|(data & post & Hsplit)].
    + rewrite Hall, Hrun1. cbn [mbind option_bind]. rewrite Hcw1, Hens1.
      cbn [mbind option_bind cw_dumpResponse].
      destruct d.
      * unfold cachedWriter_Header. cbn [cw_w]. rewrite Hw1.
        cbn [mbind option_bind]. rewrite Ho1. cbn [mbind option_bind].
        eexists. split; [reflexivity|]. cbn [out_trace].
        rewrite !List.filter_app, Ht1. unfold ex0. cbn [ex_trace].
        rewrite Ht0. rewrite <- List.filter_app, Hchain_cb.
        cbn [List.filter isCallback cw_PrefixWriter]. rewrite <- Hev.
        do 3 f_equal.
        { unfold Status. cbn [cw_statusCode]. by rewrite Hstatus. }
        { done. }
        rewrite Hpre1, Hpre0, Hbw_pre, take_nil. by destruct b.
      * eexists. split; [reflexivity|]. cbn [out_trace].
        rewrite !List.filter_app, Ht1. unfold ex0. cbn [ex_trace].
        rewrite Ht0. rewrite <- (app_nil_r (_ :: evs_chain)), Hchain_cb.
        by rewrite <- Hev.
    + rewrite Hsplit, ServeHTTP_app, Hrun1. cbn [mbind option_bind ServeHTTP].
      destruct (handlerStep_wrapped w r (HWrite data) ex1 cw1 o1 Hs1 Hcw1 Ho1)
        as (ex2 & cw2 & o2 & Hstep2 & Hs2 & Hcw2 & Ho2 & Hh2 & _ & _ & Hrest).
      cbn [isWrite] in Hrest. destruct Hrest as (cwA & evsA & HensA & Ht2 & Hcw2').
      rewrite Hens1 in HensA. injection HensA as <- <-.
      destruct (handlerStep_capture w r (HWrite data) ex1 cw1 o1 ex2 cw2
                  Hs1 Hcw1 Ho1 Hstep2 Hcw2 eq_refl) as (Hlen2 & Hpre2).
      assert (Hfields2 : cw_written cw2 = true ∧ cw_statusCode cw2 = status ∧
                         cw_dumpBody cw2 = b ∧ cw_dumpResponse cw2 = d).
      { rewrite Hcw2'. done. }
      destruct Hfields2 as (Hwr2 & Hsc2 & Hb2 & Hd2).
      rewrite Hstep2. cbn [mbind option_bind].
      assert (Hsc2' : cw_statusCode cw2 ≠ 0%Z).
      { rewrite Hsc2. by apply Z.eqb_neq. }
      destruct (ServeHTTP_written_capture w r post ex2 cw2 o2 Hs2 Hcw2 Ho2 Hwr2
                  Hsc2' (Hrf_post data post Hsplit))
        as (ex3 & cw3 & o3 & -> & Hs3 & Hcw3 & Ho3 & Hh3 & Hwr3 & Ht3 & Hb3 & Hd3
            & Hsc3 & Hlen3 & Hpre3).
      cbn [mbind option_bind]. rewrite Hcw3.
      unfold EnsureFilterPassed. rewrite Hwr3. cbn [mbind option_bind].
      assert (Hhdr : rw_header o3 = headersAfter (pre ++ HWrite data :: post) (rw_header o)).
      { rewrite Hh3, Hh2, Hh1, Hhd_app. done. }
      assert (Hbody : PrefixW (cw_PrefixWriter cw3)
                = if b then take (length (pw_cache (cw_PrefixWriter cw)))
                              (bodyWritten (pre ++ HWrite data :: post)) else []).
      { assert (Hzero : pw_cached (cw_PrefixWriter cw1) = 0).
        { pose proof (f_equal length Hpre1) as Hl. rewrite Hpre0 in Hl.
          unfold PrefixW in Hl. rewrite length_take in Hl. cbn in Hl. lia. }
        rewrite Hpre3, Hlen2, Hlen1, Hlen0, Hpre2, Hpre1, Hpre0, Hb2.
        rewrite Hbw_app, Hzero, Nat.sub_0_r, Hlen1, Hlen0. cbn [app].
        destruct b; [|by rewrite app_nil_r, take_nil].
        by rewrite take_take_app. }
      pose proof Hs3 as (_ & _ & Hbound3). rewrite Hcw3 in Hbound3.
      destruct Hbound3 as (Hw3 & _).
      rewrite Hd3, Hd2. destruct d.
      * unfold cachedWriter_Header. rewrite Hw3.
        cbn [mbind option_bind]. rewrite Ho3. cbn [mbind option_bind].
        eexists. split; [reflexivity|]. cbn [out_trace].
        rewrite !List.filter_app, Ht3, Ht2, !List.filter_app, Ht1.
        unfold ex0. cbn [ex_trace].
        rewrite Ht0. rewrite <- (app_nil_r (_ :: evs_chain)), Hchain_cb.
        cbn [List.filter isCallback app]. rewrite app_nil_r, <- Hev.
        do 3 f_equal.
        { unfold Status. by rewrite Hsc3, Hsc2, Hstatus. }
        { done. }
        done.
      * eexists. split; [reflexivity|]. cbn [out_trace].
        rewrite !List.filter_app, Ht3, Ht2, !List.filter_app, Ht1.
        unfold ex0. cbn [ex_trace].
        rewrite Ht0. rewrite <- (app_nil_r (_ :: evs_chain)), Hchain_cb.
        rewrite <- Hev. cbn [List.filter]. by rewrite !app_nil_r.
  - match goal with |- context [ServeHTTP next ?e] => set (ex0 := e) end.
    assert (Hs0 : serving w r ex0).
    { unfold serving, ex0. cbn. split; [by eexists|]. done. }
    destruct (ServeHTTP_direct w r next ex0 Hs0 eq_refl)
      as (ex1 & -> & _ & Hd1 & Ht1 & _).
    cbn [mbind option_bind]. rewrite Hd1. cbn [mbind option_bind].
    eexists. split; [reflexivity|]. cbn [out_trace].
    rewrite app_nil_r, Ht1. unfold ex0. cbn [ex_trace].
    by rewrite Ht0, app_nil_r, <- Hev.
Qed.


Lemma X11_callbacks_of_an_exchange_witness :
  let rq := {| URL_Path := "/api/items";
               Header := {[ "Content-Type" := ["application/json"] ]} |} in
  let rw := {| rw_header := ∅; rw_codes := [];
               rw_sink := {| sk_out := []; sk_room := None; sk_err := ErrShortWrite |} |} in
  let body := {| rd_data := list_byte_of_string "0123456789"; rd_sched := [3];
                 rd_eager := false; rd_fin := EOF |} in
  let m := default (NewMiddleware true true [])
             (construct true true [EWithLimitedBody 4]) in
  let next := [HBodyRead 2; HHeaderSet "Content-Type" "text/plain"; HWriteHeader 201;
               HWrite (list_byte_of_string "hello, "); HWriteHeader 500;
               HWrite (list_byte_of_string "world")] in
  ∃ out,
    Handle m next 0 rq body {[ 0 := rw ]} = Some out ∧
    List.filter isCallback (out_trace out)
    = [EvDumpRequest rq (Some (list_byte_of_string "0123"));
       EvDumpResponse rq 201 {[ "Content-Type" := ["text/plain"] ]}
         (list_byte_of_string "hell")].
Proof.
  cbv zeta.
  destruct (X11_callbacks_of_an_exchange
              (default (NewMiddleware true true [])
                 (construct true true [EWithLimitedBody 4]))
              [HBodyRead 2; HHeaderSet "Content-Type" "text/plain"; HWriteHeader 201;
               HWrite (list_byte_of_string "hello, "); HWriteHeader 500;
               HWrite (list_byte_of_string "world")]
              0 {| URL_Path := "/api/items";
                   Header := {[ "Content-Type" := ["application/json"] ]} |}
              {| rd_data := list_byte_of_string "0123456789"; rd_sched := [3];
                 rd_eager := false; rd_fin := EOF |}
              {[ 0 := {| rw_header := ∅; rw_codes := [];
                         rw_sink := {| sk_out := []; sk_room := None;
                                       sk_err := ErrShortWrite |} |} ]}
              {| rw_header := ∅; rw_codes := [];
                 rw_sink := {| sk_out := []; sk_room := None;
                               sk_err := ErrShortWrite |} |})
    as (out & Heq & Hcb).
  - reflexivity.
  - vm_compute. reflexivity.
  - reflexivity.
  - exists out. split; [exact Heq|]. rewrite Hcb. vm_compute. reflexivity.
Defined.

(** The sink of a stored [ResponseWriter]. *)
Lemma rw_sink_setSink x s : rw_sink (rw_setSink x s) = s.
Proof. done. Qed.
Lemma rw_setSink_setSink x s1 s2 : rw_setSink (rw_setSink x s1) s2 = rw_setSink x s2.
Proof. done. Qed.
Lemma rw_setSink_sink x : rw_setSink x (rw_sink x) = x.
Proof. by destruct x. Qed.

(** *** [PrefixWriter]: bulk transfers and sequences of calls *)

Section PrefixWriter_ReadFrom_facts.
Context {W : Type} (sinkOf : W → Sink) (setSink : W → Sink → W).
Hypothesis sinkOf_setSink : ∀ x s, sinkOf (setSink x s) = s.
Hypothesis setSink_setSink : ∀ x s1 s2, setSink (setSink x s1) s2 = setSink x s2.
Hypothesis setSink_sinkOf : ∀ x, setSink x (sinkOf x) = x.

(** A bulk transfer through a [PrefixWriter] leaves the sink as one write
    of all the source holds would, whatever the sink's capacity; the
    captured prefix grows by the first bytes of the source that fit the
    cache, unless the sink refused them. *)
Lemma PrefixWriter_ReadFrom_sink pw src (h : gmap loc W) l o :
  pw_w pw = Some l → h !! l = Some o →
  pw_cached pw ≤ length (pw_cache pw) →
  let room := length (pw_cache pw) - pw_cached pw in
  ∃ n err pw' src',
    ReadFrom sinkOf setSink pw src h
    = Some (n, err, pw', src',
            <[l := setSink o (Sink_Write (sinkOf o) (rd_data src)).2]> h) ∧
    pw_w pw' = Some l ∧ length (pw_cache pw') = length (pw_cache pw) ∧
    pw_cached pw' ≤ length (pw_cache pw') ∧
    PrefixW pw'
    = PrefixW pw ++ match (Sink_Write (sinkOf o) (take room (rd_data src))).1.2 with
                    | Some _ => []
                    | None => take room (rd_data src)
                    end.
Proof.
  intros Hw Hl Hcached room. unfold ReadFrom. fold room.
  destruct (0 <? room) eqn:Hroom.
  - apply Nat.ltb_lt in Hroom.
    destruct (ReadAtLeast src (drop (pw_cached pw) (pw_cache pw)) room)
      as [[[nn err] buf'] r1] eqn:Hfill.
    assert (Hbuf : length (drop (pw_cached pw) (pw_cache pw)) = room).
    { rewrite length_drop. done. }
    rewrite <- Hbuf in Hfill.
    apply ReadAtLeast_full in Hfill as (Hnn & Hbuf' & Hd1 & _ & _ & Herr).
    rewrite Hbuf in Hnn, Herr.
    assert (Hlen : length (take (pw_cached pw) (pw_cache pw) ++ buf')
                   = length (pw_cache pw)).
    { rewrite Hbuf', !length_app, !length_take, !length_drop. lia. }
    assert (Htake : take nn (rd_data src) = take room (rd_data src)).
    { rewrite Hnn. destruct (decide (room ≤ length (rd_data src))).
      - f_equal. lia.
      - rewrite !take_ge by lia. done. }
    assert (Hslice : slice (take (pw_cached pw) (pw_cache pw) ++ buf')
                       (pw_cached pw) (pw_cached pw + nn) = take room (rd_data src)).
    { unfold slice. rewrite drop_app_length' by (rewrite length_take; lia).
      replace (pw_cached pw + nn - pw_cached pw) with nn by lia.
      rewrite Hbuf', take_app_le by (rewrite length_take; lia).
      rewrite take_take, Nat.min_id. done. }
    assert (Hpre : ∀ c, c ≤ room →
      take (pw_cached pw + c) (take (pw_cached pw) (pw_cache pw) ++ buf')
      = take (pw_cached pw) (pw_cache pw) ++ take c buf').
    { intros c Hc. rewrite take_app_ge by (rewrite length_take; lia).
      rewrite length_take. do 2 f_equal. lia. }
    cbn [pw_w pw_cached pw_cache]. rewrite Hw, Hslice.
    destruct (0 <? nn) eqn:Hpos.
    + apply Nat.ltb_lt in Hpos.
      rewrite (store_Write_ok _ _ _ _ _ _ Hl). cbn [mbind option_bind].
      destruct (Sink_Write (sinkOf o) (take room (rd_data src)))
        as [[nw werr] s1] eqn:Hsink. cbn [fst snd].
      assert (Hdata : rd_data src = take room (rd_data src) ++ rd_data r1).
      { by rewrite Hd1, <- Htake, take_drop. }
      destruct werr as [e|].
      * assert (Hs : (Sink_Write (sinkOf o) (rd_data src)).2 = s1).
        { rewrite Hdata, Sink_Write_failed by (by rewrite Hsink). by rewrite Hsink. }
        rewrite Hs. eexists _, _, _, _. split; [reflexivity|].
        cbn. split; [done|]. split; [done|]. split; [lia|].
        unfold PrefixW. cbn. rewrite <- (Nat.add_0_r (pw_cached pw)) at 1.
        rewrite Hpre by lia. by rewrite take_0.
      * rewrite (store_Copy_ok _ _ _ _ (setSink o s1)) by apply lookup_insert_eq.
        cbn [mbind option_bind].
        rewrite insert_insert_eq, setSink_setSink, sinkOf_setSink, Copy_sink.
        assert (Hs : (Sink_Write (sinkOf o) (rd_data src)).2
                     = (Sink_Write s1 (rd_data r1)).2).
        { rewrite Hdata at 1. rewrite <- Sink_Write_app by (by rewrite Hsink).
          by rewrite Hsink. }
        rewrite Hs. eexists _, _, _, _. split; [reflexivity|].
        cbn. split; [done|]. split; [done|]. split; [lia|].
        unfold PrefixW. cbn. rewrite Hpre by lia.
        rewrite Hbuf', take_app_le by (rewrite length_take; lia).
        by rewrite take_take, Nat.min_id, Htake.
    + cbn [mbind option_bind]. apply Nat.ltb_ge in Hpos.
      assert (Hnil : rd_data src = []).
      { destruct (rd_data src); [done|]. cbn in Hnn. lia. }
      rewrite decide_False in Herr by (rewrite Hnil; cbn; lia).
      rewrite Herr. replace (0 <? nn) with false by (symmetry; apply Nat.ltb_ge; lia).
      cbn [andb]. rewrite Hnil, take_nil, Sink_Write_nil, setSink_sinkOf.
      rewrite (insert_id h l o Hl).
      eexists _, _, _, _. split; [reflexivity|].
      cbn. split; [done|]. split; [done|]. split; [lia|].
      unfold PrefixW. cbn. replace nn with 0 by lia. rewrite Hpre by lia.
      rewrite take_0. unfold Sink_Write.
      destruct (sk_room (sinkOf o)); done.
  - apply Nat.ltb_ge in Hroom.
    rewrite Hw, (store_Copy_ok _ _ _ _ _ _ Hl). cbn [mbind option_bind].
    rewrite Copy_sink.
    eexists _, _, _, _. split; [reflexivity|].
    split; [done|]. split; [done|]. split; [lia|].
    replace room with 0 by lia. rewrite take_0.
    unfold Sink_Write. destruct (sk_room (sinkOf o)); cbn; by rewrite app_nil_r.
Qed.


(** The count and error of a bulk transfer into a sink that never fails:
    everything the source holds is moved; the source's terminal condition
    is passed on unless it is [EOF]; but a source with nothing left makes
    [ReadFrom] return the condition as [io.ReadAtLeast] reported it, [EOF]
    included, as long as the cache has room. *)
Lemma PrefixWriter_ReadFrom_result pw src (h : gmap loc W) l o :
  pw_w pw = Some l → h !! l = Some o →
  pw_cached pw ≤ length (pw_cache pw) →
  sk_room (sinkOf o) = None →
  let room := length (pw_cache pw) - pw_cached pw in
  (λ x, (x.1.1.1.1, x.1.1.1.2, rd_data x.1.2)) <$> ReadFrom sinkOf setSink pw src h
  = Some (length (rd_data src),
          match rd_data src with
          | [] =>
              if 0 <? room
              then Some (if bool_decide (rd_fin src = ErrUnexpectedEOF) then EOF
                         else rd_fin src)
              else if bool_decide (rd_fin src = EOF) then None else Some (rd_fin src)
          | _ :: _ => if bool_decide (rd_fin src = EOF) then None else Some (rd_fin src)
          end, []).
Proof.
  intros Hw Hl Hcached Hsink room. unfold ReadFrom. fold room.
  assert (Hwrite : ∀ d, Sink_Write (sinkOf o) d =
            (length d, None, {| sk_out := sk_out (sinkOf o) ++ d; sk_room := None;
                                sk_err := sk_err (sinkOf o) |})).
  { intros d. unfold Sink_Write. by rewrite Hsink. }
  destruct (0 <? room) eqn:Hroom.
  - apply Nat.ltb_lt in Hroom.
    destruct (ReadAtLeast src (drop (pw_cached pw) (pw_cache pw)) room)
      as [[[nn err] buf'] r1] eqn:Hfill.
    assert (Hbuf : length (drop (pw_cached pw) (pw_cache pw)) = room).
    { rewrite length_drop. done. }
    rewrite <- Hbuf in Hfill.
    apply ReadAtLeast_full in Hfill as (Hnn & Hbuf' & Hd1 & Hfin1 & _ & Herr).
    rewrite Hbuf in Hnn, Herr.
    cbn [pw_w pw_cached pw_cache]. rewrite Hw.
    destruct (0 <? nn) eqn:Hpos.
    + apply Nat.ltb_lt in Hpos.
      rewrite (store_Write_ok _ _ _ _ _ _ Hl), Hwrite. cbn [mbind option_bind fst snd].
      rewrite (store_Copy_ok _ _ _ _ (setSink o _)) by apply lookup_insert_eq.
      rewrite sinkOf_setSink.
      match goal with |- context [Copy ?d r1] =>
        destruct (Copy_unlimited d r1 eq_refl) as (src' & -> & Hnil & _) end.
      cbn. rewrite Hnil, Hd1, length_drop, Hfin1.
      destruct (rd_data src) as [|b d] eqn:Hdata; [cbn in Hnn; lia|].
      do 3 f_equal. lia.
    + cbn [mbind option_bind]. apply Nat.ltb_ge in Hpos.
      assert (Hnil : rd_data src = []).
      { destruct (rd_data src); [done|]. cbn in Hnn. lia. }
      rewrite decide_False in Herr by (rewrite Hnil; cbn; lia).
      rewrite Herr. replace (0 <? nn) with false by (symmetry; apply Nat.ltb_ge; lia).
      cbn. rewrite Hd1, Hnil, drop_nil. cbn. do 3 f_equal. lia.
  - rewrite Hw, (store_Copy_ok _ _ _ _ _ _ Hl).
    destruct (Copy_unlimited (sinkOf o) src Hsink) as (src' & -> & Hnil & _).
    cbn. rewrite Hnil, Nat.add_0_r. by destruct (rd_data src).
Qed.



End PrefixWriter_ReadFrom_facts.

Section PrefixWriter_facts.
Context {W : Type} (sinkOf : W → Sink) (setSink : W → Sink → W).
Hypothesis sinkOf_setSink : ∀ x s, sinkOf (setSink x s) = s.
Hypothesis setSink_setSink : ∀ x s1 s2, setSink (setSink x s1) s2 = setSink x s2.
Hypothesis setSink_sinkOf : ∀ x, setSink x (sinkOf x) = x.

(** X18.  [PrefixWriter.ReadFrom], whatever the capacity of the sink and
    the chunking of the source: the sink is left as one write of all the
    source holds would leave it; the capacity of the cache does not change;
    the captured prefix grows by the first bytes of the source that fit the
    free part of the cache, unless the sink refused these bytes, in which
    case it does not grow at all. *)
Theorem X18_ReadFrom_is_transparent_to_the_sink pw src (h : gmap loc W) l o :
  pw_w pw = Some l → h !! l = Some o →
  pw_cached pw ≤ length (pw_cache pw) →
  let room := length (pw_cache pw) - pw_cached pw in
  ∃ n err pw' src',
    ReadFrom sinkOf setSink pw src h
    = Some (n, err, pw', src',
            <[l := setSink o (Sink_Write (sinkOf o) (rd_data src)).2]> h) ∧
    length (pw_cache pw') = length (pw_cache pw) ∧
    PrefixW pw'
    = PrefixW pw ++ match (Sink_Write (sinkOf o) (take room (rd_data src))).1.2 with
                    | Some _ => []
                    | None => take room (rd_data src)
                    end.
Proof.
  intros Hw Hl Hcached room.
  destruct (PrefixWriter_ReadFrom_sink sinkOf setSink sinkOf_setSink setSink_setSink
              setSink_sinkOf pw src h l o Hw Hl Hcached)
    as (n & err & pw' & src' & Heq & _ & Hlen & _ & Hpre).
  eauto 10.
Qed.

(** A bulk transfer into a sink that never fails. *)
Lemma PrefixWriter_ReadFrom_unlimited pw src (h : gmap loc W) l o :
  pw_w pw = Some l → h !! l = Some o →
  pw_cached pw ≤ length (pw_cache pw) →
  sk_room (sinkOf o) = None →
  let room := length (pw_cache pw) - pw_cached pw in
  ∃ err pw' src',
    ReadFrom sinkOf setSink pw src h
    = Some (length (rd_data src), err, pw', src',
            <[l := setSink o {| sk_out := sk_out (sinkOf o) ++ rd_data src;
                                sk_room := None;
                                sk_err := sk_err (sinkOf o) |}]> h) ∧
    rd_data src' = [] ∧
    PrefixW pw' = PrefixW pw ++ take room (rd_data src) ∧
    pw_w pw' = Some l ∧
    length (pw_cache pw') = length (pw_cache pw) ∧
    pw_cached pw' ≤ length (pw_cache pw') ∧
    err = match rd_data src with
          | [] =>
              if 0 <? room
              then Some (if bool_decide (rd_fin src = ErrUnexpectedEOF) then EOF
                         else rd_fin src)
              else if bool_decide (rd_fin src = EOF) then None else Some (rd_fin src)
          | _ :: _ => if bool_decide (rd_fin src = EOF) then None else Some (rd_fin src)
          end.
Proof.
  intros Hw Hl Hcached Hsink room.
  destruct (PrefixWriter_ReadFrom_sink sinkOf setSink sinkOf_setSink setSink_setSink
              setSink_sinkOf pw src h l o Hw Hl Hcached)
    as (n & err & pw' & src' & Heq & Hw' & Hlen & Hc' & Hpre).
  pose proof (PrefixWriter_ReadFrom_result sinkOf setSink sinkOf_setSink
                pw src h l o Hw Hl Hcached Hsink) as Hres.
  rewrite Heq in Hres. cbn in Hres. injection Hres as -> -> Hnil.
  fold room in Hpre. unfold Sink_Write in Heq, Hpre. rewrite Hsink in Heq, Hpre.
  cbn in Heq, Hpre. eauto 12.
Qed.


(** X5.  After any sequence of [Write] and [ReadFrom] calls on a
    [PrefixWriter] whose sink never fails, the sink holds everything that
    was sent, in order, and [Prefix] is what was captured before followed
    by the first bytes sent, cut at the capacity of the cache. *)
Theorem X5_prefix_is_the_first_bytes_sent cs : ∀ pw (h : gmap loc W) l o,
  pw_w pw = Some l → h !! l = Some o →
  pw_cached pw ≤ length (pw_cache pw) →
  sk_room (sinkOf o) = None →
  ∃ pw' s',
    produce sinkOf setSink pw cs h = Some (pw', <[l := setSink o s']> h) ∧
    sk_out s' = sk_out (sinkOf o) ++ concat (sent <$> cs) ∧
    PrefixW pw'
    = take (length (pw_cache pw)) (PrefixW pw ++ concat (sent <$> cs)).
Proof.
  assert (Hgrow : ∀ pw d, pw_cached pw ≤ length (pw_cache pw) →
            PrefixW pw ++ take (length (pw_cache pw) - pw_cached pw) d
            = take (length (pw_cache pw)) (PrefixW pw ++ d)).
  { intros pw d Hc. unfold PrefixW.
    rewrite take_app_ge by (rewrite length_take; lia).
    rewrite length_take. do 2 f_equal. lia. }
  induction cs as [|c cs IH]; intros pw h l o Hw Hl Hcached Hsink;
    cbn [produce fmap list_fmap concat].
  - exists pw, (sinkOf o). rewrite setSink_sinkOf, (insert_id h l o Hl), !app_nil_r.
    split; [done|]. split; [done|].
    unfold PrefixW. rewrite take_take. f_equal. lia.
  - assert (Hstep : ∃ pw1 s1,
      match c with
      | WWrite data =>
          '(_, _, pw', h') ← Write sinkOf setSink pw data h;
          produce sinkOf setSink pw' cs h'
      | WReadFrom src =>
          '(_, _, pw', _, h') ← ReadFrom sinkOf setSink pw src h;
          produce sinkOf setSink pw' cs h'
      end = produce sinkOf setSink pw1 cs (<[l := setSink o s1]> h) ∧
      pw_w pw1 = Some l ∧ length (pw_cache pw1) = length (pw_cache pw) ∧
      pw_cached pw1 ≤ length (pw_cache pw1) ∧
      sk_room s1 = None ∧ sk_out s1 = sk_out (sinkOf o) ++ sent c ∧
      PrefixW pw1 = take (length (pw_cache pw)) (PrefixW pw ++ sent c)).
    { destruct c as [data|src]; cbn [sent].
      - destruct (PrefixWriter_Write_spec sinkOf setSink pw data h l o Hw Hl Hcached)
          as (pw1 & -> & Hw1 & Hlen1 & Hc1 & Hpre1).
        cbn [mbind option_bind]. exists pw1, (Sink_Write (sinkOf o) data).2.
        split; [done|]. split; [done|]. split; [done|]. split; [lia|].
        unfold Sink_Write. rewrite Hsink. cbn.
        split; [done|]. split; [done|]. by rewrite Hpre1, Hgrow.
      - destruct (PrefixWriter_ReadFrom_unlimited pw src h l o Hw Hl Hcached Hsink)
          as (err & pw1 & src' & -> & _ & Hpre1 & Hw1 & Hlen1 & Hc1 & _).
        cbn [mbind option_bind]. eexists pw1, _.
        split; [done|]. split; [done|]. split; [done|]. split; [done|].
        cbn. split; [done|]. split; [done|]. by rewrite Hpre1, Hgrow. }
    destruct Hstep as (pw1 & s1 & -> & Hw1 & Hlen1 & Hc1 & Hroom1 & Hout1 & Hpre1).
    destruct (IH pw1 (<[l := setSink o s1]> h) l (setSink o s1) Hw1
                ltac:(apply lookup_insert_eq) Hc1
                ltac:(by rewrite sinkOf_setSink))
      as (pw2 & s2 & -> & Hout2 & Hpre2).
    exists pw2, s2. rewrite insert_insert_eq, setSink_setSink.
    split; [done|]. rewrite sinkOf_setSink, Hout1 in Hout2.
    split; [by rewrite Hout2, app_assoc|].
    rewrite Hpre2, Hlen1, Hpre1, take_take_app, app_assoc. done.
Qed.

End PrefixWriter_facts.


Lemma X5_prefix_is_the_first_bytes_sent_witness :
  let rw := {| rw_header := ∅; rw_codes := [];
               rw_sink := {| sk_out := []; sk_room := None; sk_err := ErrShortWrite |} |} in
  let src := {| rd_data := list_byte_of_string "cdefgh"; rd_sched := [1];
                rd_eager := false; rd_fin := EOF |} in
  let cs := [WWrite (list_byte_of_string "ab"); WReadFrom src;
             WWrite (list_byte_of_string "ij")] in
  ∃ pw' s',
    produce rw_sink rw_setSink (NewPrefixWriter (Some 0) 4) cs {[ 0 := rw ]}
    = Some (pw', <[0 := rw_setSink rw s']> {[ 0 := rw ]}) ∧
    sk_out s' = list_byte_of_string "abcdefghij" ∧
    PrefixW pw' = list_byte_of_string "abcd".
Proof.
  cbv zeta.
  refine (X5_prefix_is_the_first_bytes_sent rw_sink rw_setSink
            rw_sink_setSink rw_setSink_setSink rw_setSink_sink _ _ _ 0 _ _ _ _ _).
  - reflexivity.
  - reflexivity.
  - vm_compute. lia.
  - reflexivity.
Defined.

Lemma X18_ReadFrom_is_transparent_to_the_sink_witness :
  let rw := {| rw_header := ∅; rw_codes := [];
               rw_sink := {| sk_out := []; sk_room := Some 2;
                             sk_err := ErrOther "broken pipe" |} |} in
  let src := {| rd_data := list_byte_of_string "0123456789"; rd_sched := [3];
                rd_eager := false; rd_fin := EOF |} in
  let pw := NewPrefixWriter (Some 0) 4 in
  ∃ n err pw' src',
    ReadFrom rw_sink rw_setSink pw src {[ 0 := rw ]}
    = Some (n, err, pw', src',
            <[0 := rw_setSink rw {| sk_out := list_byte_of_string "01";
                                    sk_room := Some 0;
                                    sk_err := ErrOther "broken pipe" |}]>
              {[ 0 := rw ]}) ∧
    PrefixW pw' = [].
Proof.
  cbv zeta.
  destruct (X18_ReadFrom_is_transparent_to_the_sink rw_sink rw_setSink
              rw_sink_setSink rw_setSink_setSink rw_setSink_sink
              (NewPrefixWriter (Some 0) 4)
              {| rd_data := list_byte_of_string "0123456789"; rd_sched := [3];
                 rd_eager := false; rd_fin := EOF |}
              {[ 0 := {| rw_header := ∅; rw_codes := [];
                         rw_sink := {| sk_out := []; sk_room := Some 2;
                                       sk_err := ErrOther "broken pipe" |} |} ]} 0
              {| rw_header := ∅; rw_codes := [];
                 rw_sink := {| sk_out := []; sk_room := Some 2;
                               sk_err := ErrOther "broken pipe" |} |})
    as (n & err & pw' & src' & Heq & _ & Hpre).
  - reflexivity.
  - vm_compute. reflexivity.
  - vm_compute. lia.
  - exists n, err, pw', src'. split; [exact Heq | exact Hpre].
Defined.

(** *** Invariants of the handler's run *)

(** What no call of the handler changes: the capacities of the two
    substituted objects and the filters of the writer; no call invokes a
    callback; and the decision to dump the response is only ever taken by
    the response chain. *)
Lemma handlerStep_frame w r op ex ex' :
  serving w r ex → handlerStep op ex = Some ex' →
  List.filter isCallback (ex_trace ex') = List.filter isCallback (ex_trace ex) ∧
  bodyCapacity (ex_body ex') = bodyCapacity (ex_body ex) ∧
  writerCapacity (ex_writer ex') = writerCapacity (ex_writer ex) ∧
  ∀ cw, ex_writer ex = Wrapped cw →
    ∃ cw', ex_writer ex' = Wrapped cw' ∧ cw_filters cw' = cw_filters cw ∧
      (cw_dumpResponse cw' = cw_dumpResponse cw ∨
       ∃ headers status,
         cw_dumpResponse cw'
         = (filtered_loop r headers status (cw_filters cw) 0 true).1.1).
Proof.
  intros Hs Hstep. pose proof Hs as ([o Ho] & Hbody & Hwr).
  destruct op as [k|dst|key value|sc|data|src|v]; cbn [handlerStep] in Hstep.
  - destruct (ex_body ex) as [rd|cr] eqn:Hb; cbn [bodyRead] in Hstep.
    + destruct (Reader_Read rd k) as [[bs e] rd']. cbn in Hstep.
      injection Hstep as <-. cbn. eauto 10.
    + destruct (Read_spec cr k Hbody) as (bs & e & cr' & Heq & _ & _ & _ & Hc & _).
      rewrite Heq in Hstep. cbn in Hstep. injection Hstep as <-. cbn.
      rewrite Hc. eauto 10.
  - destruct (ex_body ex) as [rd|cr] eqn:Hb; cbn [bodyWriteTo] in Hstep.
    + destruct (Copy dst rd) as [[[n e] dst'] rd']. cbn in Hstep.
      injection Hstep as <-. cbn. eauto 10.
    + destruct (WriteTo_spec cr dst Hbody) as (n & e & cr' & w' & Heq & _ & Hc & _).
      rewrite Heq in Hstep. cbn in Hstep. injection Hstep as <-. cbn.
      rewrite Hc. eauto 10.
  - destruct (store_HeaderSet _ key value (ex_store ex)) as [h'|]; [|done].
    cbn in Hstep. injection Hstep as <-. cbn. eauto 10.
  - destruct (ex_writer ex) as [l|cw] eqn:Hw.
    + destruct (store_WriteHeader _ sc (ex_store ex)) as [h'|]; [|done].
      cbn in Hstep. injection Hstep as <-. cbn. done.
    + unfold cachedWriter_WriteHeader in Hstep.
      destruct (store_WriteHeader _ sc (ex_store ex)) as [h'|]; [|done].
      cbn in Hstep. injection Hstep as <-. cbn.
      do 3 (split; [by destruct (cw_statusCode cw =? 0)%Z|]).
      intros ? [= <-]. eexists. split; [done|].
      by destruct (cw_statusCode cw =? 0)%Z; cbn; eauto.
  - destruct (ex_writer ex) as [l|cw] eqn:Hw.
    + destruct (store_Write _ _ _ data (ex_store ex)) as [[[? ?] h']|]; [|done].
      cbn in Hstep. injection Hstep as <-. cbn. done.
    + destruct Hwr as (Hcw & Hpw & Hr & Hcached).
      destruct (cachedWriter_Write_spec cw data (ex_store ex) w r o Hcw Hpw Hr Hcached Ho)
        as (cw1 & evs & n & cw' & Hens & Heq & _ & Hcw' & _ & Hlen & _).
      rewrite Heq in Hstep. cbn in Hstep. injection Hstep as <-. cbn.
      destruct (Handle_finish w r ex cw o Hs Hw Ho)
        as (cw1' & evs' & Hens' & _ & _ & _ & Hcb & _).
      rewrite Hens in Hens'. injection Hens' as <- <-.
      rewrite List.filter_app, Hcb, app_nil_r, Hlen.
      do 3 (split; [done|]). intros ? [= <-]. exists cw'. split; [done|].
      rewrite (EnsureFilterPassed_spec cw _ w r o Hcw Hr Ho) in Hens.
      rewrite Hcw'. cbn.
      destruct (cw_written cw); injection Hens as <- _; cbn; [eauto|].
      split; [done|]. right. unfold filtered.
      destruct (filtered_loop _ _ _ _ _ _) as [[d b] ev] eqn:Hf. cbn.
      eexists _, _. by rewrite Hf.
  - destruct (ex_writer ex) as [l|cw] eqn:Hw.
    + destruct (store_Copy _ _ _ src (ex_store ex)) as [[[[? ?] ?] h']|]; [|done].
      cbn in Hstep. injection Hstep as <-. cbn. done.
    + destruct Hwr as (Hcw & Hpw & Hr & Hcached).
      unfold cachedWriter_ReadFrom in Hstep.
      destruct (PrefixWriter_ReadFrom_spec rw_sink rw_setSink (cw_PrefixWriter cw)
                  src (ex_store ex) w o rw_setSink_setSink Hpw Ho Hcached)
        as (n & e & pw' & src' & o' & Heq & _ & _ & Hlen & _).
      rewrite Heq in Hstep. cbn in Hstep. injection Hstep as <-. cbn.
      rewrite Hlen. do 3 (split; [done|]). intros ? [= <-]. eauto.
  - injection Hstep as <-. cbn. eauto 10.
Qed.

Lemma handlerStep_total w r op ex :
  serving w r ex → ∃ ex', handlerStep op ex = Some ex' ∧ serving w r ex'.
Proof.
  intros Hs. pose proof Hs as ([o Ho] & _ & Hwr).
  destruct (ex_writer ex) as [l|cw] eqn:Hw.
  - subst l. destruct (handlerStep_direct w r op ex Hs Hw) as (ex' & ? & ? & _). eauto.
  - destruct (handlerStep_wrapped w r op ex cw o Hs Hw Ho) as (ex' & ? & ? & ? & ? & _).
    eauto.
Qed.

(** The same, for the whole run of the handler. *)
Lemma ServeHTTP_frame w r ops : ∀ ex,
  serving w r ex →
  ∃ ex',
    ServeHTTP ops ex = Some ex' ∧ serving w r ex' ∧
    List.filter isCallback (ex_trace ex') = List.filter isCallback (ex_trace ex) ∧
    bodyCapacity (ex_body ex') = bodyCapacity (ex_body ex) ∧
    writerCapacity (ex_writer ex') = writerCapacity (ex_writer ex) ∧
    ∀ cw, ex_writer ex = Wrapped cw →
      ∃ cw', ex_writer ex' = Wrapped cw' ∧ cw_filters cw' = cw_filters cw ∧
        (cw_dumpResponse cw' = cw_dumpResponse cw ∨
         ∃ headers status,
           cw_dumpResponse cw'
           = (filtered_loop r headers status (cw_filters cw) 0 true).1.1).
Proof.
  induction ops as [|op ops IH]; intros ex Hs; cbn [ServeHTTP].
  - exists ex. do 5 (split; [done|]). intros cw Hcw. eauto.
  - destruct (handlerStep_total w r op ex Hs) as (ex1 & Hstep & Hs1).
    destruct (handlerStep_frame w r op ex ex1 Hs Hstep) as (Hcb1 & Hb1 & Hw1 & Hcw1).
    destruct (IH ex1 Hs1) as (ex2 & Hrun & Hs2 & Hcb2 & Hb2 & Hw2 & Hcw2).
    rewrite Hstep. cbn [mbind option_bind]. exists ex2.
    split; [done|]. split; [done|]. do 3 (split; [congruence|]).
    intros cw Hcw. destruct (Hcw1 cw Hcw) as (cw1 & Hex1 & Hf1 & Hd1).
    destruct (Hcw2 cw1 Hex1) as (cw2 & Hex2 & Hf2 & Hd2).
    exists cw2. split; [done|]. split; [congruence|].
    rewrite Hf1 in Hd2.
    destruct Hd2 as [Hd2|Hd2]; [|by right].
    rewrite Hd2. done.
Qed.

(** *** The options *)

Lemma evalOption_frame e opt :
  evalOption e = Some opt →
  ∃ fs gs, ∀ m,
    requestFilters (opt m) = requestFilters m ++ fs ∧
    responseFilters (opt m) = responseFilters m ++ gs ∧
    writerPool (opt m) = writerPool m ∧ readerPool (opt m) = readerPool m ∧
    enabled (opt m) = enabled m ∧
    dumpRequest (opt m) = dumpRequest m ∧ dumpResponse (opt m) = dumpResponse m.
Proof.
  destruct e as [limit|fs|gs|res]; cbn [evalOption].
  - unfold WithLimitedBody. destruct (limit <=? 0)%Z; [done|]. intros [= <-].
    exists [], []. intros m. cbn. by rewrite !app_nil_r.
  - intros [= <-]. exists fs, []. intros m. cbn. by rewrite !app_nil_r.
  - intros [= <-]. exists [], gs. intros m. cbn. by rewrite !app_nil_r.
  - intros [= <-].
    exists [λ r, pathExcluded res (URL_Path r)], [λ r _ _, pathExcluded res (URL_Path r)].
    intros m. cbn. done.
Qed.

Lemma options_frame es : ∀ opts,
  mapM evalOption es = Some opts →
  ∃ fs gs, ∀ m,
    requestFilters (foldl (λ m opt, opt m) m opts) = requestFilters m ++ fs ∧
    responseFilters (foldl (λ m opt, opt m) m opts) = responseFilters m ++ gs ∧
    writerPool (foldl (λ m opt, opt m) m opts) = writerPool m ∧
    readerPool (foldl (λ m opt, opt m) m opts) = readerPool m ∧
    enabled (foldl (λ m opt, opt m) m opts) = enabled m ∧
    dumpRequest (foldl (λ m opt, opt m) m opts) = dumpRequest m ∧
    dumpResponse (foldl (λ m opt, opt m) m opts) = dumpResponse m.
Proof.
  induction es as [|e es IH]; intros opts Hm.
  - cbn in Hm. injection Hm as <-. exists [], []. intros m. cbn.
    by rewrite !app_nil_r.
  - rewrite mapM_Some in Hm. apply Forall2_cons_inv_l in Hm
      as (opt & opts' & Hopt & Hrest & ->).
    apply mapM_Some in Hrest.
    destruct (evalOption_frame e opt Hopt) as (fs1 & gs1 & H1).
    destruct (IH opts' Hrest) as (fs2 & gs2 & H2).
    exists (fs1 ++ fs2), (gs1 ++ gs2). intros m. cbn [foldl].
    destruct (H2 (opt m)) as (-> & -> & -> & -> & -> & -> & ->).
    destruct (H1 m) as (-> & -> & -> & -> & -> & -> & ->).
    by rewrite !app_assoc.
Qed.

(** A middleware as its constructor returns it. *)
Lemma construct_spec dreq dresp es m :
  construct dreq dresp es = Some m →
  enabled m = true ∧ dumpRequest m = dreq ∧ dumpResponse m = dresp ∧
  writerPool m = [] ∧ readerPool m = [] ∧
  ∃ fs gs,
    requestFilters m = FilterRequestBodyByContentType DefaultDumpedContentTypes :: fs ∧
    responseFilters m = FilterResponseBodyByContentType DefaultDumpedContentTypes :: gs.
Proof.
  unfold construct. destruct (mapM evalOption es) as [opts|] eqn:Hm; [|done].
  cbn. intros [= <-]. unfold NewMiddleware.
  destruct (options_frame es opts Hm) as (fs & gs & H).
  match goal with |- context [foldl _ ?m0 opts] =>
    destruct (H m0) as (-> & -> & -> & -> & -> & -> & ->) end.
  cbn. eauto 10.
Qed.

(** *** The body limit, exchange after exchange *)

Lemma withinLimit_callbacks P t :
  forallb (withinLimit P) t = forallb (withinLimit P) (List.filter isCallback t).
Proof.
  induction t as [|ev t IH]; [done|]. cbn [forallb List.filter].
  destruct ev as [| | | |rq [b|]|rq sc hd b|]; cbn; rewrite ?IH; done.
Qed.

Lemma readerPool_Get_capacity m :
  pooledCapacity m →
  length (pr_cache (readerPool_Get m).1) = Z.to_nat (dumpedBodySize m) ∧
  Forall (λ cr, length (pr_cache cr) = Z.to_nat (dumpedBodySize m)) (readerPool_Get m).2.
Proof.
  intros [Hr _]. unfold readerPool_Get.
  destruct (readerPool m) as [|cr rest]; cbn.
  - by rewrite length_replicate.
  - by apply Forall_cons in Hr.
Qed.

Lemma writerPool_Get_capacity m :
  pooledCapacity m →
  length (pw_cache (cw_PrefixWriter (writerPool_Get m).1)) = Z.to_nat (dumpedBodySize m) ∧
  Forall (λ cw, length (pw_cache (cw_PrefixWriter cw)) = Z.to_nat (dumpedBodySize m))
         (writerPool_Get m).2.
Proof.
  intros [_ Hw]. unfold writerPool_Get.
  destruct (writerPool m) as [|cw rest]; cbn.
  - by rewrite length_replicate.
  - by apply Forall_cons in Hw.
Qed.

(** One exchange: it runs to its end, every body handed to a callback is
    within the limit, and the instances put back into the pools have the
    capacity the limit asks for. *)
Lemma Handle_limit m next w r body (h : gmap loc ResponseWriter) o :
  pooledCapacity m → h !! w = Some o →
  ∃ out,
    Handle m next w r body h = Some out ∧
    pooledCapacity (out_m out) ∧
    dumpedBodySize (out_m out) = dumpedBodySize m ∧
    forallb (withinLimit (Z.to_nat (dumpedBodySize m))) (out_trace out) = true.
Proof.
  intros Hpool Ho. set (P := Z.to_nat (dumpedBodySize m)).
  unfold Handle. destruct (enabled m) eqn:Hen; cbn [negb].
  - destruct (needDumpRequest_events m r) as [_ Hreq_cb].
    destruct (needDumpRequest m r) as [[dumpReq dumpReqBody] evs_filter] eqn:Hneed.
    cbn [snd] in Hreq_cb.
    destruct (readerPool_Get_capacity m Hpool) as [Hcr Hrest_r].
    destruct (writerPool_Get_capacity m Hpool) as [Hcw Hrest_w].
    fold P in Hcr, Hrest_r, Hcw, Hrest_w.
    (* the request side *)
    assert (Hreq : ∃ body1 readers evs_req,
      (if dumpReq then
         if dumpReqBody then
           let '(cr, rest) := readerPool_Get m in
           let '(_, cr') := Reset cr body in
           (PrefixBody cr', rest, [EvDumpRequest r (Some (Prefix cr'))])
         else (RawBody body, readerPool m, [EvDumpRequest r None])
       else (RawBody body, readerPool m, [])) = (body1, readers, evs_req) ∧
      match body1 with RawBody _ => True | PrefixBody cr => initialised cr end ∧
      match bodyCapacity body1 with Some c => c = P | None => True end ∧
      Forall (λ cr, length (pr_cache cr) = P) readers ∧
      forallb (withinLimit P) evs_req = true).
    { destruct dumpReq; [destruct dumpReqBody|].
      - destruct (readerPool_Get m) as [cr rest]. cbn [fst snd] in Hcr, Hrest_r.
        destruct (Reset_spec cr body) as (_ & _ & _ & Hlen & Hpre & _ & Hinit & _).
        destruct (Reset cr body) as [e cr']. cbn [fst snd] in *.
        eexists _, _, _. split; [reflexivity|]. cbn.
        split; [done|]. split; [congruence|]. split; [done|].
        rewrite Hpre, length_take, andb_true_r. apply Nat.leb_le. lia.
      - eexists _, _, _. split; [reflexivity|]. cbn. by destruct Hpool.
      - eexists _, _, _. split; [reflexivity|]. cbn. by destruct Hpool. }
    destruct Hreq as (body1 & readers & evs_req & -> & Hbody1 & Hcap1 & Hreaders & Hlim_req).
    (* the response side *)
    assert (Hresp : ∃ w1 writers,
      (if dumpResponse m then
         let '(cw, rest) := writerPool_Get m in
         (Wrapped (cachedWriter_Reset cw (Some w) (Some r) (responseFilters m)), rest)
       else (Direct w, writerPool m)) = (w1, writers) ∧
      match w1 with
      | Direct l => l = w
      | Wrapped cw =>
          cw_w cw = Some w ∧ pw_w (cw_PrefixWriter cw) = Some w ∧
          cw_request cw = Some r ∧
          pw_cached (cw_PrefixWriter cw) ≤ length (pw_cache (cw_PrefixWriter cw))
      end ∧
      match writerCapacity w1 with Some c => c = P | None => True end ∧
      Forall (λ cw, length (pw_cache (cw_PrefixWriter cw)) = P) writers).
    { destruct (dumpResponse m).
      - destruct (writerPool_Get m) as [cw rest]. cbn [fst snd] in Hcw, Hrest_w.
        eexists _, _. split; [reflexivity|]. cbn.
        repeat split; try done. lia.
      - eexists _, _. split; [reflexivity|]. cbn. by destruct Hpool. }
    destruct Hresp as (w1 & writers & -> & Hw1 & Hcapw & Hwriters).
    match goal with |- context [ServeHTTP next ?e] => set (ex0 := e) end.
    assert (Hs0 : serving w r ex0).
    { unfold serving, ex0. cbn. split; [by eexists|]. done. }
    destruct (ServeHTTP_frame w r next ex0 Hs0)
      as (ex1 & -> & Hs1 & Hcb & Hb & Hwc & Hcwf).
    cbn [mbind option_bind]. unfold ex0 in Hcb, Hb, Hwc, Hcwf.
    cbn [ex_trace ex_body ex_writer] in Hcb, Hb, Hwc, Hcwf.
    assert (Hlim1 : forallb (withinLimit P) (ex_trace ex1) = true).
    { rewrite withinLimit_callbacks, Hcb, !List.filter_app, Hreq_cb. cbn [app].
      rewrite <- List.filter_app, <- withinLimit_callbacks, forallb_app, Hlim_req.
      done. }
    assert (Hreaders' : Forall (λ cr, length (pr_cache cr) = P)
              match ex_body ex1 with PrefixBody cr => cr :: readers
                                   | RawBody _ => readers end).
    { destruct (ex_body ex1) as [|cr1]; [done|]. apply Forall_cons. split; [|done].
      cbn in Hb. destruct body1; cbn in Hb, Hcap1; [done|]. congruence. }
    pose proof Hs1 as ([o1 Ho1] & _ & Hwr1).
    destruct (ex_writer ex1) as [l|cw1] eqn:Hex1.
    + cbn [mbind option_bind]. eexists. split; [reflexivity|]. cbn.
      split; [|split; [done|by rewrite app_nil_r]].
      split; cbn; [done|].
      destruct w1; [done|]. cbn in Hwc. done.
    + destruct (Handle_finish w r ex1 cw1 o1 Hs1 Hex1 Ho1)
        as (cw2 & evs & -> & Hhdr & _ & Hpw2 & Hcb2 & _).
      cbn [mbind option_bind].
      assert (Hcap2 : length (pw_cache (cw_PrefixWriter cw2)) = P).
      { rewrite Hpw2. destruct w1 as [|cw0]; cbn in Hwc, Hcapw; [done|]. congruence. }
      assert (Hevs : forallb (withinLimit P) evs = true).
      { by rewrite withinLimit_callbacks, Hcb2. }
      destruct (cw_dumpResponse cw2); rewrite ?Hhdr; cbn [mbind option_bind];
        (eexists; split; [reflexivity|]); cbn.
      * split; [split; cbn; [done|by apply Forall_cons]|]. split; [done|].
        rewrite !forallb_app, Hlim1, Hevs. cbn. rewrite andb_true_r.
        apply Nat.leb_le. unfold PrefixW. rewrite length_take. lia.
      * split; [split; cbn; [done|by apply Forall_cons]|]. split; [done|].
        by rewrite !forallb_app, Hlim1, Hevs.
  - match goal with |- context [ServeHTTP next ?e] => set (ex0 := e) end.
    assert (Hs0 : serving w r ex0).
    { unfold serving, ex0. cbn. split; [by eexists|]. done. }
    destruct (ServeHTTP_direct w r next ex0 Hs0 eq_refl)
      as (ex1 & -> & _ & Hd1 & Ht1 & _).
    cbn [mbind option_bind]. eexists. split; [reflexivity|]. cbn.
    split; [done|]. split; [done|]. by rewrite Ht1.
Qed.

Lemma serveAll_limit xs : ∀ m,
  pooledCapacity m →
  Forall (λ x, is_Some (in_store x !! in_w x)) xs →
  ∃ m' outs,
    serveAll m xs = Some (m', outs) ∧ length outs = length xs ∧
    dumpedBodySize m' = dumpedBodySize m ∧
    Forall (λ out, forallb (withinLimit (Z.to_nat (dumpedBodySize m)))
                     (out_trace out) = true) outs.
Proof.
  induction xs as [|x xs IH]; intros m Hpool Hxs; cbn [serveAll].
  - exists m, []. done.
  - apply Forall_cons in Hxs as [[o Ho] Hxs]. unfold Wrap.
    destruct (Handle_limit m (in_next x) (in_w x) (in_r x) (in_body x) (in_store x) o
                Hpool Ho) as (out & -> & Hpool' & Hsize & Hlim).
    cbn [mbind option_bind].
    destruct (IH (out_m out) Hpool' Hxs) as (m' & outs & -> & Hlen & Hsize' & Hlims).
    cbn [mbind option_bind]. exists m', (out :: outs).
    split; [done|]. split; [cbn; by rewrite Hlen|]. split; [congruence|].
    apply Forall_cons. split; [done|]. by rewrite <- Hsize.
Qed.

(** X15.  A middleware as [NewMiddleware] returns it, serving any
    sequence of exchanges through [Wrap], whatever the handlers do (bulk
    transfers and calls of [SetEnabled] included) and with the pooled
    readers and writers reused from one exchange to the next: no exchange
    panics, and no body handed to a callback is longer than the configured
    limit. *)
Theorem X15_no_dump_exceeds_the_body_limit dreq dresp es m xs :
  construct dreq dresp es = Some m →
  Forall (λ x, is_Some (in_store x !! in_w x)) xs →
  ∃ m' outs,
    serveAll m xs = Some (m', outs) ∧ length outs = length xs ∧
    Forall (λ out, forallb (withinLimit (Z.to_nat (dumpedBodySize m)))
                     (out_trace out) = true) outs.
Proof.
  intros Hm Hxs.
  destruct (construct_spec dreq dresp es m Hm) as (_ & _ & _ & Hw & Hr & _).
  assert (Hpool : pooledCapacity m).
  { unfold pooledCapacity. by rewrite Hw, Hr. }
  destruct (serveAll_limit xs m Hpool Hxs) as (m' & outs & ? & ? & _ & ?).
  eauto.
Qed.

Lemma X15_no_dump_exceeds_the_body_limit_witness :
  let rq := {| URL_Path := "/api/items";
               Header := {[ "Content-Type" := ["application/json"] ]} |} in
  let rw := {| rw_header := ∅; rw_codes := [];
               rw_sink := {| sk_out := []; sk_room := None; sk_err := ErrShortWrite |} |} in
  let body := {| rd_data := list_byte_of_string "0123456789"; rd_sched := [3];
                 rd_eager := false; rd_fin := EOF |} in
  let src := {| rd_data := list_byte_of_string "a long response";
                rd_sched := []; rd_eager := false; rd_fin := EOF |} in
  let x1 := {| in_next := [HBodyRead 64; HHeaderSet "Content-Type" "text/plain";
                           HWrite (list_byte_of_string "hello, world")];
               in_w := 0; in_r := rq; in_body := body; in_store := {[ 0 := rw ]} |} in
  let x2 := {| in_next := [HHeaderSet "Content-Type" "text/plain"; HReadFrom src];
               in_w := 0; in_r := rq; in_body := body; in_store := {[ 0 := rw ]} |} in
  let m := default (NewMiddleware true true [])
             (construct true true [EWithLimitedBody 4]) in
  ∃ m' outs,
    serveAll m [x1; x2] = Some (m', outs) ∧ length outs = 2 ∧
    Forall (λ out, forallb (withinLimit (Z.to_nat (dumpedBodySize m)))
                     (out_trace out) = true) outs.
Proof.
  cbv zeta.
  refine (X15_no_dump_exceeds_the_body_limit true true [EWithLimitedBody 4] _ _ _ _).
  - reflexivity.
  - repeat (apply Forall_cons; split; [by eexists|]). apply Forall_nil_2.
Defined.

(** A chain one of whose filters says no, says no. *)
Lemma filterPassed_veto r filters f :
  f ∈ filters → (f r).1 = false →
  (filterPassed r filters).1 = (false, false).
Proof.
  intros Hin Hf. unfold filterPassed. rewrite filterPassed_loop_spec.
  destruct (list_find_elem_of (λ f, (f r).1 = false) filters f Hin Hf) as [[j g] ->].
  done.
Qed.

Lemma filtered_loop_veto r headers status filters f :
  f ∈ filters → (f r headers status).1 = false →
  (filtered_loop r headers status filters 0 true).1.1 = false.
Proof.
  intros Hin Hf. rewrite filtered_loop_spec.
  destruct (list_find_elem_of (λ f, (f r headers status).1 = false) filters f Hin Hf)
    as [[j g] ->].
  done.
Qed.

(** An exchange whose request chain and whose response chain both hold a
    filter that says no for this request invokes no callback. *)
Lemma Handle_vetoed m next w r body (h : gmap loc ResponseWriter) o f g :
  h !! w = Some o →
  f ∈ requestFilters m → (f r).1 = false →
  g ∈ responseFilters m → (∀ headers status, (g r headers status).1 = false) →
  ∃ out, Handle m next w r body h = Some out ∧
         List.filter isCallback (out_trace out) = [].
Proof.
  intros Ho Hf Hfr Hg Hgr. unfold Handle.
  destruct (enabled m) eqn:Hen; cbn [negb].
  - destruct (needDumpRequest_events m r) as [_ Hreq_cb].
    assert (Hneed : (needDumpRequest m r).1 = (false, false)).
    { unfold needDumpRequest. destruct (dumpRequest m); cbn [negb]; [|done].
      by apply (filterPassed_veto r _ f). }
    destruct (needDumpRequest m r) as [[dumpReq dumpReqBody] evs_filter].
    cbn [fst snd] in Hneed, Hreq_cb. injection Hneed as -> ->.
    assert (Hresp : ∃ w1 writers,
      (if dumpResponse m then
         let '(cw, rest) := writerPool_Get m in
         (Wrapped (cachedWriter_Reset cw (Some w) (Some r) (responseFilters m)), rest)
       else (Direct w, writerPool m)) = (w1, writers) ∧
      match w1 with
      | Direct l => l = w
      | Wrapped cw =>
          (cw_w cw = Some w ∧ pw_w (cw_PrefixWriter cw) = Some w ∧
           cw_request cw = Some r ∧
           pw_cached (cw_PrefixWriter cw) ≤ length (pw_cache (cw_PrefixWriter cw))) ∧
          cw_filters cw = responseFilters m ∧ cw_dumpResponse cw = false
      end).
    { destruct (dumpResponse m).
      - destruct (writerPool_Get m) as [cw rest].
        eexists _, _. split; [reflexivity|]. cbn.
        repeat split; try done. lia.
      - eexists _, _. split; [reflexivity|]. done. }
    destruct Hresp as (w1 & writers & -> & Hw1).
    match goal with |- context [ServeHTTP next ?e] => set (ex0 := e) end.
    assert (Hs0 : serving w r ex0).
    { unfold serving, ex0. cbn. split; [by eexists|]. split; [done|].
      destruct w1; [done|]. by destruct Hw1. }
    destruct (ServeHTTP_frame w r next ex0 Hs0)
      as (ex1 & Hrun0 & Hs1 & Hcb & _ & _ & Hcwf).
    rewrite Hrun0. cbn [mbind option_bind]. unfold ex0 in Hcb, Hcwf.
    cbn [ex_trace ex_writer] in Hcb, Hcwf.
    rewrite !List.filter_app, Hreq_cb in Hcb. cbn in Hcb.
    pose proof Hs1 as ([o1 Ho1] & _ & Hwr1).
    destruct w1 as [l|cw0].
    + destruct (ServeHTTP_direct w r next ex0) as (ex1' & Hrun & _ & Hd1 & _);
        [done| by unfold ex0; cbn; rewrite Hw1 |].
      rewrite Hrun0 in Hrun. injection Hrun as <-. rewrite Hd1.
      cbn [mbind option_bind]. eexists. split; [reflexivity|]. cbn.
      by rewrite app_nil_r.
    + destruct Hw1 as (_ & Hf0 & Hd0).
      destruct (Hcwf cw0 eq_refl) as (cw1 & Hex1 & Hf1 & Hd1).
      rewrite Hex1 in Hwr1 |- *. destruct Hwr1 as (Hcw1 & _ & Hr1 & _).
      rewrite (EnsureFilterPassed_spec cw1 _ w r o1 Hcw1 Hr1 Ho1).
      assert (Hno : cw_dumpResponse cw1 = false).
      { destruct Hd1 as [->|(hd & sc & ->)]; [done|].
        rewrite Hf0. by apply (filtered_loop_veto r hd sc _ g). }
      destruct (cw_written cw1).
      * cbn [mbind option_bind]. rewrite Hno.
        eexists. split; [reflexivity|]. cbn. by rewrite app_nil_r.
      * cbn [mbind option_bind cw_dumpResponse].
        pose proof (filtered_events cw1 r (rw_header o1)
                      (if (cw_statusCode cw1 =? 0)%Z then StatusOK
                       else cw_statusCode cw1)) as [_ Hcbf].
        assert (Hd : (filtered cw1 r (rw_header o1)
                        (if (cw_statusCode cw1 =? 0)%Z then StatusOK
                         else cw_statusCode cw1)).1.1 = false).
        { unfold filtered.
          pose proof (filtered_loop_veto r (rw_header o1)
                        (if (cw_statusCode cw1 =? 0)%Z then StatusOK
                         else cw_statusCode cw1) (cw_filters cw1) g) as Hv.
          destruct (filtered_loop _ _ _ _ _ _) as [[d b] evs]. cbn in *.
          apply Hv; [by rewrite Hf1, Hf0 | done]. }
        rewrite Hd. eexists. split; [reflexivity|]. cbn.
        by rewrite List.filter_app, Hcb, Hcbf.
  - match goal with |- context [ServeHTTP next ?e] => set (ex0 := e) end.
    assert (Hs0 : serving w r ex0).
    { unfold serving, ex0. cbn. split; [by eexists|]. done. }
    destruct (ServeHTTP_direct w r next ex0 Hs0 eq_refl)
      as (ex1 & -> & _ & Hd1 & Ht1 & _).
    cbn [mbind option_bind]. eexists. split; [reflexivity|]. cbn.
    by rewrite Ht1.
Qed.

Lemma construct_path_filter dreq dresp es1 regexps es2 m :
  construct dreq dresp (es1 ++ EWithPathFilter regexps :: es2) = Some m →
  (λ r, pathExcluded regexps (URL_Path r)) ∈ requestFilters m ∧
  (λ r (_ : gmap string (list string)) (_ : Z), pathExcluded regexps (URL_Path r))
    ∈ responseFilters m.
Proof.
  unfold construct.
  destruct (mapM evalOption (es1 ++ EWithPathFilter regexps :: es2)) as [opts|] eqn:Hm;
    [|done].
  cbn. intros [= <-]. apply mapM_Some in Hm.
  apply Forall2_app_inv_l in Hm as (opts1 & opts' & H1 & H2 & ->).
  apply Forall2_cons_inv_l in H2 as (opt & opts2 & Hopt & H2 & ->).
  apply mapM_Some in H1, H2. cbn in Hopt. injection Hopt as <-.
  unfold NewMiddleware. rewrite foldl_app. cbn [foldl].
  destruct (options_frame es1 opts1 H1) as (fs1 & gs1 & Hf1).
  destruct (options_frame es2 opts2 H2) as (fs2 & gs2 & Hf2).
  match goal with |- context [foldl _ (WithPathFilter regexps ?m1) opts2] =>
    destruct (Hf2 (WithPathFilter regexps m1)) as (-> & -> & _) end.
  cbn. split; rewrite !elem_of_app, !list_elem_of_singleton; auto.
Qed.

(** X10.  A middleware built with [WithPathFilter] among its options,
    and a request whose path one of the expressions matches: whatever the
    other options, the content types and the handler (bulk transfers
    included), neither callback is invoked. *)
Theorem X10_excluded_path_is_never_dumped dreq dresp es1 regexps es2 m next w r body
    (h : gmap loc ResponseWriter) o :
  construct dreq dresp (es1 ++ EWithPathFilter regexps :: es2) = Some m →
  existsb (λ re, re (URL_Path r)) regexps = true →
  h !! w = Some o →
  ∃ out, Handle m next w r body h = Some out ∧
         List.filter isCallback (out_trace out) = [].
Proof.
  intros Hm Hmatch Ho.
  destruct (construct_path_filter dreq dresp es1 regexps es2 m Hm) as [Hf Hg].
  eapply (Handle_vetoed m next w r body h o _ _ Ho Hf); [|exact Hg|].
  - unfold pathExcluded. by rewrite Hmatch.
  - intros hd sc. unfold pathExcluded. by rewrite Hmatch.
Qed.

Lemma X10_excluded_path_is_never_dumped_witness :
  let rq := {| URL_Path := "/health/live";
               Header := {[ "Content-Type" := ["application/json"] ]} |} in
  let rw := {| rw_header := ∅; rw_codes := [];
               rw_sink := {| sk_out := []; sk_room := None; sk_err := ErrShortWrite |} |} in
  let body := {| rd_data := list_byte_of_string "0123456789"; rd_sched := [3];
                 rd_eager := false; rd_fin := EOF |} in
  let health : Regexp := String.prefix "/health" in
  let src := {| rd_data := list_byte_of_string "ok"; rd_sched := [];
                rd_eager := false; rd_fin := EOF |} in
  let m := default (NewMiddleware true true [])
             (construct true true [EWithLimitedBody 4; EWithPathFilter [health]]) in
  ∃ out, Handle m [HBodyRead 8; HHeaderSet "Content-Type" "text/plain"; HReadFrom src]
           0 rq body {[ 0 := rw ]} = Some out ∧
         List.filter isCallback (out_trace out) = [].
Proof.
  cbv zeta.
  refine (X10_excluded_path_is_never_dumped true true [EWithLimitedBody 4]
            [String.prefix "/health"] [] _ _ 0 _ _ _ _ _ _ _).
  - reflexivity.
  - vm_compute. reflexivity.
  - vm_compute. reflexivity.
Defined.

Lemma list_find_veto {A} (dump : A → bool) (filters : list A) :
  match list_find (λ f, dump f = false) filters with
  | Some (j, _) => forallb dump filters = false
  | None => forallb dump filters = true
  end.
Proof.
  induction filters as [|f fs IH]; cbn; [done|].
  case_decide as Hf; cbn; [by rewrite Hf|].
  apply not_false_is_true in Hf. rewrite Hf. cbn.
  by destruct (list_find _ fs) as [[j g]|].
Qed.

(** X8.  The request chain ([filterPassed]) and the response chain
    ([cachedWriter.filtered]) compute conjunctions: the exchange is dumped
    if every filter says so, and its body if, in addition, every filter
    allows the body.  The filters are consulted in order, up to and
    including the first one that refuses the dump; the ones after it are
    not called. *)
Theorem X8_filter_chains_are_conjunctions r headers status
    (filters : list RequestFilterFunc) (rfilters : list ResponseFilterFunc) :
  let dump := forallb (λ f, (f r).1) filters in
  let rdump := forallb (λ f, (f r headers status).1) rfilters in
  (filterPassed r filters).1
  = (dump, dump && forallb (λ f, (f r).2) filters) ∧
  (filterPassed r filters).2
  = EvRequestChain ::
      (EvRequestFilter <$>
         seq 0 (match list_find (λ f, (f r).1 = false) filters with
                | Some (j, _) => S j
                | None => length filters
                end)) ∧
  (filtered_loop r headers status rfilters 0 true).1
  = (rdump, rdump && forallb (λ f, (f r headers status).2) rfilters) ∧
  (filtered_loop r headers status rfilters 0 true).2
  = EvResponseFilter <$>
      seq 0 (match list_find (λ f, (f r headers status).1 = false) rfilters with
             | Some (j, _) => S j
             | None => length rfilters
             end).
Proof.
  cbn zeta. unfold filterPassed.
  rewrite filterPassed_loop_spec, filtered_loop_spec.
  pose proof (list_find_veto (λ f : Request → bool * bool, (f r).1) filters) as H1.
  pose proof (list_find_veto
                (λ f : Request → gmap string (list string) → Z → bool * bool,
                   (f r headers status).1) rfilters) as H2.
  cbn beta in H1, H2.
  destruct (list_find (λ f : Request → bool * bool, (f r).1 = false) filters)
    as [[j f]|];
    destruct (list_find
                (λ f : Request → gmap string (list string) → Z → bool * bool,
                   (f r headers status).1 = false) rfilters) as [[j' g]|];
    rewrite H1, H2; done.
Qed.

(** X6.  [isDumpedContentType] never refuses the dump; it allows the
    body if and only if one of the content types is a prefix of the first
    [Content-Type] value (so parameters after the media type, as in
    [text/plain; charset=utf-8], do not matter). *)
Theorem X6_content_type_rule_is_a_prefix_match headers contentTypes :
  isDumpedContentType headers contentTypes
  = (true, existsb (λ mt, String.prefix mt (Header_Get headers HeaderContentType))
             contentTypes).
Proof.
  unfold isDumpedContentType.
  induction contentTypes as [|mt rest IH]; cbn; [done|].
  destruct (String.prefix mt _); [done|]. exact IH.
Qed.

Lemma prefix_of_empty mt : mt ≠ ""%string → String.prefix mt "" = false.
Proof. by destruct mt. Qed.

(** X7.  Without a [Content-Type] header the value looked up is the empty
    string: unless the empty string is one of the content types, the
    exchange is dumped without its body. *)
Theorem X7_missing_content_type_means_no_body headers contentTypes :
  headers !! HeaderContentType = None →
  Forall (λ mt, mt ≠ ""%string) contentTypes →
  isDumpedContentType headers contentTypes = (true, false).
Proof.
  intros Hmiss Hne. unfold isDumpedContentType, Header_Get. rewrite Hmiss.
  induction Hne as [|mt rest Hmt _ IH]; cbn [isDumpedContentType_loop]; [done|].
  by rewrite prefix_of_empty.
Qed.

Lemma X7_missing_content_type_means_no_body_witness :
  isDumpedContentType ∅ DefaultDumpedContentTypes = (true, false).
Proof.
  apply X7_missing_content_type_means_no_body.
  - reflexivity.
  - repeat (apply Forall_cons; split; [discriminate|]). apply Forall_nil_2.
Defined.

(** X9.  The options add filters after the default content-type filter
    and never remove it: for every list of options, a request whose
    [Content-Type] is not among [DefaultDumpedContentTypes] does not have
    its body selected by the request chain, and the response chain does
    not select the body of a response with such headers. *)
Theorem X9_options_cannot_widen_the_default_content_types dreq dresp es m r headers status :
  construct dreq dresp es = Some m →
  ((isDumpedContentType (Header r) DefaultDumpedContentTypes).2 = false →
     (needDumpRequest m r).1.2 = false) ∧
  ((isDumpedContentType headers DefaultDumpedContentTypes).2 = false →
     (filtered_loop r headers status (responseFilters m) 0 true).1.2 = false).
Proof.
  intros Hm.
  destruct (construct_spec dreq dresp es m Hm)
    as (_ & _ & _ & _ & _ & fs & gs & Hfs & Hgs).
  split; intros Hct.
  - unfold needDumpRequest. destruct (dumpRequest m); cbn [negb]; [|done].
    unfold filterPassed. rewrite filterPassed_loop_spec, Hfs.
    destruct (list_find _ _) as [[j f]|]; [done|].
    cbn [fst snd forallb andb]. unfold FilterRequestBodyByContentType.
    by rewrite Hct.
  - rewrite filtered_loop_spec, Hgs.
    destruct (list_find _ _) as [[j f]|]; [done|].
    cbn [fst snd forallb andb]. unfold FilterResponseBodyByContentType.
    by rewrite Hct.
Qed.

Lemma X9_options_cannot_widen_the_default_content_types_witness :
  let rq := {| URL_Path := "/logo"; Header := {[ "Content-Type" := ["image/png"] ]} |} in
  let allow_all : RequestFilterFunc := λ _, (true, true) in
  let m := default (NewMiddleware true true [])
             (construct true true [EWithRequestFilters [allow_all]]) in
  (needDumpRequest m rq).1.2 = false.
Proof.
  cbv zeta.
  refine (proj1 (X9_options_cannot_widen_the_default_content_types true true
                   [EWithRequestFilters [λ _, (true, true)]] _ _ ∅ 200 _) _).
  - reflexivity.
  - vm_compute. reflexivity.
Defined.

(** *** The middleware is transparent *)

(** [Handle] as a run of the handler: the handler starts on the store it
    was given, with nothing read, on a body that has the whole request body
    still to deliver, and [Handle] returns the store and the bytes the
    handler ends with. *)
Lemma Handle_run m next w r body (h : gmap loc ResponseWriter) o :
  h !! w = Some o →
  ∃ ex0 ex1 out,
    serving w r ex0 ∧ ex_store ex0 = h ∧ ex_got ex0 = [] ∧
    bodyPending (ex_body ex0) = rd_data body ∧
    ServeHTTP next ex0 = Some ex1 ∧
    Handle m next w r body h = Some out ∧
    out_store out = ex_store ex1 ∧ out_got out = ex_got ex1.
Proof.
  intros Ho. unfold Handle. destruct (enabled m) eqn:Hen; cbn [negb].
  - destruct (needDumpRequest m r) as [[dumpReq dumpReqBody] evs_filter].
    assert (Hreq : ∃ body1 readers evs_req,
      (if dumpReq then
         if dumpReqBody then
           let '(cr, rest) := readerPool_Get m in
           let '(_, cr') := Reset cr body in
           (PrefixBody cr', rest, [EvDumpRequest r (Some (Prefix cr'))])
         else (RawBody body, readerPool m, [EvDumpRequest r None])
       else (RawBody body, readerPool m, [])) = (body1, readers, evs_req) ∧
      match body1 with RawBody _ => True | PrefixBody cr => initialised cr end ∧
      bodyPending body1 = rd_data body).
    { destruct dumpReq; [destruct dumpReqBody|].
      - destruct (readerPool_Get m) as [cr rest].
        destruct (Reset_spec cr body) as (_ & _ & _ & _ & _ & Hpend & Hinit & _).
        destruct (Reset cr body) as [e cr']. cbn [fst snd] in *.
        eexists _, _, _. split; [reflexivity|]. done.
      - eexists _, _, _. split; [reflexivity|]. done.
      - eexists _, _, _. split; [reflexivity|]. done. }
    destruct Hreq as (body1 & readers & evs_req & -> & Hbody1 & Hpend).
    assert (Hresp : ∃ w1 writers,
      (if dumpResponse m then
         let '(cw, rest) := writerPool_Get m in
         (Wrapped (cachedWriter_Reset cw (Some w) (Some r) (responseFilters m)), rest)
       else (Direct w, writerPool m)) = (w1, writers) ∧
      match w1 with
      | Direct l => l = w
      | Wrapped cw =>
          cw_w cw = Some w ∧ pw_w (cw_PrefixWriter cw) = Some w ∧
          cw_request cw = Some r ∧
          pw_cached (cw_PrefixWriter cw) ≤ length (pw_cache (cw_PrefixWriter cw))
      end).
    { destruct (dumpResponse m).
      - destruct (writerPool_Get m) as [cw rest].
        eexists _, _. split; [reflexivity|]. cbn.
        repeat split; try done. lia.
      - eexists _, _. split; [reflexivity|]. done. }
    destruct Hresp as (w1 & writers & -> & Hw1).
    match goal with |- context [ServeHTTP next ?e] => set (ex0 := e) end.
    assert (Hs0 : serving w r ex0).
    { unfold serving, ex0. cbn. split; [by eexists|]. done. }
    destruct (ServeHTTP_frame w r next ex0 Hs0) as (ex1 & Hrun & Hs1 & _).
    exists ex0, ex1. rewrite Hrun. cbn [mbind option_bind].
    pose proof Hs1 as ([o1 Ho1] & _ & Hwr1).
    destruct (ex_writer ex1) as [l|cw1] eqn:Hex1.
    + cbn [mbind option_bind]. eexists. do 5 (split; [done|]).
      split; [reflexivity|]. done.
    + destruct (Handle_finish w r ex1 cw1 o1 Hs1 Hex1 Ho1)
        as (cw2 & evs & -> & Hhdr & _).
      cbn [mbind option_bind].
      destruct (cw_dumpResponse cw2); rewrite ?Hhdr; cbn [mbind option_bind];
        (eexists; do 5 (split; [done|]); split; [reflexivity|]); done.
  - match goal with |- context [ServeHTTP next ?e] => set (ex0 := e) end.
    assert (Hs0 : serving w r ex0).
    { unfold serving, ex0. cbn. split; [by eexists|]. done. }
    destruct (ServeHTTP_frame w r next ex0 Hs0) as (ex1 & Hrun & Hs1 & _).
    exists ex0, ex1. rewrite Hrun. cbn [mbind option_bind].
    eexists. do 5 (split; [done|]). split; [reflexivity|]. done.
Qed.





(** *** The request body as the handler receives it *)

Lemma handlerStep_got w r op ex ex' :
  serving w r ex → handlerStep op ex = Some ex' →
  isBodyWriteTo op = false →
  ex_got ex' ++ bodyPending (ex_body ex') = ex_got ex ++ bodyPending (ex_body ex) ∧
  (isBodyCall op = false → ex_got ex' = ex_got ex ∧ ex_body ex' = ex_body ex).
Proof.
  intros Hs Hstep Hop. pose proof Hs as (_ & Hbody & _).
  destruct op as [k|dst|key value|sc|data|src|v]; try done;
    cbn [handlerStep] in Hstep.
  - split; [|done]. destruct (ex_body ex) as [rd|cr] eqn:Hb; cbn [bodyRead] in Hstep.
    + destruct (Reader_Read rd k) as [[bs e] rd'] eqn:Hread. cbn in Hstep.
      injection Hstep as <-. cbn.
      apply Reader_Read_spec in Hread as (c & _ & _ & _ & -> & -> & _).
      by rewrite <- app_assoc, take_drop.
    + destruct (Read_spec cr k Hbody) as (bs & e & cr' & Heq & _ & Hp & _).
      rewrite Heq in Hstep. cbn in Hstep. injection Hstep as <-. cbn.
      by rewrite <- app_assoc, Hp.
  - destruct (store_HeaderSet _ key value (ex_store ex)) as [h'|]; [|done].
    cbn in Hstep. by injection Hstep as <-.
  - destruct (ex_writer ex) as [l|cw].
    + destruct (store_WriteHeader _ sc (ex_store ex)) as [h'|]; [|done].
      cbn in Hstep. by injection Hstep as <-.
    + destruct (cachedWriter_WriteHeader cw sc (ex_store ex)) as [[cw' h']|]; [|done].
      cbn in Hstep. by injection Hstep as <-.
  - destruct (ex_writer ex) as [l|cw].
    + destruct (store_Write _ _ _ data (ex_store ex)) as [[[? ?] h']|]; [|done].
      cbn in Hstep. by injection Hstep as <-.
    + destruct (cachedWriter_Write cw data (ex_store ex)) as [[[[[? ?] ?] ?] ?]|]; [|done].
      cbn in Hstep. by injection Hstep as <-.
  - destruct (ex_writer ex) as [l|cw].
    + destruct (store_Copy _ _ _ src (ex_store ex)) as [[[[? ?] ?] h']|]; [|done].
      cbn in Hstep. by injection Hstep as <-.
    + destruct (cachedWriter_ReadFrom cw src (ex_store ex)) as [[[[[? ?] ?] ?] ?]|]; [|done].
      cbn in Hstep. by injection Hstep as <-.
  - by injection Hstep as <-.
Qed.

Lemma ServeHTTP_got w r ops : ∀ ex ex',
  serving w r ex → ServeHTTP ops ex = Some ex' →
  forallb (λ op, negb (isBodyWriteTo op)) ops = true →
  ex_got ex' ++ bodyPending (ex_body ex') = ex_got ex ++ bodyPending (ex_body ex).
Proof.
  induction ops as [|op ops IH]; intros ex ex' Hs Hrun Hops; cbn [ServeHTTP] in Hrun.
  - by injection Hrun as <-.
  - cbn in Hops. apply andb_prop in Hops as [Hop Hops]. apply negb_true_iff in Hop.
    destruct (handlerStep_total w r op ex Hs) as (ex1 & Hstep & Hs1).
    rewrite Hstep in Hrun. cbn in Hrun.
    rewrite (IH ex1 ex' Hs1 Hrun Hops).
    by destruct (handlerStep_got w r op ex ex1 Hs Hstep Hop).
Qed.

Lemma ServeHTTP_no_body_call w r ops : ∀ ex ex',
  serving w r ex → ServeHTTP ops ex = Some ex' →
  forallb (λ op, negb (isBodyCall op)) ops = true →
  ex_got ex' = ex_got ex.
Proof.
  induction ops as [|op ops IH]; intros ex ex' Hs Hrun Hops; cbn [ServeHTTP] in Hrun.
  - by injection Hrun as <-.
  - cbn in Hops. apply andb_prop in Hops as [Hop Hops]. apply negb_true_iff in Hop.
    destruct (handlerStep_total w r op ex Hs) as (ex1 & Hstep & Hs1).
    rewrite Hstep in Hrun. cbn in Hrun.
    rewrite (IH ex1 ex' Hs1 Hrun Hops).
    assert (Hw : isBodyWriteTo op = false) by (by destruct op).
    destruct (handlerStep_got w r op ex ex1 Hs Hstep Hw) as [_ Hkeep].
    by destruct (Hkeep Hop).
Qed.

(** X13.  The request body as the handler receives it through
    [r.Body.Read], whether [Handle] has put a [PrefixReader] in its place
    or not: the bytes the handler has read are the first bytes of the
    original body, in order, none of them twice and none left out. *)
Theorem X13_handler_reads_the_request_body_in_order m next w r body
    (h : gmap loc ResponseWriter) o :
  h !! w = Some o →
  forallb (λ op, negb (isBodyWriteTo op)) next = true →
  ∃ out rest,
    Handle m next w r body h = Some out ∧
    out_got out ++ rest = rd_data body.
Proof.
  intros Ho Hops.
  destruct (Handle_run m next w r body h o Ho)
    as (ex0 & ex1 & out & Hs0 & _ & Hgot0 & Hpend0 & Hrun & Heq & _ & Hgot).
  exists out, (bodyPending (ex_body ex1)). split; [done|].
  rewrite Hgot, (ServeHTTP_got w r next ex0 ex1 Hs0 Hrun Hops), Hgot0, Hpend0. done.
Qed.

Lemma X13_handler_reads_the_request_body_in_order_witness :
  let rq := {| URL_Path := "/api/items";
               Header := {[ "Content-Type" := ["application/json"] ]} |} in
  let rw := {| rw_header := ∅; rw_codes := [];
               rw_sink := {| sk_out := []; sk_room := None; sk_err := ErrShortWrite |} |} in
  let body := {| rd_data := list_byte_of_string "0123456789"; rd_sched := [3];
                 rd_eager := false; rd_fin := EOF |} in
  let m := default (NewMiddleware true true [])
             (construct true true [EWithLimitedBody 4]) in
  ∃ out rest,
    Handle m [HBodyRead 2; HWrite (list_byte_of_string "ok"); HBodyRead 5]
      0 rq body {[ 0 := rw ]} = Some out ∧
    out_got out ++ rest = list_byte_of_string "0123456789".
Proof.
  cbv zeta.
  refine (X13_handler_reads_the_request_body_in_order _ _ 0 _ _ _ _ _ _).
  - vm_compute. reflexivity.
  - reflexivity.
Defined.

(** X14.  A handler that, after any reads, copies the rest of the request
    body with one [io.Copy(dst, r.Body)] into a sink that never fails, and
    then leaves the body alone, has received exactly the original body:
    what it read followed by what was copied. *)
Theorem X14_handler_copying_the_request_body_gets_all_of_it m pre dst post w r body
    (h : gmap loc ResponseWriter) o :
  h !! w = Some o →
  forallb (λ op, negb (isBodyWriteTo op)) pre = true →
  forallb (λ op, negb (isBodyCall op)) post = true →
  sk_room dst = None →
  ∃ out,
    Handle m (pre ++ HBodyWriteTo dst :: post) w r body h = Some out ∧
    out_got out = rd_data body.
Proof.
  intros Ho Hpre Hpost Hroom.
  destruct (Handle_run m (pre ++ HBodyWriteTo dst :: post) w r body h o Ho)
    as (ex0 & ex3 & out & Hs0 & _ & Hgot0 & Hpend0 & Hrun & Heq & _ & Hgot).
  exists out. split; [done|]. rewrite Hgot.
  rewrite ServeHTTP_app in Hrun.
  destruct (ServeHTTP_frame w r pre ex0 Hs0) as (ex1 & Hrun1 & Hs1 & _).
  rewrite Hrun1 in Hrun. cbn [mbind option_bind ServeHTTP] in Hrun.
  destruct (handlerStep_total w r (HBodyWriteTo dst) ex1 Hs1) as (ex2 & Hstep & Hs2).
  rewrite Hstep in Hrun. cbn [mbind option_bind] in Hrun.
  rewrite (ServeHTTP_no_body_call w r post ex2 ex3 Hs2 Hrun Hpost).
  pose proof (ServeHTTP_got w r pre ex0 ex1 Hs0 Hrun1 Hpre) as Hinv.
  rewrite Hgot0, Hpend0 in Hinv. cbn [app] in Hinv. rewrite <- Hinv.
  pose proof Hs1 as (_ & Hbody1 & _).
  cbn [handlerStep] in Hstep.
  destruct (ex_body ex1) as [rd|cr] eqn:Hb; cbn [bodyWriteTo bodyPending] in Hstep |- *.
  - destruct (Copy_unlimited dst rd Hroom) as (rd' & Hcopy & _).
    rewrite Hcopy in Hstep. cbn in Hstep. injection Hstep as <-. cbn.
    by rewrite drop_app_length.
  - destruct (WriteTo_unlimited cr dst Hbody1 Hroom)
      as (n & e & cr' & w' & Hwt & Hout & _).
    rewrite Hwt in Hstep. cbn in Hstep. injection Hstep as <-. cbn.
    by rewrite Hout, drop_app_length.
Qed.

Lemma X14_handler_copying_the_request_body_gets_all_of_it_witness :
  let rq := {| URL_Path := "/api/items";
               Header := {[ "Content-Type" := ["application/json"] ]} |} in
  let rw := {| rw_header := ∅; rw_codes := [];
               rw_sink := {| sk_out := []; sk_room := None; sk_err := ErrShortWrite |} |} in
  let body := {| rd_data := list_byte_of_string "0123456789"; rd_sched := [3];
                 rd_eager := false; rd_fin := EOF |} in
  let dst := {| sk_out := list_byte_of_string "x"; sk_room := None;
                sk_err := ErrShortWrite |} in
  let m := default (NewMiddleware true true [])
             (construct true true [EWithLimitedBody 4]) in
  ∃ out,
    Handle m ([HBodyRead 2; HHeaderSet "Content-Type" "text/plain"]
              ++ HBodyWriteTo dst :: [HWrite (list_byte_of_string "ok")])
      0 rq body {[ 0 := rw ]} = Some out ∧
    out_got out = list_byte_of_string "0123456789".
Proof.
  cbv zeta.
  refine (X14_handler_copying_the_request_body_gets_all_of_it _ _ _ _ 0 _ _ _ _ _ _ _ _).
  - vm_compute. reflexivity.
  - reflexivity.
  - reflexivity.
  - reflexivity.
Defined.

(** *** Exchanges do not see each other through the pools *)

Lemma slice_same (c1 c2 : list byte) lo hi :
  take hi c1 = take hi c2 → slice c1 lo hi = slice c2 lo hi.
Proof.
  intros H. unfold slice.
  destruct (decide (lo ≤ hi)) as [Hle|Hgt].
  - rewrite !take_drop_commute.
    replace (lo + (hi - lo)) with hi by lia. by rewrite H.
  - replace (hi - lo) with 0 by lia. done.
Qed.

Lemma Read_same cr1 cr2 k :
  sameReader cr1 cr2 →
  match Read cr1 k, Read cr2 k with
  | Some (bs1, e1, cr1'), Some (bs2, e2, cr2') =>
      bs1 = bs2 ∧ e1 = e2 ∧ sameReader cr1' cr2'
  | None, None => True
  | _, _ => False
  end.
Proof.
  intros (Hr & Hread & Hcached & Herr & Hlen & Hpre).
  assert (Hpre' : take (pr_cached cr1) (pr_cache cr1)
                  = take (pr_cached cr1) (pr_cache cr2)).
  { unfold Prefix in Hpre. by rewrite <- Hcached in Hpre. }
  unfold Read. rewrite <- Hr, <- Hread, <- Hcached, <- Herr.
  rewrite <- (slice_same (pr_cache cr1) (pr_cache cr2)) by done.
  set (from_cache := if 0 <? pr_cached cr1 - pr_read cr1
                     then take k (slice (pr_cache cr1) (pr_read cr1) (pr_cached cr1))
                     else []).
  destruct ((0 <? pr_cached cr1 - pr_read cr1) && bool_decide (length from_cache = k)).
  - repeat split; try done; unfold Prefix; cbn; by rewrite <- Hcached.
  - destruct (pr_err cr1).
    + repeat split; try done; unfold Prefix; cbn; by rewrite <- Hcached.
    + destruct (pr_r cr1) as [src|]; cbn; [|done].
      destruct (Reader_Read src _) as [[bs e] src'].
      repeat split; try done; unfold Prefix; cbn; by rewrite <- Hcached.
Qed.

Lemma WriteTo_same cr1 cr2 w :
  sameReader cr1 cr2 →
  match WriteTo cr1 w, WriteTo cr2 w with
  | Some (n1, e1, cr1', w1), Some (n2, e2, cr2', w2) =>
      n1 = n2 ∧ e1 = e2 ∧ w1 = w2 ∧ sameReader cr1' cr2'
  | None, None => True
  | _, _ => False
  end.
Proof.
  intros (Hr & Hread & Hcached & Herr & Hlen & Hpre).
  assert (Hpre' : take (pr_cached cr1) (pr_cache cr1)
                  = take (pr_cached cr1) (pr_cache cr2)).
  { unfold Prefix in Hpre. by rewrite <- Hcached in Hpre. }
  unfold WriteTo. rewrite <- Hr, <- Hread, <- Hcached.
  rewrite <- (slice_same (pr_cache cr1) (pr_cache cr2)) by done.
  destruct (if 0 <? pr_cached cr1 - pr_read cr1 then _ else _) as [[n werr] w1].
  destruct werr.
  - repeat split; done.
  - destruct (pr_r cr1) as [src|]; cbn; [|done].
    destruct (Copy w1 src) as [[[a err] w2] src'].
    repeat split; try done; unfold Prefix; cbn; by rewrite <- Hcached.
Qed.

Lemma EnsureFilterPassed_with cw pw h :
  EnsureFilterPassed (with_PrefixWriter cw pw) h
  = (λ x, (with_PrefixWriter x.1 pw, x.2)) <$> EnsureFilterPassed cw h.
Proof.
  unfold EnsureFilterPassed, cachedWriter_Header, filtered. cbn.
  destruct (cw_written cw); [done|].
  destruct (cw_request cw) as [r|]; cbn; [|done].
  destruct (cw_w cw) as [l|]; cbn; [|done].
  destruct (h !! l) as [o|]; cbn; [|done].
  by destruct (filtered_loop _ _ _ _ _ _) as [[d b] evs].
Qed.

Lemma sameCapture_of pw1 pw2 w :
  pw_w pw1 = Some w → pw_w pw2 = Some w →
  length (pw_cache pw1) = length (pw_cache pw2) →
  pw_cached pw1 ≤ length (pw_cache pw1) → pw_cached pw2 ≤ length (pw_cache pw2) →
  PrefixW pw1 = PrefixW pw2 →
  sameCapture pw1 pw2.
Proof.
  intros H1 H2 Hlen Hc1 Hc2 Hpre. unfold sameCapture.
  split; [congruence|]. split; [|done].
  apply (f_equal length) in Hpre. unfold PrefixW in Hpre.
  rewrite !length_take in Hpre. lia.
Qed.

(** One call of the handler on two exchanges that differ at most in what
    their caches hold beyond the captured bytes. *)
Lemma handlerStep_same w r op ex1 ex2 ex1' ex2' :
  serving w r ex1 → serving w r ex2 → sameExchange ex1 ex2 →
  handlerStep op ex1 = Some ex1' → handlerStep op ex2 = Some ex2' →
  sameExchange ex1' ex2'.
Proof.
  intros Hs1 Hs2 (Hen & Hst & Hgot & Htr & Hb & Hw) H1 H2.
  pose proof Hs1 as ([o Ho] & Hbody1 & Hwr1).
  pose proof Hs2 as (_ & Hbody2 & Hwr2).
  assert (Ho2 : ex_store ex2 !! w = Some o) by (by rewrite <- Hst).
  unfold sameExchange.
  destruct op as [k|dst|key value|sc|data|src|v]; cbn [handlerStep] in H1, H2.
  - destruct (ex_body ex1) as [rd1|cr1], (ex_body ex2) as [rd2|cr2]; try done;
      cbn [bodyRead sameBody] in *.
    + subst rd2. destruct (Reader_Read rd1 k) as [[bs e] rd']. cbn in H1, H2.
      injection H1 as <-. injection H2 as <-. cbn. by rewrite Hgot.
    + pose proof (Read_same cr1 cr2 k Hb) as Hsame.
      destruct (Read cr1 k) as [[[bs1 e1] cr1']|], (Read cr2 k) as [[[bs2 e2] cr2']|];
        try done.
      destruct Hsame as (-> & -> & Hsame). cbn in H1, H2.
      injection H1 as <-. injection H2 as <-. cbn. by rewrite Hgot.
  - destruct (ex_body ex1) as [rd1|cr1], (ex_body ex2) as [rd2|cr2]; try done;
      cbn [bodyWriteTo sameBody] in *.
    + subst rd2. destruct (Copy dst rd1) as [[[n e] dst'] rd']. cbn in H1, H2.
      injection H1 as <-. injection H2 as <-. cbn. by rewrite Hgot.
    + pose proof (WriteTo_same cr1 cr2 dst Hb) as Hsame.
      destruct (WriteTo cr1 dst) as [[[[n1 e1] cr1'] w1]|],
               (WriteTo cr2 dst) as [[[[n2 e2] cr2'] w2]|]; try done.
      destruct Hsame as (-> & -> & -> & Hsame). cbn in H1, H2.
      injection H1 as <-. injection H2 as <-. cbn. by rewrite Hgot.
  - assert (Hsame : match ex_writer ex1 with Direct l => Some l | Wrapped cw => cw_w cw end
                    = match ex_writer ex2 with Direct l => Some l | Wrapped cw => cw_w cw end).
    { destruct (ex_writer ex1) as [l1|cwa], (ex_writer ex2) as [l2|cwb];
        try done; cbn in Hw.
      - by subst.
      - destruct Hw as [_ Hw]. apply (f_equal cw_w) in Hw. done. }
    rewrite <- Hsame, <- Hst in H2.
    destruct (store_HeaderSet _ key value (ex_store ex1)) as [h'|]; [|done].
    cbn in H1, H2. injection H1 as <-. injection H2 as <-. cbn. done.
  - destruct (ex_writer ex1) as [l1|cw1], (ex_writer ex2) as [l2|cw2]; try done;
      cbn [sameWriter] in Hw.
    + subst l2. rewrite <- Hst in H2.
      destruct (store_WriteHeader _ sc (ex_store ex1)) as [h'|]; [|done].
      cbn in H1, H2. injection H1 as <-. injection H2 as <-. cbn. done.
    + destruct Hw as [Hcap Hcw2].
      remember (cw_PrefixWriter cw2) as pw2 eqn:Hpw2e. subst cw2. clear Hpw2e.
      unfold cachedWriter_WriteHeader in H1, H2.
      cbn [cw_w with_PrefixWriter cw_statusCode] in H2. rewrite <- Hst in H2.
      destruct (store_WriteHeader _ sc (ex_store ex1)) as [h'|]; [|done].
      cbn in H1, H2. injection H1 as <-. injection H2 as <-. cbn.
      do 5 (split; [done|]).
      destruct (cw_statusCode cw1 =? 0)%Z; cbn; done.
  - destruct (ex_writer ex1) as [l1|cw1], (ex_writer ex2) as [l2|cw2]; try done;
      cbn [sameWriter] in Hw.
    + subst l2. rewrite <- Hst in H2.
      destruct (store_Write _ _ _ data (ex_store ex1)) as [[[? ?] h']|]; [|done].
      cbn in H1, H2. injection H1 as <-. injection H2 as <-. cbn. done.
    + destruct Hw as [Hcap Hcw2].
      remember (cw_PrefixWriter cw2) as pw2 eqn:Hpw2e.
      assert (Hpw2e' : cw_PrefixWriter cw2 = pw2) by done.
      subst cw2. clear Hpw2e. set (cw2 := with_PrefixWriter cw1 pw2) in *.
      destruct Hwr1 as (Hcw1 & Hpw1 & Hr1 & Hcached1).
      destruct Hwr2 as (Hcw2' & Hpw2 & Hr2 & Hcached2).
      destruct (cachedWriter_Write_spec cw1 data (ex_store ex1) w r o
                  Hcw1 Hpw1 Hr1 Hcached1 Ho)
        as (cwE1 & evs1 & n1 & cw1' & Hens1 & Heq1 & _ & Hcw1' & Hpw1' & Hlen1 & Hc1 & Hpre1).
      destruct (cachedWriter_Write_spec cw2 data (ex_store ex2) w r o
                  Hcw2' Hpw2 Hr2 Hcached2 Ho2)
        as (cwE2 & evs2 & n2 & cw2' & Hens2 & Heq2 & _ & Hcw2'' & Hpw2' & Hlen2 & Hc2 & Hpre2).
      rewrite Heq1 in H1. rewrite Heq2 in H2. cbn in H1, H2.
      injection H1 as <-. injection H2 as <-. cbn.
      unfold cw2 in Hens2.
      rewrite EnsureFilterPassed_with, <- Hst, Hens1 in Hens2.
      cbn in Hens2. injection Hens2 as <- <-.
      destruct Hcap as (_ & Hcached & Hlen & Hpre).
      rewrite <- Hst, Htr. do 5 (split; [done|]).
      split.
      * apply (sameCapture_of _ _ w); try done; try congruence.
        rewrite Hpre1, Hpre2. unfold cw2. cbn [cw_PrefixWriter with_PrefixWriter].
        rewrite Hpre, Hlen, Hcached. done.
      * rewrite Hcw1', Hcw2''. done.
  - destruct (ex_writer ex1) as [l1|cw1], (ex_writer ex2) as [l2|cw2]; try done;
      cbn [sameWriter] in Hw.
    + subst l2. rewrite <- Hst in H2.
      destruct (store_Copy _ _ _ src (ex_store ex1)) as [[[[? ?] ?] h']|]; [|done].
      cbn in H1, H2. injection H1 as <-. injection H2 as <-. cbn. done.
    + destruct Hw as [Hcap Hcw2].
      remember (cw_PrefixWriter cw2) as pw2 eqn:Hpw2e.
      assert (Hpw2e' : cw_PrefixWriter cw2 = pw2) by done.
      subst cw2. clear Hpw2e. set (cw2 := with_PrefixWriter cw1 pw2) in *.
      destruct Hwr1 as (Hcw1 & Hpw1 & Hr1 & Hcached1).
      destruct Hwr2 as (Hcw2' & Hpw2 & Hr2 & Hcached2).
      unfold cachedWriter_ReadFrom in H1, H2.
      destruct (PrefixWriter_ReadFrom_sink rw_sink rw_setSink rw_sink_setSink
                  rw_setSink_setSink rw_setSink_sink (cw_PrefixWriter cw1)
                  src (ex_store ex1) w o Hpw1 Ho Hcached1)
        as (n1 & e1 & pw1' & src1' & Heq1 & Hw1' & Hlen1 & Hc1 & Hpre1).
      destruct (PrefixWriter_ReadFrom_sink rw_sink rw_setSink rw_sink_setSink
                  rw_setSink_setSink rw_setSink_sink (cw_PrefixWriter cw2)
                  src (ex_store ex2) w o Hpw2 Ho2 Hcached2)
        as (n2 & e2 & pw2' & src2' & Heq2 & Hw2' & Hlen2 & Hc2 & Hpre2).
      rewrite Heq1 in H1. rewrite Heq2 in H2. cbn in H1, H2.
      injection H1 as <-. injection H2 as <-. cbn.
      destruct Hcap as (_ & Hcached & Hlen & Hpre).
      rewrite <- Hst. do 5 (split; [done|]).
      split.
      * apply (sameCapture_of _ _ w); try done; try congruence.
        rewrite Hpre1, Hpre2. unfold cw2. cbn [cw_PrefixWriter with_PrefixWriter].
        rewrite Hpre, Hlen, Hcached. done.
      * done.
  - injection H1 as <-. injection H2 as <-. cbn. done.
Qed.

Lemma ServeHTTP_same w r ops : ∀ ex1 ex2 ex1' ex2',
  serving w r ex1 → serving w r ex2 → sameExchange ex1 ex2 →
  ServeHTTP ops ex1 = Some ex1' → ServeHTTP ops ex2 = Some ex2' →
  sameExchange ex1' ex2'.
Proof.
  induction ops as [|op ops IH]; intros ex1 ex2 ex1' ex2' Hs1 Hs2 Hsame H1 H2;
    cbn [ServeHTTP] in H1, H2.
  - injection H1 as <-. injection H2 as <-. done.
  - destruct (handlerStep_total w r op ex1 Hs1) as (ex1a & Hstep1 & Hs1a).
    destruct (handlerStep_total w r op ex2 Hs2) as (ex2a & Hstep2 & Hs2a).
    rewrite Hstep1 in H1. rewrite Hstep2 in H2. cbn in H1, H2.
    apply (IH ex1a ex2a ex1' ex2' Hs1a Hs2a); try done.
    by apply (handlerStep_same w r op ex1 ex2).
Qed.

Lemma Reset_same cr1 cr2 src :
  length (pr_cache cr1) = length (pr_cache cr2) →
  sameReader (Reset cr1 src).2 (Reset cr2 src).2.
Proof.
  intros Hlen.
  destruct (Reset_spec cr1 src) as (_ & _ & _ & Hl1 & Hp1 & _).
  destruct (Reset_spec cr2 src) as (_ & _ & _ & Hl2 & Hp2 & _).
  cbn zeta in *.
  assert (Hfields : pr_r (Reset cr1 src).2 = pr_r (Reset cr2 src).2 ∧
                    pr_read (Reset cr1 src).2 = pr_read (Reset cr2 src).2 ∧
                    pr_cached (Reset cr1 src).2 = pr_cached (Reset cr2 src).2 ∧
                    pr_err (Reset cr1 src).2 = pr_err (Reset cr2 src).2).
  { unfold Reset. rewrite Hlen.
    pose proof (ReadAtLeast_buf src (pr_cache cr1) (pr_cache cr2)
                  (length (pr_cache cr2)) Hlen) as (Hn & He & Hr).
    destruct (ReadAtLeast src (pr_cache cr1) _) as [[[n1 e1] b1] r1].
    destruct (ReadAtLeast src (pr_cache cr2) _) as [[[n2 e2] b2] r2].
    cbn in *. subst. done. }
  destruct Hfields as (? & ? & ? & ?).
  unfold sameReader. rewrite Hl1, Hl2, Hp1, Hp2, Hlen. done.
Qed.

(** X16.  What an exchange does does not depend on what the pooled reader
    and writer were used for before: with pools holding any instances of
    the right capacity, whatever their caches and fields still contain,
    [Handle] calls the same filters and callbacks with the same arguments,
    leaves the same response, hands the handler the same request body and
    leaves the switch in the same position as with the pools it had. *)
Theorem X16_outcome_does_not_depend_on_the_pools m ws rs next w r body
    (h : gmap loc ResponseWriter) o :
  h !! w = Some o →
  pooledCapacity m → pooledCapacity (set_pools m ws rs) →
  ∃ out out',
    Handle m next w r body h = Some out ∧
    Handle (set_pools m ws rs) next w r body h = Some out' ∧
    out_trace out = out_trace out' ∧ out_store out = out_store out' ∧
    out_got out = out_got out' ∧ enabled (out_m out) = enabled (out_m out').
Proof.
  intros Ho Hp1 Hp2. set (m2 := set_pools m ws rs) in *.
  destruct (readerPool_Get_capacity m Hp1) as [Hcr1 _].
  destruct (readerPool_Get_capacity m2 Hp2) as [Hcr2 _].
  destruct (writerPool_Get_capacity m Hp1) as [Hcw1 _].
  destruct (writerPool_Get_capacity m2 Hp2) as [Hcw2 _].
  change (dumpedBodySize m2) with (dumpedBodySize m) in Hcr2, Hcw2.
  unfold Handle.
  change (enabled m2) with (enabled m).
  change (needDumpRequest m2 r) with (needDumpRequest m r).
  change (dumpResponse m2) with (dumpResponse m).
  change (responseFilters m2) with (responseFilters m).
  destruct (enabled m) eqn:Hen; cbn [negb].
  - destruct (needDumpRequest m r) as [[dumpReq dumpReqBody] evs_filter].
    assert (Hreq : ∃ b1 rs1 b2 rs2 evs_req,
      (if dumpReq then
         if dumpReqBody then
           let '(cr, rest) := readerPool_Get m in
           let '(_, cr') := Reset cr body in
           (PrefixBody cr', rest, [EvDumpRequest r (Some (Prefix cr'))])
         else (RawBody body, readerPool m, [EvDumpRequest r None])
       else (RawBody body, readerPool m, [])) = (b1, rs1, evs_req) ∧
      (if dumpReq then
         if dumpReqBody then
           let '(cr, rest) := readerPool_Get m2 in
           let '(_, cr') := Reset cr body in
           (PrefixBody cr', rest, [EvDumpRequest r (Some (Prefix cr'))])
         else (RawBody body, readerPool m2, [EvDumpRequest r None])
       else (RawBody body, readerPool m2, [])) = (b2, rs2, evs_req) ∧
      sameBody b1 b2 ∧
      match b1 with RawBody _ => True | PrefixBody cr => initialised cr end ∧
      match b2 with RawBody _ => True | PrefixBody cr => initialised cr end).
    { destruct dumpReq; [destruct dumpReqBody|].
      - destruct (readerPool_Get m) as [cr1 rest1].
        destruct (readerPool_Get m2) as [cr2 rest2]. cbn [fst] in Hcr1, Hcr2.
        pose proof (Reset_same cr1 cr2 body ltac:(congruence)) as Hsame.
        destruct (Reset_spec cr1 body) as (_ & _ & _ & _ & _ & _ & Hi1 & _).
        destruct (Reset_spec cr2 body) as (_ & _ & _ & _ & _ & _ & Hi2 & _).
        destruct (Reset cr1 body) as [e1 cr1'], (Reset cr2 body) as [e2 cr2'].
        cbn [fst snd] in *.
        eexists _, _, _, _, _. split; [reflexivity|].
        destruct Hsame as (? & ? & ? & ? & ? & Hpre). rewrite Hpre.
        split; [reflexivity|]. done.
      - eexists _, _, _, _, _. split; [reflexivity|]. split; [reflexivity|]. done.
      - eexists _, _, _, _, _. split; [reflexivity|]. split; [reflexivity|]. done. }
    destruct Hreq as (b1 & rs1 & b2 & rs2 & evs_req & -> & -> & Hsb & Hi1 & Hi2).
    assert (Hresp : ∃ w1 ws1 w2 ws2,
      (if dumpResponse m then
         let '(cw, rest) := writerPool_Get m in
         (Wrapped (cachedWriter_Reset cw (Some w) (Some r) (responseFilters m)), rest)
       else (Direct w, writerPool m)) = (w1, ws1) ∧
      (if dumpResponse m then
         let '(cw, rest) := writerPool_Get m2 in
         (Wrapped (cachedWriter_Reset cw (Some w) (Some r) (responseFilters m)), rest)
       else (Direct w, writerPool m2)) = (w2, ws2) ∧
      sameWriter w1 w2 ∧
      (∀ w0, w0 = w1 ∨ w0 = w2 →
         match w0 with
         | Direct l => l = w
         | Wrapped cw =>
             cw_w cw = Some w ∧ pw_w (cw_PrefixWriter cw) = Some w ∧
             cw_request cw = Some r ∧
             pw_cached (cw_PrefixWriter cw) ≤ length (pw_cache (cw_PrefixWriter cw))
         end)).
    { destruct (dumpResponse m).
      - destruct (writerPool_Get m) as [cw1 rest1].
        destruct (writerPool_Get m2) as [cw2 rest2]. cbn [fst] in Hcw1, Hcw2.
        eexists _, _, _, _. split; [reflexivity|]. split; [reflexivity|].
        split.
        + cbn. unfold sameCapture, PrefixW. cbn. repeat split; try done. congruence.
        + intros w0 [->| ->]; cbn; repeat split; try done; lia.
      - eexists _, _, _, _. split; [reflexivity|]. split; [reflexivity|].
        split; [done|]. by intros w0 [->| ->]. }
    destruct Hresp as (w1 & ws1 & w2 & ws2 & -> & -> & Hsw & Hwr).
    assert (Hkind : match b1 with PrefixBody _ => true | RawBody _ => false end
                    = match b2 with PrefixBody _ => true | RawBody _ => false end).
    { by destruct b1, b2. }
    assert (Hkindw : match w1 with Wrapped _ => true | Direct _ => false end
                     = match w2 with Wrapped _ => true | Direct _ => false end).
    { by destruct w1, w2. }
    rewrite <- Hkind, <- Hkindw.
    match goal with |- context [ServeHTTP next ?e ≫= _ = Some _ ∧ ServeHTTP next ?e' ≫= _ = _ ∧ _] =>
      set (ex0 := e); set (ex0' := e') end.
    assert (Hs0 : serving w r ex0).
    { unfold serving, ex0. cbn. split; [by eexists|]. split; [done|].
      apply (Hwr w1). by left. }
    assert (Hs0' : serving w r ex0').
    { unfold serving, ex0'. cbn. split; [by eexists|]. split; [done|].
      apply (Hwr w2). by right. }
    assert (Hsame0 : sameExchange ex0 ex0') by done.
    destruct (ServeHTTP_frame w r next ex0 Hs0) as (ex1 & Hrun & Hs1 & _).
    destruct (ServeHTTP_frame w r next ex0' Hs0') as (ex1' & Hrun' & Hs1' & _).
    pose proof (ServeHTTP_same w r next ex0 ex0' ex1 ex1' Hs0 Hs0' Hsame0 Hrun Hrun')
      as (Hen1 & Hst1 & Hgot1 & Htr1 & Hb1 & Hw1).
    rewrite Hrun, Hrun'. cbn [mbind option_bind].
    pose proof Hs1 as ([o1 Ho1] & _ & Hwr1).
    pose proof Hs1' as ([o1' Ho1'] & _ & Hwr1').
    destruct (ex_writer ex1) as [l1|cwa] eqn:Hex1,
             (ex_writer ex1') as [l2|cwb] eqn:Hex1'; try done.
    + cbn [mbind option_bind]. eexists _, _.
      split; [reflexivity|]. split; [reflexivity|]. cbn.
      rewrite Htr1, Hst1, Hgot1, Hen1. done.
    + cbn [sameWriter] in Hw1. destruct Hw1 as [Hcap Hcwb].
      destruct (Handle_finish w r ex1 cwa o1 Hs1 Hex1 Ho1)
        as (cwa' & evs & Hens & Hhdr & _ & Hpwa & _).
      rewrite <- Hcwb, EnsureFilterPassed_with, <- Hst1, Hens.
      cbn [fmap option_fmap option_map mbind option_bind fst snd].
      cbn [cw_dumpResponse with_PrefixWriter].
      assert (Hhdr' : cachedWriter_Header
                        (with_PrefixWriter cwa' (cw_PrefixWriter cwb)) (ex_store ex1)
                      = Some (rw_header o1)) by exact Hhdr.
      assert (Hpre : PrefixW (cw_PrefixWriter cwa') = PrefixW (cw_PrefixWriter cwb)).
      { rewrite Hpwa. by destruct Hcap as (_ & _ & _ & ?). }
      destruct (cw_dumpResponse cwa'); rewrite ?Hhdr, ?Hhdr';
        cbn [mbind option_bind]; (eexists _, _;
        split; [reflexivity|]; split; [reflexivity|]); cbn;
        rewrite ?Hpre, Htr1, Hgot1, Hen1; done.
  - match goal with |- context [ServeHTTP next ?e] => set (ex0 := e) end.
    assert (Hs0 : serving w r ex0).
    { unfold serving, ex0. cbn. split; [by eexists|]. done. }
    destruct (ServeHTTP_frame w r next ex0 Hs0) as (ex1 & Hrun & _).
    rewrite Hrun. cbn [mbind option_bind]. eexists _, _.
    split; [reflexivity|]. split; [reflexivity|]. done.
Qed.

Lemma X16_outcome_does_not_depend_on_the_pools_witness :
  let rq := {| URL_Path := "/api/items";
               Header := {[ "Content-Type" := ["application/json"] ]} |} in
  let rw := {| rw_header := ∅; rw_codes := [];
               rw_sink := {| sk_out := []; sk_room := None; sk_err := ErrShortWrite |} |} in
  let body := {| rd_data := list_byte_of_string "01"; rd_sched := [];
                 rd_eager := false; rd_fin := EOF |} in
  let old := {| rd_data := list_byte_of_string "secret"; rd_sched := [];
                rd_eager := false; rd_fin := EOF |} in
  let m := default (NewMiddleware true true [])
             (construct true true [EWithLimitedBody 4]) in
  let used_reader := (NewPrefixReader (Some old) 4).1 in
  let used_writer := cachedWriter_Reset (newCachedWriter None 4) (Some 7) (Some rq) [] in
  let next := [HBodyRead 8; HHeaderSet "Content-Type" "text/plain";
               HWrite (list_byte_of_string "ok")] in
  ∃ out out',
    Handle m next 0 rq body {[ 0 := rw ]} = Some out ∧
    Handle (set_pools m [used_writer] [used_reader]) next 0 rq body {[ 0 := rw ]}
    = Some out' ∧
    out_trace out = out_trace out'.
Proof.
  cbv zeta.
  destruct (X16_outcome_does_not_depend_on_the_pools
              (default (NewMiddleware true true [])
                 (construct true true [EWithLimitedBody 4]))
              [cachedWriter_Reset (newCachedWriter None 4) (Some 7)
                 (Some {| URL_Path := "/api/items";
                          Header := {[ "Content-Type" := ["application/json"] ]} |}) []]
              [(NewPrefixReader
                  (Some {| rd_data := list_byte_of_string "secret"; rd_sched := [];
                           rd_eager := false; rd_fin := EOF |}) 4).1]
              [HBodyRead 8; HHeaderSet "Content-Type" "text/plain";
               HWrite (list_byte_of_string "ok")]
              0 {| URL_Path := "/api/items";
                   Header := {[ "Content-Type" := ["application/json"] ]} |}
              {| rd_data := list_byte_of_string "01"; rd_sched := [];
                 rd_eager := false; rd_fin := EOF |}
              {[ 0 := {| rw_header := ∅; rw_codes := [];
                         rw_sink := {| sk_out := []; sk_room := None;
                                       sk_err := ErrShortWrite |} |} ]}
              {| rw_header := ∅; rw_codes := [];
                 rw_sink := {| sk_out := []; sk_room := None;
                               sk_err := ErrShortWrite |} |})
    as (out & out' & H1 & H2 & Ht & _).
  - vm_compute. reflexivity.
  - split; apply Forall_nil_2.
  - split; (apply Forall_cons; split; [vm_compute; reflexivity | apply Forall_nil_2]).
  - exists out, out'. split; [exact H1|]. split; [exact H2 | exact Ht].
Defined.

(** *** The count [cachedWriter.Write] returns *)

(** X17.  [cachedWriter.Write] returns the error of the underlying writer.
    When that writer accepted the data the count is [len(data)].  When it
    failed, the count is the underlying writer's if the body is not
    captured, and [0] if it is captured, whatever the underlying writer
    did accept. *)
Theorem X17_count_of_a_failed_write cw data (h : gmap loc ResponseWriter) w r o :
  cw_w cw = Some w → pw_w (cw_PrefixWriter cw) = Some w →
  cw_request cw = Some r →
  pw_cached (cw_PrefixWriter cw) ≤ length (pw_cache (cw_PrefixWriter cw)) →
  h !! w = Some o →
  let res := Sink_Write (rw_sink o) data in
  ∃ cw1 evs n cw' h',
    EnsureFilterPassed cw h = Some (cw1, evs) ∧
    cachedWriter_Write cw data h = Some (n, res.1.2, cw', h', evs) ∧
    n = match res.1.2 with
        | Some _ => if cw_dumpBody cw1 then 0 else res.1.1
        | None => length data
        end.
Proof.
  intros Hw Hpw Hr Hcached Hl res.
  destruct (EnsureFilterPassed cw h) as [[cw1 evs]|] eqn:Hens; last first.
  { rewrite (EnsureFilterPassed_spec cw h w r o Hw Hr Hl) in Hens.
    by destruct (cw_written cw). }
  destruct (EnsureFilterPassed_bound cw h w r o cw1 evs Hw Hr Hl Hens)
    as (Hpw1 & Hw1 & Hr1 & Hf1 & Hwr1).
  pose proof (Sink_Write_ok (rw_sink o) data) as Hok. fold res in Hok.
  unfold cachedWriter_Write. rewrite Hens. cbn [mbind option_bind].
  destruct (cw_dumpBody cw1) eqn:Hbody; cbn [negb].
  - destruct (PrefixWriter_Write_spec rw_sink rw_setSink (cw_PrefixWriter cw1)
                data h w o) as (pw' & Heq & _);
      [by rewrite Hpw1 | done | by rewrite Hpw1 |].
    fold res in Heq. rewrite Heq. cbn [mbind option_bind].
    destruct (res.1.2) as [e|] eqn:Herr.
    + eexists cw1, evs, _, _, _. split; [done|]. split; [reflexivity|].
      by rewrite Hbody.
    + eexists cw1, evs, _, _, _. split; [done|]. split; [reflexivity|]. by apply Hok.
  - rewrite Hw1, (store_Write_ok _ _ _ _ _ _ Hl). cbn [mbind option_bind].
    fold res. eexists cw1, evs, _, _, _. split; [done|]. split; [reflexivity|].
    destruct (res.1.2); [by rewrite Hbody|]. by apply Hok.
Qed.

Lemma X17_count_of_a_failed_write_witness :
  let rq := {| URL_Path := "/"; Header := ∅ |} in
  let rw := {| rw_header := {[ "Content-Type" := ["text/plain"] ]};
               rw_codes := [];
               rw_sink := {| sk_out := []; sk_room := Some 1;
                             sk_err := ErrOther "broken pipe" |} |} in
  let h : gmap loc ResponseWriter := {[ 0 := rw ]} in
  let cw := cachedWriter_Reset (newCachedWriter None 10) (Some 0) (Some rq)
              [FilterResponseBodyByContentType DefaultDumpedContentTypes] in
  let data := list_byte_of_string "abc" in
  ∃ cw' h' evs,
    cachedWriter_Write cw data h
    = Some (0, Some (ErrOther "broken pipe"), cw', h', evs) ∧
    (Sink_Write (rw_sink rw) data).1.1 = 1.
Proof.
  cbv zeta.
  destruct (X17_count_of_a_failed_write
              (cachedWriter_Reset (newCachedWriter None 10) (Some 0)
                 (Some {| URL_Path := "/"; Header := ∅ |})
                 [FilterResponseBodyByContentType DefaultDumpedContentTypes])
              (list_byte_of_string "abc")
              {[ 0 := {| rw_header := {[ "Content-Type" := ["text/plain"] ]};
                         rw_codes := [];
                         rw_sink := {| sk_out := []; sk_room := Some 1;
                                       sk_err := ErrOther "broken pipe" |} |} ]}
              0 {| URL_Path := "/"; Header := ∅ |}
              {| rw_header := {[ "Content-Type" := ["text/plain"] ]};
                 rw_codes := [];
                 rw_sink := {| sk_out := []; sk_room := Some 1;
                               sk_err := ErrOther "broken pipe" |} |})
    as (cw1 & evs & n & cw' & h' & Hens & Heq & Hn).
  - reflexivity.
  - reflexivity.
  - reflexivity.
  - vm_compute. lia.
  - vm_compute. reflexivity.
  - exists cw', h', evs. split; [|reflexivity].
    rewrite Heq. f_equal. f_equal. f_equal. f_equal. f_equal.
    rewrite Hn. vm_compute in Hens. injection Hens as <- _. reflexivity.
Defined.

(** *** The order of an exchange *)

Lemma EnsureFilterPassed_events cw h w r o cw1 evs :
  cw_w cw = Some w → cw_request cw = Some r → h !! w = Some o →
  EnsureFilterPassed cw h = Some (cw1, evs) →
  forallb isResponseSide evs = true.
Proof.
  intros Hw Hr Hl. rewrite (EnsureFilterPassed_spec cw h w r o Hw Hr Hl).
  destruct (cw_written cw); intros [= <- <-]; [done|].
  unfold filtered. rewrite filtered_loop_spec.
  destruct (list_find _ _) as [[j f]|]; cbn;
    apply forallb_forall; intros ev Hev; apply in_map_iff in Hev as (i & <- & _); done.
Qed.

(** The handler's run adds nothing to the trace but runs of the response
    chain. *)
Lemma ServeHTTP_trace w r ops : ∀ ex,
  serving w r ex →
  ∃ ex' evs,
    ServeHTTP ops ex = Some ex' ∧ serving w r ex' ∧
    ex_trace ex' = ex_trace ex ++ evs ∧ forallb isResponseSide evs = true.
Proof.
  induction ops as [|op ops IH]; intros ex Hs; cbn [ServeHTTP].
  - exists ex, []. by rewrite app_nil_r.
  - pose proof Hs as ([o Ho] & _ & Hwr).
    assert (Hstep : ∃ ex1 evs1, handlerStep op ex = Some ex1 ∧ serving w r ex1 ∧
                      ex_trace ex1 = ex_trace ex ++ evs1 ∧
                      forallb isResponseSide evs1 = true).
    { destruct (ex_writer ex) as [l|cw] eqn:Hw.
      - subst l. destruct (handlerStep_direct w r op ex Hs Hw)
          as (ex1 & Hstep & Hs1 & _ & Ht & _).
        exists ex1, []. by rewrite app_nil_r.
      - destruct (handlerStep_wrapped w r op ex cw o Hs Hw Ho)
          as (ex1 & cw1 & o1 & Hstep & Hs1 & _ & _ & _ & _ & _ & Hrest).
        destruct (isWrite op).
        + destruct Hrest as (cwE & evs & Hens & Ht & _).
          exists ex1, evs. do 3 (split; [done|]).
          destruct Hwr as (Hcw & _ & Hr & _).
          by apply (EnsureFilterPassed_events cw (ex_store ex) w r o cwE).
        + destruct Hrest as (Ht & _). exists ex1, []. by rewrite app_nil_r. }
    destruct Hstep as (ex1 & evs1 & -> & Hs1 & Ht1 & Hev1).
    destruct (IH ex1 Hs1) as (ex2 & evs2 & Hrun & Hs2 & Ht2 & Hev2).
    cbn [mbind option_bind]. exists ex2, (evs1 ++ evs2).
    split; [done|]. split; [done|].
    split; [by rewrite Ht2, Ht1, app_assoc|]. by rewrite forallb_app, Hev1, Hev2.
Qed.

(** X19.  The order of an enabled exchange.  The request chain is
    consulted and the request callback is called before the handler
    starts; the handler is given a [PrefixReader] in place of the request
    body only if the request chain selected the body, and the
    [cachedWriter] in place of the response writer exactly if a response
    callback is configured; everything after the start of the handler is a
    run of the response chain or the call of the response callback. *)
Theorem X19_request_side_comes_before_the_handler m next w r body
    (h : gmap loc ResponseWriter) o :
  enabled m = true → h !! w = Some o →
  let dumpReq := (needDumpRequest m r).1.1 in
  let dumpReqBody := (needDumpRequest m r).1.2 in
  ∃ out post,
    Handle m next w r body h = Some out ∧
    out_trace out
    = (needDumpRequest m r).2
      ++ (if dumpReq then
            [EvDumpRequest r
               (if dumpReqBody
                then Some (take (length (pr_cache (readerPool_Get m).1)) (rd_data body))
                else None)]
          else [])
      ++ EvServeHTTP (dumpReq && dumpReqBody) (dumpResponse m) :: post ∧
    forallb isResponseSide post = true.
Proof.
  intros Hen Ho. cbn zeta. unfold Handle. rewrite Hen. cbn [negb].
  pose proof (Handle_setup m w r body h o Ho) as Hsetup.
  pose proof (Handle_setup_events m r body) as Hsetup_ev.
  destruct (needDumpRequest m r) as [[dumpReq dumpReqBody] evs_filter] eqn:Hneed.
  cbn [fst snd] in Hsetup, Hsetup_ev |- *.
  match type of Hsetup_ev with ∀ b1 rd ev, ?t = _ → _ =>
    destruct t as [[body1 readers] evs_req] eqn:Hreqside
  end.
  destruct (Hsetup body1 readers evs_req eq_refl) as (Hbody1 & _ & _).
  pose proof (Hsetup_ev body1 readers evs_req eq_refl) as Hev.
  assert (Hwrapped : match body1 with PrefixBody _ => true | RawBody _ => false end
                     = dumpReq && dumpReqBody).
  { destruct dumpReq; [destruct dumpReqBody|]; cbn in Hreqside.
    - destruct (readerPool_Get m) as [cr rest].
      destruct (Reset cr body) as [e cr']. by injection Hreqside as <- _ _.
    - by injection Hreqside as <- _ _.
    - by injection Hreqside as <- _ _. }
  assert (Hresp : ∃ w1 writers,
    (if dumpResponse m then
       let '(cw, rest) := writerPool_Get m in
       (Wrapped (cachedWriter_Reset cw (Some w) (Some r) (responseFilters m)), rest)
     else (Direct w, writerPool m)) = (w1, writers) ∧
    match w1 with Wrapped _ => true | Direct _ => false end = dumpResponse m ∧
    match w1 with
    | Direct l => l = w
    | Wrapped cw =>
        cw_w cw = Some w ∧ pw_w (cw_PrefixWriter cw) = Some w ∧
        cw_request cw = Some r ∧
        pw_cached (cw_PrefixWriter cw) ≤ length (pw_cache (cw_PrefixWriter cw))
    end).
  { destruct (dumpResponse m).
    - destruct (writerPool_Get m) as [cw rest].
      eexists _, _. split; [reflexivity|]. cbn.
      repeat split; try done. lia.
    - eexists _, _. split; [reflexivity|]. done. }
  destruct Hresp as (w1 & writers & -> & Hkind & Hw1).
  rewrite Hwrapped, Hkind.
  match goal with |- context [ServeHTTP next ?e] => set (ex0 := e) end.
  assert (Hs0 : serving w r ex0).
  { unfold serving, ex0. cbn. split; [by eexists|]. done. }
  destruct (ServeHTTP_trace w r next ex0 Hs0) as (ex1 & evs & -> & Hs1 & Ht1 & Hevs).
  cbn [mbind option_bind]. unfold ex0 in Ht1. cbn [ex_trace] in Ht1.
  pose proof Hs1 as ([o1 Ho1] & _ & Hwr1).
  destruct (ex_writer ex1) as [l|cw1] eqn:Hex1.
  - cbn [mbind option_bind]. eexists _, evs. split; [reflexivity|]. cbn.
    rewrite Ht1, <- Hev, app_nil_r, <- !app_assoc. done.
  - destruct (Handle_finish w r ex1 cw1 o1 Hs1 Hex1 Ho1)
      as (cw2 & evs2 & Hens & Hhdr & _).
    destruct Hwr1 as (Hcw1 & _ & Hr1 & _).
    pose proof (EnsureFilterPassed_events cw1 _ w r o1 cw2 evs2 Hcw1 Hr1 Ho1 Hens)
      as Hevs2.
    rewrite Hens. cbn [mbind option_bind].
    destruct (cw_dumpResponse cw2); rewrite ?Hhdr; cbn [mbind option_bind].
    + eexists _, (evs ++ evs2 ++ [_]). split; [reflexivity|]. cbn.
      rewrite Ht1, <- Hev, <- !app_assoc. split; [done|].
      by rewrite !forallb_app, Hevs, Hevs2.
    + eexists _, (evs ++ evs2). split; [reflexivity|]. cbn.
      rewrite Ht1, <- Hev, <- !app_assoc. split; [done|].
      by rewrite !forallb_app, Hevs, Hevs2.
Qed.

Lemma X19_request_side_comes_before_the_handler_witness :
  let rq := {| URL_Path := "/api/items";
               Header := {[ "Content-Type" := ["image/png"] ]} |} in
  let rw := {| rw_header := ∅; rw_codes := [];
               rw_sink := {| sk_out := []; sk_room := None; sk_err := ErrShortWrite |} |} in
  let body := {| rd_data := list_byte_of_string "0123456789"; rd_sched := [3];
                 rd_eager := false; rd_fin := EOF |} in
  let m := default (NewMiddleware true true [])
             (construct true true [EWithLimitedBody 4]) in
  let next := [HBodyRead 2; HWrite (list_byte_of_string "ok")] in
  ∃ out post,
    Handle m next 0 rq body {[ 0 := rw ]} = Some out ∧
    out_trace out
    = [EvRequestChain; EvRequestFilter 0; EvDumpRequest rq None;
       EvServeHTTP false true] ++ post ∧
    forallb isResponseSide post = true.
Proof.
  cbv zeta.
  destruct (X19_request_side_comes_before_the_handler
              (default (NewMiddleware true true [])
                 (construct true true [EWithLimitedBody 4]))
              [HBodyRead 2; HWrite (list_byte_of_string "ok")]
              0 {| URL_Path := "/api/items";
                   Header := {[ "Content-Type" := ["image/png"] ]} |}
              {| rd_data := list_byte_of_string "0123456789"; rd_sched := [3];
                 rd_eager := false; rd_fin := EOF |}
              {[ 0 := {| rw_header := ∅; rw_codes := [];
                         rw_sink := {| sk_out := []; sk_room := None;
                                       sk_err := ErrShortWrite |} |} ]}
              {| rw_header := ∅; rw_codes := [];
                 rw_sink := {| sk_out := []; sk_room := None;
                               sk_err := ErrShortWrite |} |})
    as (out & post & Heq & Ht & Hpost).
  - reflexivity.
  - vm_compute. reflexivity.
  - exists out, post. split; [exact Heq|]. split; [exact Ht | exact Hpost].
Defined.

End httpdump_facts.
